(** * SATEPSI scraper: extraction, persistence and change detection

    A shallow embedding of [src/config.py] and [src/satepsi_scraper.py]
    together with the properties of the specification that can be stated
    over it.

    Conventions of the embedding.
    - A Python [str] is a [string]; one [ascii] is one code point.  The
      scraper decodes its input as latin1, so every character of a document
      is a code point below 256, which is what [ascii] holds.
    - A Python [dict] with string keys is an insertion-ordered association
      list with unique keys ([dict_set] keeps the position of a key that is
      already present, as CPython does).
    - A Python exception is a value of [exn]; a function that may raise
      returns a [result]. *)

From Stdlib Require Import String Ascii List ZArith Lia Bool.
From Stdlib Require Import Strings.Byte.
From stdpp Require Import gmap strings list pretty.

Open Scope string_scope.

Set Warnings "-register-all".

(** ** Exceptions and results *)

Inductive exn : Type :=
| AttributeError (msg : string)
| TypeError (msg : string)
| KeyError (key : string)
| IndexError
| JSONDecodeError (msg : string)
| UnicodeDecodeError
| FileNotFoundError (path : string)
| OSError (msg : string)
| RequestException (msg : string)
| OtherException (name : string) (msg : string).

Inductive result (A : Type) : Type :=
| Ok (a : A)
| Raise (e : exn).

Arguments Ok {A} a.
Arguments Raise {A} e.

(** Sequencing: the first exception raised ends the computation.  With
    these instances stdpp's [x ← r; k] reads as Python's statement order. *)
#[global] Instance result_ret : MRet result := fun _ a => Ok a.

#[global] Instance result_bind : MBind result := fun _ _ k r =>
  match r with
  | Ok a => k a
  | Raise e => Raise e
  end.

(** [for x in l: body], where the body may raise and updates an accumulator. *)
Fixpoint rfold {A S : Type} (body : S -> A -> result S) (s : S) (l : list A)
  : result S :=
  match l with
  | [] => Ok s
  | x :: l' => s' ← body s x; rfold body s' l'
  end.

(** A list comprehension whose element expression may raise. *)
Fixpoint rmap {A B : Type} (f : A -> result B) (l : list A) : result (list B) :=
  match l with
  | [] => Ok []
  | x :: l' => y ← f x; ys ← rmap f l'; Ok (y :: ys)
  end.

(** ** Python strings *)

Module Str.

(** A one-character string from its code point. *)
Definition chr (n : nat) : string := String (ascii_of_nat n) "".

(** [str.isspace] on one character, for code points below 256:
    U+0009..U+000D, U+001C..U+0020, U+0085 and U+00A0. *)
Definition isspace (c : ascii) : bool :=
  let n := nat_of_ascii c in
  (((9 <=? n) && (n <=? 13)) || ((28 <=? n) && (n <=? 32))
   || (n =? 133) || (n =? 160))%nat.

Fixpoint lstrip_by (p : ascii -> bool) (s : string) : string :=
  match s with
  | EmptyString => EmptyString
  | String c s' => if p c then lstrip_by p s' else s
  end.

Fixpoint rstrip_by (p : ascii -> bool) (s : string) : string :=
  match s with
  | EmptyString => EmptyString
  | String c s' =>
      match rstrip_by p s' with
      | EmptyString => if p c then EmptyString else String c EmptyString
      | r => String c r
      end
  end.

(** [s.strip()], [s.rstrip(":")]. *)
Definition strip (s : string) : string := lstrip_by isspace (rstrip_by isspace s).

Definition rstrip_chars (chars : string) (s : string) : string :=
  rstrip_by (fun c => existsb (Ascii.eqb c) (list_ascii_of_string chars)) s.

(** [s.startswith(p)]. *)
Definition startswith (p s : string) : bool := String.prefix p s.

(** [s[1:]]. *)
Definition tail (s : string) : string :=
  match s with
  | EmptyString => EmptyString
  | String _ s' => s'
  end.

(** [sep.join(l)]. *)
Fixpoint join (sep : string) (l : list string) : string :=
  match l with
  | [] => ""
  | [x] => x
  | x :: l' => x ++ sep ++ join sep l'
  end.

(** [c in s] for a one-character [c], followed by [s.split(c, 1)]: the
    text before the first [c] and the text after it, or [None] when [c]
    is not in [s]. *)
Fixpoint split_once (c : ascii) (s : string) : option (string * string) :=
  match s with
  | EmptyString => None
  | String a s' =>
      if Ascii.eqb a c then Some (EmptyString, s')
      else match split_once c s' with
           | Some (l, r) => Some (String a l, r)
           | None => None
           end
  end.

(** [s.replace(old, new)] for a non-empty [old]: occurrences are replaced
    from the left and do not overlap.  [skip] counts the characters of an
    occurrence that remain to be dropped. *)
Fixpoint replace_from (old new : string) (skip : nat) (s : string) : string :=
  match s with
  | EmptyString => EmptyString
  | String c s' =>
      match skip with
      | S k => replace_from old new k s'
      | O =>
          if String.prefix old s
          then new ++ replace_from old new (String.length old - 1) s'
          else String c (replace_from old new 0 s')
      end
  end.

(** With an empty [old], Python puts [new] before every character and at
    the end. *)
Fixpoint intersperse (new : string) (s : string) : string :=
  match s with
  | EmptyString => new
  | String c s' => new ++ String c (intersperse new s')
  end.

Definition replace (old new s : string) : string :=
  match old with
  | EmptyString => intersperse new s
  | _ => replace_from old new 0 s
  end.

End Str.

(** ** Python dictionaries with string keys *)

Definition dict (V : Type) : Type := list (string * V).

Section Dict.
Context {V : Type}.

(** [d.get(k)] *)
Fixpoint dict_get (k : string) (d : dict V) : option V :=
  match d with
  | [] => None
  | (k', v) :: d' => if String.eqb k k' then Some v else dict_get k d'
  end.

(** [d.get(k, default)] *)
Definition dict_get_default (k : string) (default : V) (d : dict V) : V :=
  match dict_get k d with
  | Some v => v
  | None => default
  end.

(** [d[k]] *)
Definition dict_getitem (k : string) (d : dict V) : result V :=
  match dict_get k d with
  | Some v => Ok v
  | None => Raise (KeyError k)
  end.

(** [d[k] = v] *)
Fixpoint dict_set (k : string) (v : V) (d : dict V) : dict V :=
  match d with
  | [] => [(k, v)]
  | (k', v') :: d' =>
      if String.eqb k k' then (k', v) :: d' else (k', v') :: dict_set k v d'
  end.

(** [k in d] *)
Definition dict_mem (k : string) (d : dict V) : bool :=
  match dict_get k d with
  | Some _ => true
  | None => false
  end.

(** [list(d.keys())], [list(d.values())] *)
Definition dict_keys (d : dict V) : list string := map fst d.
Definition dict_values (d : dict V) : list V := map snd d.

(** [dict(pairs)] and the dict comprehension [{k: v for ...}]. *)
Definition dict_of_pairs (l : list (string * V)) : dict V :=
  fold_left (fun d kv => dict_set (fst kv) (snd kv) d) l [].

End Dict.

(** Python's [==] on two dicts does not look at the insertion order. *)
Definition dict_equiv {V : Type} (d1 d2 : dict V) : Prop :=
  forall k, dict_get k d1 = dict_get k d2.

(** ** config.py *)

Module Config.

(** [FIELD_MAP]: the labels of the site and the internal field names, in
    the order of the source.  The accented letters are the code points
    U+00FA, U+00E7, U+00E3 and U+00F5. *)
Definition FIELD_MAP : dict string :=
  [ ("Status", "Status");
    ("Autores", "Autores");
    ("Editora", "Editora");
    ("Construto", "Construto");
    ("P" ++ Str.chr 250 ++ "blico-alvo", "PublicoAlvo");
    ("Idade da amostra", "IdadeAmostra");
    ("Aplica" ++ Str.chr 231 ++ Str.chr 227 ++ "o", "Aplicacao");
    ("Corre" ++ Str.chr 231 ++ Str.chr 227 ++ "o", "Correcao");
    ("Data de aprova" ++ Str.chr 231 ++ Str.chr 227 ++ "o", "DataAprovacao");
    ("Prazo dos estudos de validade", "PrazoEstudos");
    ("Observa" ++ Str.chr 231 ++ Str.chr 245 ++ "es", "Observacoes") ].

Definition SATEPSI_URL : string := "https://satepsi.cfp.org.br/".

(** [DATA_DIR / name], relative to the project root. *)
Definition DATA_DIR (name : string) : string := "data/" ++ name.

Definition PREVIOUS_DATA_FILE : string := DATA_DIR "previous_data.json".

(** [get_timestamp_filename(prefix, extension)], given the text of
    [datetime.now().strftime(...)] at the call. *)
Definition get_timestamp_filename (timestamp prefix extension : string) : string :=
  DATA_DIR (prefix ++ "_" ++ timestamp ++ "." ++ extension).

End Config.

(** ** The document tree of BeautifulSoup

    Only what the scraper touches is modelled: text nodes and elements,
    an element's class list (bs4 keeps [class] as a list of names), its
    other attributes and its children. *)

Module Bs4.

Inductive node : Type :=
| NavigableString (text : string)
| Tag (name : string) (class_ : list string) (attrs : list (string * string))
      (contents : list node).

(** Python classes that [isinstance] is asked about. *)
Inductive pyclass : Type := ClsTag | ClsNavigableString.

Definition isinstance (n : node) (c : pyclass) : bool :=
  match n, c with
  | Tag _ _ _ _, ClsTag => true
  | NavigableString _, ClsNavigableString => true
  | _, _ => false
  end.

Definition contents (n : node) : list node :=
  match n with
  | NavigableString _ => []
  | Tag _ _ _ cs => cs
  end.

(** A node together with its [next_siblings]. *)
Definition located : Type := node * list node.

(** [n.descendants]: document order, [n] itself excluded. *)
Fixpoint descendants (n : node) : list located :=
  match n with
  | NavigableString _ => []
  | Tag _ _ _ cs =>
      (fix walk (l : list node) : list located :=
         match l with
         | [] => []
         | c :: l' => ((c, l') :: descendants c ++ walk l')%list
         end) cs
  end.

(** Filters of [find] and [find_all]. *)
Definition is_tag (n : node) : bool := isinstance n ClsTag.

Definition named (name : string) (n : node) : bool :=
  match n with
  | Tag nm _ _ _ => String.eqb nm name
  | NavigableString _ => false
  end.

(** [class_=c]: one of the element's classes is [c], or the whole
    attribute is. *)
Definition has_class (c : string) (n : node) : bool :=
  match n with
  | Tag _ cl _ _ => existsb (String.eqb c) cl || String.eqb (Str.join " " cl) c
  | NavigableString _ => false
  end.

(** [attrs={a: True}]: the attribute is present. *)
Definition has_attr (a : string) (n : node) : bool :=
  match n with
  | Tag _ _ at_ _ => dict_mem a at_
  | NavigableString _ => false
  end.

Definition find_all_located (p : node -> bool) (n : node) : list located :=
  List.filter (fun x => p (fst x)) (descendants n).

(** [n.find_all(...)], [n.find(...)] and [n.find(..., recursive=False)]. *)
Definition find_all (p : node -> bool) (n : node) : list node :=
  map fst (find_all_located p n).

Definition find (p : node -> bool) (n : node) : option node :=
  head (find_all p n).

Definition find_child (p : node -> bool) (n : node) : option node :=
  head (List.filter p (contents n)).

(** The text nodes below a node, in document order. *)
Fixpoint strings (n : node) : list string :=
  match n with
  | NavigableString s => [s]
  | Tag _ _ _ cs =>
      (fix walk (l : list node) : list string :=
         match l with
         | [] => []
         | c :: l' => (strings c ++ walk l')%list
         end) cs
  end.

Definition nonempty (s : string) : bool :=
  match s with
  | EmptyString => false
  | String _ _ => true
  end.

(** [n.get_text(sep, strip=True)]: every text node is stripped, the empty
    ones are dropped, the others are joined by [sep]. *)
Definition get_text (sep : string) (n : node) : string :=
  Str.join sep (List.filter nonempty (map Str.strip (strings n))).

(** [n.get_text()]: the text nodes as they are. *)
Definition text_content (n : node) : string := Str.join "" (strings n).

(** [n.string]: the text of the only child, through single-child
    elements; [None] otherwise. *)
Fixpoint string_of (n : node) : option string :=
  match n with
  | NavigableString s => Some s
  | Tag _ _ _ cs =>
      match cs with
      | [c] => string_of c
      | _ => None
      end
  end.

(** What [t.strip] is when [t] is an element: attribute access on a [Tag]
    is [t.find("strip")]. *)
Definition tag_getattr (attr : string) (t : node) : option node :=
  find (named attr) t.

End Bs4.

(** ** satepsi_scraper.py: the three extractors *)

Module Scraper.
Import Bs4 Config.

(** [range(start, stop, step)] for a positive [step]. *)
Definition py_range (start stop step : nat) : list nat :=
  map (fun k => start + k * step)%nat
      (seq 0 ((stop - start + step - 1) / step)%nat).

(** [FIELD_MAP.get(label)] followed by [if key:] / [if not key: continue]:
    an unknown label and an empty internal name are both falsy. *)
Definition mapped_key (label : string) : option string :=
  match dict_get label FIELD_MAP with
  | Some key => if nonempty key then Some key else None
  | None => None
  end.

(** [{v: "" for v in FIELD_MAP.values()}] *)
Definition blank_record {V : Type} (empty : V) : dict V :=
  dict_of_pairs (map (fun v => (v, empty)) (dict_values FIELD_MAP)).

(** *** parse_html *)

(** One round of [for row in item.find_all("div", class_="row")]: the key
    and the value that the row gives, or [None] where the loop goes on
    without touching the record. *)
Definition row_field (row : node) : option (string * string) :=
  let label := find (fun n => named "div" n && has_class "font-weight-bold" n) row in
  let value :=
    match find (fun n => named "div" n && has_class "col-md-8" n) row with
    | Some v => Some v
    | None => find (fun n => named "div" n && has_class "col-md-10" n) row
    end in
  match label, value with
  | Some label, Some value =>
      let label_text := Str.rstrip_chars ":" (get_text "" label) in
      let value_text := get_text " " value in
      match mapped_key label_text with
      | Some key => Some (key, value_text)
      | None => None
      end
  | _, _ => None
  end.

Definition panel_row (rec : dict string) (row : node) : dict string :=
  match row_field row with
  | Some (key, value_text) => dict_set key value_text rec
  | None => rec
  end.

(** The status badge of a header: [header.find("span", class_="badge")]
    and its text, or the empty string. *)
Definition badge_text (header : node) : string :=
  match find (fun n => named "span" n && has_class "badge" n) header with
  | Some status_badge => get_text "" status_badge
  | None => ""
  end.

(** The body of [for item in soup.find_all("div", class_="accordion-item")];
    [None] is the [continue] of an item without a header. *)
Definition parse_item (item : node) : option (dict string) :=
  match find_child (named "a") item with
  | None => None
  | Some header =>
      let title := get_text "" header in
      let status := badge_text header in
      let title := Str.strip (Str.replace status "" title) in
      let rec := blank_record "" in
      let rec := dict_set "Status" status rec in
      let rec := dict_set "Nome" title rec in
      Some (fold_left panel_row
              (find_all (fun n => named "div" n && has_class "row" n) item) rec)
  end.

Definition parse_html (soup : node) : list (dict string) :=
  omap parse_item
       (find_all (fun n => named "div" n && has_class "accordion-item" n) soup).

(** *** parse_table *)

(** A value stored by [parse_table]: a string, or the [ResultSet] that
    calling an element returns. *)
Inductive cell : Type :=
| Text (s : string)
| ResultSet (tags : list node).

(** [val] for one [<strong>] label: the text node right after it,
    stripped.  When the next sibling is an element, [nxt.strip] is
    [nxt.find("strip")]: calling [None] raises, calling an element is
    [find_all()]. *)
Definition value_after (next_siblings : list node) : result cell :=
  match head next_siblings with
  | None => Ok (Text "")
  | Some (NavigableString t) => Ok (Text (if nonempty t then Str.strip t else ""))
  | Some nxt =>
      match tag_getattr "strip" nxt with
      | None => Raise (TypeError "'NoneType' object is not callable")
      | Some callee => Ok (ResultSet (find_all is_tag callee))
      end
  end.

(** The key that a [<strong>] label stands for. *)
Definition strong_key (s : located) : option string :=
  mapped_key (Str.rstrip_chars ":" (get_text "" (fst s))).

(** The body of [for s in td.find_all("strong")]. *)
Definition detail_label (rec : dict cell) (s : located) : result (dict cell) :=
  match strong_key s with
  | None => Ok rec
  | Some key => val ← value_after (snd s); Ok (dict_set key val rec)
  end.

(** The body of [for i in range(1, len(rows), 2)]; [None] is the
    [continue] of a summary row with fewer than four cells. *)
Definition table_rows_at (rows : list node) (i : nat) : result (option (dict cell)) :=
  match rows !! i with
  | None => Raise IndexError
  | Some summary =>
      let detail := if (i + 1 <? length rows)%nat then rows !! (i + 1)%nat else None in
      match find_all (named "td") summary with
      | c0 :: c1 :: c2 :: c3 :: _ =>
          let rec := blank_record (Text "") in
          let rec := dict_set "Status" (Text (get_text "" c0)) rec in
          let rec := dict_set "Autores" (Text (get_text "" c1)) rec in
          let rec := dict_set "Editora" (Text (get_text "" c2)) rec in
          let rec := dict_set "Construto" (Text (get_text "" c3)) rec in
          match detail with
          | None => Ok (Some rec)
          | Some detail =>
              match find (fun n => named "td" n && has_attr "colspan" n) detail with
              | None => Ok (Some rec)
              | Some td =>
                  rec ← rfold detail_label rec (find_all_located (named "strong") td);
                  Ok (Some rec)
              end
          end
      | _ => Ok None
      end
  end.

Definition parse_table (table : node) : result (list (dict cell)) :=
  let rows := find_all (named "tr") table in
  recs ← rmap (table_rows_at rows) (py_range 1 (length rows) 2);
  Ok (omap id (recs : list (option (dict cell)))).

(** *** parse_links *)

(** The loop of [parse_links] names the two node classes as
    [BeautifulSoup.Tag] and [BeautifulSoup.NavigableString].  A
    [namespace] says what such an attribute access gives. *)
Definition namespace : Type := string -> result pyclass.

(** [BeautifulSoup] is the class imported by
    [from bs4 import BeautifulSoup].  Its attributes are those of
    [bs4.element.Tag] and its own; none of them is called [Tag] or
    [NavigableString] (these are names of the module [bs4.element]), so
    the access raises. *)
Definition BeautifulSoup_getattr : namespace :=
  fun attr =>
    Raise (AttributeError
             ("type object 'BeautifulSoup' has no attribute '" ++ attr ++ "'")).

(** The namespace of the module [bs4.element], where the two names are
    bound to the classes. *)
Definition element_getattr : namespace :=
  fun attr =>
    if String.eqb attr "Tag" then Ok ClsTag
    else if String.eqb attr "NavigableString" then Ok ClsNavigableString
    else Raise (AttributeError
                  ("module 'bs4.element' has no attribute '" ++ attr ++ "'")).

(** The selector of [soup.find_all("a", string=lambda t: ...)]. *)
Definition plus_anchor (n : node) : bool :=
  named "a" n &&
  match string_of n with
  | Some t => nonempty t && Str.startswith "+" (Str.strip t)
  | None => false
  end.

(** The text of one sibling: lines 192-196. *)
Definition sibling_text (ns : namespace) (sib : node) : result string :=
  cls ← ns "NavigableString";
  if isinstance sib cls
  then Ok (match sib with NavigableString t => Str.strip t | _ => "" end)
  else
    cls ← ns "Tag";
    if isinstance sib cls then Ok (get_text " " sib) else Ok "".

(** Lines 192-204 for one sibling: the key and the value it gives, or
    [None] where the loop goes on without touching the record. *)
Definition sibling_field (ns : namespace) (sib : node)
  : result (option (string * string)) :=
  text ← sibling_text ns sib;
  match Str.split_once ":" text with
  | None => Ok None
  | Some (l, r) =>
      match mapped_key (Str.strip l) with
      | Some key => Ok (Some (key, Str.strip r))
      | None => Ok None
      end
  end.

(** [for sib in a.next_siblings], with its [break]. *)
Fixpoint scan_siblings (ns : namespace) (rec : dict string) (sibs : list node)
  : result (dict string) :=
  match sibs with
  | [] => Ok rec
  | sib :: rest =>
      cls ← ns "Tag";
      if isinstance sib cls && named "a" sib && Str.startswith "+" (get_text "" sib)
      then Ok rec
      else
        field ← sibling_field ns sib;
        match field with
        | Some (key, val) => scan_siblings ns (dict_set key val rec) rest
        | None => scan_siblings ns rec rest
        end
  end.

(** The body of [for a in soup.find_all("a", string=...)]. *)
Definition parse_anchor (ns : namespace) (a : located) : result (dict string) :=
  let rec := blank_record "" in
  let rec := dict_set "Construto" (Str.strip (Str.tail (get_text "" (fst a)))) rec in
  scan_siblings ns rec (snd a).

Definition parse_links_in (ns : namespace) (soup : node) : result (list (dict string)) :=
  rmap (parse_anchor ns) (find_all_located plus_anchor soup).

(** [parse_links] as the module is written. *)
Definition parse_links (soup : node) : result (list (dict string)) :=
  parse_links_in BeautifulSoup_getattr soup.

End Scraper.

(** ** The json module on snapshot files

    [json.dump(data, f, ensure_ascii=False, indent=2)] is modelled on what
    [save_json] is given, a list of dicts from strings to strings.
    [json.load] is modelled on the same format: a JSON array of objects
    whose values are strings, with any white space between the tokens.
    A text outside this format (another JSON value, a character above
    U+00FF, a text that is not JSON) is not decoded here: [loads] answers
    [None] for it, and what the program does with such a file is asked of
    the outside world (see [load_json]). *)

Module Json.

Definition quote : ascii := "034"%char.
Definition backslash : ascii := "092"%char.
Definition newline : ascii := "010"%char.

Definition hex_digit (n : nat) : ascii :=
  match String.get n "0123456789abcdef" with
  | Some c => c
  | None => "0"%char
  end.

(** [ESCAPE_DCT]: what [encode_basestring] writes for one character. *)
Definition escape_char (c : ascii) : string :=
  let n := nat_of_ascii c in
  if Ascii.eqb c quote then String backslash (String quote "")
  else if Ascii.eqb c backslash then String backslash (String backslash "")
  else if Ascii.eqb c "008" then String backslash "b"
  else if Ascii.eqb c "012" then String backslash "f"
  else if Ascii.eqb c "010" then String backslash "n"
  else if Ascii.eqb c "013" then String backslash "r"
  else if Ascii.eqb c "009" then String backslash "t"
  else if (n <? 32)%nat
       then String backslash
              ("u00" ++ String (hex_digit (n / 16)) (String (hex_digit (n mod 16)) ""))
  else String c "".

Fixpoint escape (s : string) : string :=
  match s with
  | EmptyString => EmptyString
  | String c s' => escape_char c ++ escape s'
  end.

Definition encode_basestring (s : string) : string :=
  String quote (escape s ++ String quote "").

Fixpoint spaces (n : nat) : string :=
  match n with
  | O => ""
  | S n' => String " " (spaces n')
  end.

(** ['\n' + _indent * _current_indent_level] with [indent=2]. *)
Definition newline_indent (level : nat) : string :=
  String newline (spaces (2 * level)).

Definition encode_item (kv : string * string) : string :=
  encode_basestring (fst kv) ++ ": " ++ encode_basestring (snd kv).

(** [_iterencode_dict] and [_iterencode_list]. *)
Definition encode_dict (level : nat) (d : dict string) : string :=
  match d with
  | [] => "{}"
  | _ =>
      "{" ++ newline_indent (S level)
      ++ Str.join ("," ++ newline_indent (S level)) (map encode_item d)
      ++ newline_indent level ++ "}"
  end.

Definition encode_list (level : nat) (l : list (dict string)) : string :=
  match l with
  | [] => "[]"
  | _ =>
      "[" ++ newline_indent (S level)
      ++ Str.join ("," ++ newline_indent (S level)) (map (encode_dict (S level)) l)
      ++ newline_indent level ++ "]"
  end.

Definition dumps (data : list (dict string)) : string := encode_list 0 data.

(** *** Decoding: the scanner *)

Inductive token : Type :=
| LBracket | RBracket | LBrace | RBrace | Colon | Comma
| StringLit (s : string).

Definition punctuation (c : ascii) : option token :=
  if Ascii.eqb c "[" then Some LBracket
  else if Ascii.eqb c "]" then Some RBracket
  else if Ascii.eqb c "{" then Some LBrace
  else if Ascii.eqb c "}" then Some RBrace
  else if Ascii.eqb c ":" then Some Colon
  else if Ascii.eqb c "," then Some Comma
  else None.

(** [WHITESPACE]: space, tab, line feed, carriage return. *)
Definition is_whitespace (c : ascii) : bool :=
  Ascii.eqb c " " || Ascii.eqb c "009" || Ascii.eqb c "010" || Ascii.eqb c "013".

(** [BACKSLASH]: the one-letter escapes. *)
Definition unescape (c : ascii) : option ascii :=
  if Ascii.eqb c quote then Some quote
  else if Ascii.eqb c backslash then Some backslash
  else if Ascii.eqb c "/" then Some "/"%char
  else if Ascii.eqb c "b" then Some "008"%char
  else if Ascii.eqb c "f" then Some "012"%char
  else if Ascii.eqb c "n" then Some "010"%char
  else if Ascii.eqb c "r" then Some "013"%char
  else if Ascii.eqb c "t" then Some "009"%char
  else None.

Definition hex_value (c : ascii) : option nat :=
  let n := nat_of_ascii c in
  if ((48 <=? n) && (n <=? 57))%nat then Some (n - 48)%nat
  else if ((97 <=? n) && (n <=? 102))%nat then Some (n - 87)%nat
  else if ((65 <=? n) && (n <=? 70))%nat then Some (n - 55)%nat
  else None.

(** Where the scanner is: between tokens, inside a string literal (with the
    characters read so far), after a backslash, or inside the four hex
    digits of a [\u] escape. *)
Inductive scanner_state : Type :=
| Between
| InString (chunks : string)
| AfterBackslash (chunks : string)
| InUnicode (chunks : string) (digits : nat) (value : nat).

Fixpoint scan (st : scanner_state) (s : string) : option (list token) :=
  match s with
  | EmptyString =>
      match st with
      | Between => Some []
      | _ => None
      end
  | String c s' =>
      match st with
      | Between =>
          if is_whitespace c then scan Between s'
          else if Ascii.eqb c quote then scan (InString "") s'
          else match punctuation c with
               | Some t => cons t <$> scan Between s'
               | None => None
               end
      | InString chunks =>
          if Ascii.eqb c quote then cons (StringLit chunks) <$> scan Between s'
          else if Ascii.eqb c backslash then scan (AfterBackslash chunks) s'
          else if (nat_of_ascii c <? 32)%nat then None
          else scan (InString (chunks ++ String c "")) s'
      | AfterBackslash chunks =>
          if Ascii.eqb c "u" then scan (InUnicode chunks 4 0) s'
          else match unescape c with
               | Some a => scan (InString (chunks ++ String a "")) s'
               | None => None
               end
      | InUnicode chunks digits value =>
          match hex_value c with
          | None => None
          | Some h =>
              let value := (16 * value + h)%nat in
              match digits with
              | O => None
              | S O =>
                  if (value <? 256)%nat
                  then scan (InString (chunks ++ Str.chr value)) s'
                  else None
              | S d => scan (InUnicode chunks d value) s'
              end
          end
      end
  end.

(** *** Decoding: arrays of objects *)

Inductive parser_state : Type :=
| Start
| ArrayOpen
| NextObject
| ObjectOpen
| NextKey
| AfterKey (key : string)
| BeforeValue (key : string)
| AfterValue
| AfterObject
| Finished.

(** [pairs] is the object being read; a key that comes twice keeps its
    last value, as [dict(pairs)] does. *)
Fixpoint parse (st : parser_state) (pairs : dict string) (toks : list token)
  : option (list (dict string)) :=
  match toks with
  | [] =>
      match st with
      | Finished => Some []
      | _ => None
      end
  | t :: toks' =>
      match st, t with
      | Start, LBracket => parse ArrayOpen [] toks'
      | ArrayOpen, RBracket => parse Finished [] toks'
      | ArrayOpen, LBrace => parse ObjectOpen [] toks'
      | NextObject, LBrace => parse ObjectOpen [] toks'
      | ObjectOpen, RBrace => cons pairs <$> parse AfterObject [] toks'
      | AfterValue, RBrace => cons pairs <$> parse AfterObject [] toks'
      | ObjectOpen, StringLit k => parse (AfterKey k) pairs toks'
      | NextKey, StringLit k => parse (AfterKey k) pairs toks'
      | AfterKey k, Colon => parse (BeforeValue k) pairs toks'
      | BeforeValue k, StringLit v => parse AfterValue (dict_set k v pairs) toks'
      | AfterValue, Comma => parse NextKey pairs toks'
      | AfterObject, Comma => parse NextObject [] toks'
      | AfterObject, RBracket => parse Finished [] toks'
      | _, _ => None
      end
  end.

(** [json.loads(s)] for a text in the snapshot format: the records it
    returns.  [None]: the text is outside the format. *)
Definition loads (s : string) : option (list (dict string)) :=
  scan Between s ≫= parse Start [].

End Json.

(** ** Text files: the utf-8 codec on code points below 256 *)

Module Utf8.

Definition byte_of_nat (n : nat) : byte := byte_of_ascii (ascii_of_nat n).
Definition nat_of_byte (b : byte) : nat := nat_of_ascii (ascii_of_byte b).

Definition encode_char (c : ascii) : list byte :=
  let n := nat_of_ascii c in
  if (n <? 128)%nat then [byte_of_nat n]
  else [byte_of_nat (192 + n / 64); byte_of_nat (128 + n mod 64)].

Fixpoint encode (s : string) : list byte :=
  match s with
  | EmptyString => []
  | String c s' => (encode_char c ++ encode s')%list
  end.

(** The text of which the bytes are the utf-8 form.  Lead bytes 0xC2 and
    0xC3 start the two-byte forms of U+0080..U+00FF; a longer form is a
    character that [string] cannot hold.  [None] says that the bytes are
    not the utf-8 form of a text of the embedding; it does not say that
    Python's codec refuses them. *)
Fixpoint decode (bs : list byte) : option string :=
  match bs with
  | [] => Some EmptyString
  | b :: bs' =>
      let n := nat_of_byte b in
      if (n <? 128)%nat then String (ascii_of_nat n) <$> decode bs'
      else if ((194 <=? n) && (n <=? 195))%nat then
        match bs' with
        | b2 :: bs'' =>
            let m := nat_of_byte b2 in
            if ((128 <=? m) && (m <=? 191))%nat
            then String (ascii_of_nat ((n - 192) * 64 + (m - 128))) <$> decode bs''
            else None
        | [] => None
        end
      else None
  end.

End Utf8.

(** ** The run of the program: files, output and the outside world *)

(** What a file holds: text written through [open(..., encoding="utf-8")],
    the sheet written by [DataFrame.to_excel], or the blocks of a Word
    document. *)
Inductive block : Type :=
| Heading (level : nat) (text : string)
| Paragraph (text : string).

Inductive file : Type :=
| TextFile (bytes : list byte)
| Workbook (columns : list string) (rows : list (list (option string)))
| WordDocument (blocks : list block).

(** A status transition: (key, old status, new status). *)
Definition transition : Type := string * string * string.

(** What a run leaves behind besides files. *)
Inductive event : Type :=
| Printed (line : string)
| SendEmailCalled (changes : list transition)
| MessageSent (body : string).

Record state : Type := mkState {
  files : gmap string file;
  trace : list event
}.

(** What [json.load] returns: the records of a snapshot, or a value that
    the embedding does not hold.  The latter is named by the file it was
    read from. *)
Inductive json_value : Type :=
| Records (data : list (dict string))
| Foreign (source : file).

(** Everything a run reads from outside.
    - [page]: what [requests.get] followed by
      [BeautifulSoup(resp.text, "html5lib")] gives, a tree or the exception;
    - [now_json], [now_excel], [now_word]: the clock, formatted, at the three
      calls of [get_timestamp_filename]; [today]: the date of the report;
    - [write_error]: the exception, if any, with which the write to a path
      fails in this run, whatever its cause: the path cannot be opened,
      the disk is full, the library refuses the content (openpyxl and
      python-docx refuse some control characters);
    - [write_leaves]: what a write that fails leaves at the path.  [None]:
      the path was not opened and the file, if there was one, is as
      before.  Otherwise the path was opened, which empties the file, and
      it holds what had been written when the error came;
    - [email_configured]: whether [EMAIL_CONFIG] is a non-empty dict;
    - [smtp_error]: the exception, if any, of the SMTP dialogue;
    - [smtp_handed_over]: when the dialogue fails, whether [send_message]
      had returned before, as it has when it is [quit] that fails;
    - [foreign_load], [foreign_diff], [foreign_update]: what the program
      does with a file that the embedding does not decode (see
      [Json.loads] and [Utf8.decode]).  [foreign_load]: the exception, if
      any, that [json.load] raises for it; [foreign_diff]: what
      [diff_status] gives for the value loaded from it and the new
      records, the changes being written as the f-strings of the program
      print them; [foreign_update]: for [update_email_to], the exception
      of reading it or the bytes written back. *)
Record world : Type := mkWorld {
  page : result Bs4.node;
  now_json : string;
  now_excel : string;
  now_word : string;
  today : string;
  write_error : string -> option exn;
  write_leaves : string -> option file;
  email_configured : bool;
  smtp_error : option exn;
  smtp_handed_over : bool;
  foreign_load : file -> option exn;
  foreign_diff : file -> list (dict string) -> result (list transition);
  foreign_update : file -> string -> result (list byte)
}.

(** A statement: it changes the state and returns or raises. *)
Definition io (A : Type) : Type := state -> state * result A.

#[global] Instance io_ret : MRet io := fun _ a st => (st, Ok a).

#[global] Instance io_bind : MBind io := fun _ _ k m st =>
  match m st with
  | (st', Ok a) => k a st'
  | (st', Raise e) => (st', Raise e)
  end.

Definition raise {A : Type} (e : exn) : io A := fun st => (st, Raise e).

Definition lift {A : Type} (r : result A) : io A := fun st => (st, r).

Definition emit (e : event) : io unit :=
  fun st => (mkState (files st) (trace st ++ [e])%list, Ok tt).

Definition print (line : string) : io unit := emit (Printed line).

(** The files after a write to [path] that failed. *)
Definition files_after_failure (w : world) (path : string) (fs : gmap string file)
  : gmap string file :=
  match write_leaves w path with
  | Some partial => <[path := partial]> fs
  | None => fs
  end.

(** [with open(path, "w") as f: ...], [to_excel(path)], [doc.save(path)]. *)
Definition write_file (w : world) (path : string) (f : file) : io unit :=
  fun st =>
    match write_error w path with
    | Some e => (mkState (files_after_failure w path (files st)) (trace st), Raise e)
    | None => (mkState (<[path := f]> (files st)) (trace st), Ok tt)
    end.

(** [path.exists()] *)
Definition path_exists (path : string) : io bool :=
  fun st => (st, Ok (bool_decide (is_Some (files st !! path)))).

(** [for x in l: body] *)
Fixpoint for_each {A : Type} (l : list A) (body : A -> io unit) : io unit :=
  match l with
  | [] => mret tt
  | x :: l' => body x;; for_each l' body
  end.

(** [str(e)] *)
Definition exn_str (e : exn) : string :=
  match e with
  | AttributeError msg | TypeError msg | JSONDecodeError msg
  | OSError msg | RequestException msg | OtherException _ msg => msg
  | KeyError key => "'" ++ key ++ "'"
  | IndexError => "list index out of range"
  | UnicodeDecodeError => "'utf-8' codec can't decode bytes"
  | FileNotFoundError path => "[Errno 2] No such file or directory: '" ++ path ++ "'"
  end.

Module Pipeline.
Import Bs4 Config Scraper.

(** *** Extraction from the site *)

Definition fetch_from_url (w : world) : result (list (dict string)) :=
  soup ← page w; Ok (parse_html soup).

(** *** Writers *)

Definition save_json (w : world) (data : list (dict string)) (path : string) : io unit :=
  write_file w path (TextFile (Utf8.encode (Json.dumps data))).

(** The records of a file that holds a snapshot of the embedding. *)
Definition snapshot_of (f : file) : option (list (dict string)) :=
  match f with
  | TextFile bytes => Utf8.decode bytes ≫= Json.loads
  | _ => None
  end.

Definition load_json (w : world) (path : string) : io json_value :=
  fun st =>
    match files st !! path with
    | None => (st, Raise (FileNotFoundError path))
    | Some f =>
        match snapshot_of f with
        | Some data => (st, Ok (Records data))
        | None =>
            match foreign_load w f with
            | Some e => (st, Raise e)
            | None => (st, Ok (Foreign f))
            end
        end
    end.

(** A cell of the sheet: empty, or the text written to it.  The writer
    leaves the cell of an empty string and of a missing value empty, and
    keeps a text that starts with [=] as a formula. *)
Definition sheet_cell (v : option string) : option string :=
  match v with
  | Some s => if nonempty s then Some s else None
  | None => None
  end.

Definition save_excel (w : world) (data : list (dict string)) (path : string) : io unit :=
  let cols :=
    "Nome" :: List.filter (fun c => negb (String.eqb c "Nome")) (dict_values FIELD_MAP) in
  write_file w path
    (Workbook cols (map (fun inst => map (fun c => sheet_cell (dict_get c inst)) cols) data)).

Definition word_section (inst : dict string) : result (list block) :=
  title ← dict_getitem "Construto" inst;
  Ok (Heading 2 title
      :: map (fun kv => Paragraph (fst kv ++ ": " ++ snd kv))
             (List.filter (fun kv => nonempty (snd kv)) inst)).

Definition generate_word (w : world) (data : list (dict string)) (path : string) : io unit :=
  sections ← lift (rmap word_section data);
  write_file w path
    (WordDocument (Heading 1 ("Instrumentos SATEPSI (" ++ today w ++ ")") :: concat sections)).

(** *** Monitoring *)

Definition status_of (i : dict string) : string := dict_get_default "Status" "" i.

(** [{i["Construto"]: i.get("Status", "") for i in old}] *)
Definition old_map_of (old : list (dict string)) : result (gmap string string) :=
  rfold (fun (m : gmap string string) i =>
           k ← dict_getitem "Construto" i; Ok (<[k := status_of i]> m))
        ∅ old.

(** One round of the list comprehension of [diff_status]: the condition,
    then the element. *)
Definition diff_one (old_map : gmap string string) (i : dict string)
  : result (option transition) :=
  k ← dict_getitem "Construto" i;
  match old_map !! k with
  | None => Ok None
  | Some old_status =>
      if String.eqb old_status (status_of i) then Ok None
      else Ok (Some (k, old_status, status_of i))
  end.

Definition diff_status (old new : list (dict string)) : result (list transition) :=
  old_map ← old_map_of old;
  found ← rmap (diff_one old_map) new;
  Ok (omap id (found : list (option transition))).

(** *** Notification *)

Definition nl : string := String Json.newline "".

Definition change_line (c : transition) : string :=
  let '(name, old, new) := c in
  "- " ++ name ++ ": " ++ old ++ " -> " ++ new ++ nl.

(** The body of the message; the accented letters are written by code
    point. *)
Definition email_body (changes : list transition) : string :=
  "Ol" ++ Str.chr 225 ++ " Luan," ++ nl ++ nl
  ++ match changes with
     | [] => "Nenhuma altera" ++ Str.chr 231 ++ Str.chr 227 ++ "o foi detectada." ++ nl
     | _ => "Foram detectadas as seguintes altera" ++ Str.chr 231 ++ Str.chr 245
            ++ "es:" ++ nl ++ nl ++ String.concat "" (map change_line changes)
     end
  ++ nl ++ "Atenciosamente," ++ nl ++ "Sistema de Monitoramento Satepsi".

Definition send_email_body (w : world) (changes : list transition) : io unit :=
  if negb (email_configured w)
  then print ("[AVISO] Configura" ++ Str.chr 231 ++ Str.chr 245
              ++ "es de e-mail faltando: SMTP_HOST, SMTP_USER, SMTP_PASS, EMAIL_FROM, EMAIL_TO")
  else
    match smtp_error w with
    | Some e =>
        (if smtp_handed_over w then emit (MessageSent (email_body changes)) else mret tt);;
        print ("[ERRO] Erro ao enviar e-mail: " ++ exn_str e)
    | None =>
        emit (MessageSent (email_body changes));;
        print "[SUCESSO] E-mail enviado com sucesso!"
    end.

(** [send_email(changes)]; the call itself is recorded in the trace. *)
Definition send_email (w : world) (changes : list transition) : io unit :=
  emit (SendEmailCalled changes);; send_email_body w changes.

(** *** main *)

Definition log_fetch_error (e : exn) : string :=
  "Erro ao extrair dados do site: " ++ exn_str e.

Definition log_no_instruments : string := "[AVISO] Nenhum instrumento encontrado.".

(** [diff_status(old_data, instruments)] on what [load_json] returned. *)
Definition diff_loaded (w : world) (old_data : json_value) (new : list (dict string))
  : result (list transition) :=
  match old_data with
  | Records old => diff_status old new
  | Foreign source => foreign_diff w source new
  end.

(** [if changes: print(...)] and the loop that prints them. *)
Definition report_changes (changes : list transition) : io unit :=
  match changes with
  | [] => mret tt
  | _ =>
      print (nl ++ "Altera" ++ Str.chr 231 ++ Str.chr 245 ++ "es detectadas:");;
      for_each changes (fun c =>
        let '(name, old, new) := c in
        print ("- " ++ name ++ ": " ++ old ++ " -> " ++ new))
  end.

Definition compare_and_notify (w : world) (instruments : list (dict string)) : io unit :=
  previous ← path_exists PREVIOUS_DATA_FILE;
  if (previous : bool) then
    old_data ← load_json w PREVIOUS_DATA_FILE;
    changes ← lift (diff_loaded w old_data instruments);
    report_changes changes;;
    send_email w changes
  else send_email w [].

Definition persist_and_compare (w : world) (instruments : list (dict string)) : io unit :=
  print ("[SUCESSO] " ++ pretty (length instruments) ++ " instrumentos extra"
         ++ Str.chr 237 ++ "dos com sucesso.");;
  let json_path := get_timestamp_filename (now_json w) "satepsi_data" "json" in
  save_json w instruments json_path;;
  print ("[SUCESSO] Dados salvos em JSON: " ++ json_path);;
  let excel_path := get_timestamp_filename (now_excel w) "satepsi_data" "xlsx" in
  save_excel w instruments excel_path;;
  print ("[SUCESSO] Dados salvos em Excel: " ++ excel_path);;
  let word_path := get_timestamp_filename (now_word w) "satepsi_report" "docx" in
  generate_word w instruments word_path;;
  print ("[SUCESSO] Relat" ++ Str.chr 243 ++ "rio gerado em Word: " ++ word_path);;
  compare_and_notify w instruments;;
  save_json w instruments PREVIOUS_DATA_FILE;;
  print ("[SUCESSO] Hist" ++ Str.chr 243 ++ "rico atualizado: " ++ PREVIOUS_DATA_FILE).

Definition main (w : world) : io unit :=
  match fetch_from_url w with
  | Raise e => print (log_fetch_error e)
  | Ok instruments =>
      match instruments with
      | [] => print log_no_instruments
      | _ => persist_and_compare w instruments
      end
  end.

End Pipeline.


(** ** config.py: the mail settings *)

Module EmailSettings.

(** A value of the dict [config]: what [os.getenv] gives, or the port as
    an integer. *)
Inductive setting : Type :=
| Getenv (v : option string)
| Port (n : Z).

(** [if not v] is false for these. *)
Definition truthy (s : setting) : bool :=
  match s with
  | Getenv (Some v) => Bs4.nonempty v
  | Getenv None => false
  | Port n => negb (n =? 0)%Z
  end.

Definition digit_value (c : ascii) : option Z :=
  let n := nat_of_ascii c in
  if ((48 <=? n) && (n <=? 57))%nat then Some (Z.of_nat (n - 48)) else None.

(** The digits of an integer literal: an underscore may stand between two
    digits and nowhere else. *)
Fixpoint digits_value (acc : Z) (after_digit : bool) (s : string) : option Z :=
  match s with
  | EmptyString => if after_digit then Some acc else None
  | String c s' =>
      match digit_value c with
      | Some d => digits_value (10 * acc + d) true s'
      | None =>
          if Ascii.eqb c "_" && after_digit then digits_value acc false s' else None
      end
  end.

(** The digits of the literal, underscores apart. *)
Fixpoint digit_count (s : string) : nat :=
  match s with
  | EmptyString => O
  | String c s' =>
      match digit_value c with
      | Some _ => S (digit_count s')
      | None => digit_count s'
      end
  end.

(** The white space that [int] skips at the two ends of a string: the
    space characters of C and, of the others below U+0100, those that it
    turns into a space first, U+0085 and U+00A0.  The separators U+001C to
    U+001F, which [str.strip] removes, are not among them. *)
Definition int_space (c : ascii) : bool :=
  let n := nat_of_ascii c in
  (((9 <=? n) && (n <=? 13)) || (n =? 32) || (n =? 133) || (n =? 160))%nat.

(** The limit on the digits of a literal: [max_str_digits] is
    [sys.get_int_max_str_digits()], and [0] where there is no limit, as in
    an interpreter that does not know it.  Literals of 640 digits or
    fewer are never refused. *)
Definition too_many_digits (max_str_digits : nat) (digits : nat) : bool :=
  ((640 <? digits) && (0 <? max_str_digits) && (max_str_digits <? digits))%nat.

(** [int(s)] on a string: white space around, an optional sign, digits.
    [None] is the [ValueError] of an invalid literal or of a literal with
    too many digits. *)
Definition py_int (max_str_digits : nat) (s : string) : option Z :=
  let literal := Str.lstrip_by int_space (Str.rstrip_by int_space s) in
  if too_many_digits max_str_digits (digit_count literal) then None
  else
    match literal with
    | String "+" r => digits_value 0 false r
    | String "-" r => Z.opp <$> digits_value 0 false r
    | t => digits_value 0 false t
    end.

(** How [load_email_config] ends: with the dict, with the [ValueError] that
    it raises for the settings that are missing, or with the [ValueError]
    that [int] raises for the port. *)
Inductive outcome : Type :=
| Returned (config : dict setting)
| MissingSettings (message : string)
| InvalidPort (literal : string).

(** [os.getenv(key, default)] *)
Definition getenv_default (env : gmap string string) (key default : string) : string :=
  match env !! key with
  | Some v => v
  | None => default
  end.

(** [load_email_config()], given the limit of the interpreter on the
    digits of an integer literal and the environment after [load_dotenv]. *)
Definition load_email_config (max_str_digits : nat) (env : gmap string string)
  : outcome :=
  let host := Getenv (env !! "SMTP_HOST") in
  match py_int max_str_digits (getenv_default env "SMTP_PORT" "587") with
  | None => InvalidPort (getenv_default env "SMTP_PORT" "587")
  | Some port =>
      let config :=
        [ ("SMTP_HOST", host);
          ("SMTP_PORT", Port port);
          ("SMTP_USER", Getenv (env !! "SMTP_USER"));
          ("SMTP_PASS", Getenv (env !! "SMTP_PASS"));
          ("EMAIL_FROM", Getenv (env !! "EMAIL_FROM"));
          ("EMAIL_TO", Getenv (env !! "EMAIL_TO")) ] in
      let missing := map fst (List.filter (fun kv => negb (truthy (snd kv))) config) in
      match missing with
      | [] => Returned config
      | _ =>
          MissingSettings
            ("Configura" ++ Str.chr 231 ++ Str.chr 245 ++ "es de e-mail faltando: "
             ++ Str.join ", " missing)
      end
  end.

(** The module-level [try: EMAIL_CONFIG = load_email_config()
    except ValueError: EMAIL_CONFIG = {}]. *)
Definition EMAIL_CONFIG (max_str_digits : nat) (env : gmap string string)
  : dict setting :=
  match load_email_config max_str_digits env with
  | Returned config => config
  | MissingSettings _ | InvalidPort _ => []
  end.

End EmailSettings.

(** ** app_streamlit.py: the functions of the dashboard

    Files are read and written as on a POSIX system.  What the functions
    show in the page ([st.error], [st.warning], [st.success]) is returned
    beside their result.  As everywhere a character is a code point below
    256: a settings file or an address with other characters is outside
    the embedding. *)

Module Dashboard.

(** What a function shows in the page. *)
Inductive notice : Type :=
| StError (text : string)
| StWarning (text : string)
| StSuccess (text : string).

(** Reading a text file with the default [newline=None]: a carriage
    return, alone or before a line feed, is read as a line feed. *)
Fixpoint universal_newlines (s : string) : string :=
  match s with
  | EmptyString => EmptyString
  | String c s' =>
      if Ascii.eqb c "013"
      then match s' with
           | String c' s'' =>
               if Ascii.eqb c' "010" then String "010" (universal_newlines s'')
               else String "010" (universal_newlines s')
           | EmptyString => String "010" EmptyString
           end
      else String c (universal_newlines s')
  end.

(** [for line in f]: each line with its line feed; the last one may have
    none.  [current] holds the characters of the line being read. *)
Fixpoint lines_from (current : string) (s : string) : list string :=
  match s with
  | EmptyString =>
      match current with
      | EmptyString => []
      | _ => [current]
      end
  | String c s' =>
      if Ascii.eqb c "010"
      then (current ++ String c "") :: lines_from "" s'
      else lines_from (current ++ String c "") s'
  end.

Definition file_lines (text : string) : list string :=
  lines_from "" (universal_newlines text).

(** [line.strip().startswith("EMAIL_TO=")] *)
Definition is_email_to (line : string) : bool :=
  Str.startswith "EMAIL_TO=" (Str.strip line).

(** [f"EMAIL_TO={new_email}\n"] *)
Definition email_to_line (new_email : string) : string :=
  "EMAIL_TO=" ++ new_email ++ String "010" "".

(** The loop over the lines and the [if not found] after it. *)
Definition update_lines (new_email : string) (lines : list string) : list string :=
  let replaced :=
    map (fun line => if is_email_to line then email_to_line new_email else line) lines in
  if existsb is_email_to lines then replaced
  else (replaced ++ [email_to_line new_email])%list.

(** The text of a file that holds a text of the embedding in utf-8. *)
Definition text_of (f : file) : option string :=
  match f with
  | TextFile bytes => Utf8.decode bytes
  | _ => None
  end.

Definition not_found (env_path : string) : notice :=
  StError ("Arquivo " ++ env_path ++ " n" ++ Str.chr 227 ++ "o encontrado!").

(** [update_email_to(new_email, env_path)]: the messages shown and the
    value returned.  For a file that is not a text of the embedding the
    outside world says what reading it raises or what is written back. *)
Definition update_email_to (w : world) (new_email env_path : string)
  : io (list notice * bool) :=
  fun st =>
    match files st !! env_path with
    | None => (st, Ok ([not_found env_path], false))
    | Some f =>
        let written :=
          match text_of f with
          | Some text =>
              Ok (Utf8.encode (String.concat "" (update_lines new_email (file_lines text))))
          | None => foreign_update w f new_email
          end in
        match written with
        | Raise e => (st, Raise e)
        | Ok bytes =>
            match write_file w env_path (TextFile bytes) st with
            | (st', Ok _) => (st', Ok ([], true))
            | (st', Raise e) => (st', Raise e)
            end
        end
    end.

(** ["@" in s] *)
Fixpoint has_at (s : string) : bool :=
  match s with
  | EmptyString => false
  | String c s' => Ascii.eqb c "@" || has_at s'
  end.

(** The messages of the form. *)
Definition subscribed (user_email : string) : notice :=
  StSuccess ("E-mail " ++ user_email ++ " cadastrado com sucesso! Voc" ++ Str.chr 234
             ++ " receber" ++ Str.chr 225 ++ " as pr" ++ Str.chr 243
             ++ "ximas atualiza" ++ Str.chr 231 ++ Str.chr 245 ++ "es.").

Definition not_updated : notice := StError "Erro ao atualizar o arquivo .env!".

Definition invalid_address : notice :=
  StWarning ("Digite um e-mail v" ++ Str.chr 225 ++ "lido.").

(** The body of [with st.form("form_email")], given the text typed and
    whether the button was pressed: what the page shows. *)
Definition form_email (w : world) (user_email : string) (submitted : bool)
  : io (list notice) :=
  if submitted then
    if Bs4.nonempty user_email && has_at user_email then
      r ← update_email_to w user_email ".env";
      let '(shown, ok) := r in
      if (ok : bool) then mret (shown ++ [subscribed user_email])%list
      else mret (shown ++ [not_updated])%list
    else mret [invalid_address]
  else mret [].

(** [s.endswith(suffix)] *)
Fixpoint endswith (suffix s : string) : bool :=
  String.eqb s suffix
  || match s with
     | EmptyString => false
     | String _ s' => endswith suffix s'
     end.

(** [s] without the prefix [p], when it starts with it. *)
Fixpoint without_prefix (p s : string) : option string :=
  match p with
  | EmptyString => Some s
  | String a p' =>
      match s with
      | String b s' => if Ascii.eqb a b then without_prefix p' s' else None
      | EmptyString => None
      end
  end.

(** A file name against the pattern [satepsi_data_*.xlsx] of the glob. *)
Definition glob_match (name : string) : bool :=
  match without_prefix "satepsi_data_" name with
  | Some rest => endswith ".xlsx" rest
  | None => false
  end.

(** [max(files, key=...)]: the first of the files with the greatest
    modification time. *)
Fixpoint max_by_mtime (best : string * Z) (l : list (string * Z)) : string * Z :=
  match l with
  | [] => best
  | f :: l' => max_by_mtime (if (snd best <? snd f)%Z then f else best) l'
  end.

(** [get_latest_excel(data_dir)], given the names in the directory in the
    order in which the glob goes through them, each with its modification
    time ([Z] stands for the order of the numbers that [st_mtime] gives):
    the warning shown, if any, and the file returned. *)
Definition get_latest_excel (entries : list (string * Z)) : list notice * option string :=
  match List.filter (fun f => glob_match (fst f)) entries with
  | [] =>
      ([StWarning ("Nenhum arquivo de dados encontrado na pasta 'data/'. "
                   ++ "Clique no bot" ++ Str.chr 227 ++ "o acima para atualizar.")], None)
  | f :: l => ([], Some (fst (max_by_mtime f l)))
  end.

End Dashboard.

(** ** The properties of the specification, as definitions

    These follow the words of the specification; the theorems below
    compare them with the code. *)

Module Spec.
Import Bs4 Config Scraper Pipeline.

(** The canonical field set: the internal names of the field mapping and
    the free-text name. *)
Definition canonical_fields : list string :=
  (dict_values FIELD_MAP ++ ["Nome"])%list.

(** The internal names alone. *)
Definition mapped_fields : list string := dict_values FIELD_MAP.

(** The rows of a panel, the labels of the detail row that follows the
    summary row at index [i], as the extractors find them. *)
Definition item_rows (item : node) : list node :=
  find_all (fun n => named "div" n && has_class "row" n) item.

Definition detail_labels (rows : list node) (i : nat) : list located :=
  match rows !! (i + 1)%nat with
  | Some detail =>
      match find (fun n => named "td" n && has_attr "colspan" n) detail with
      | Some td => find_all_located (named "strong") td
      | None => []
      end
  | None => []
  end.

(** The record of a summary row before its detail row is read. *)
Definition summary_record (c0 c1 c2 c3 : node) : dict cell :=
  dict_set "Construto" (Text (get_text "" c3))
    (dict_set "Editora" (Text (get_text "" c2))
       (dict_set "Autores" (Text (get_text "" c1))
          (dict_set "Status" (Text (get_text "" c0)) (blank_record (Text ""))))).

(** The key that a sibling of an anchor supplies, if any. *)
Definition sibling_key (ns : namespace) (sib : node) : option string :=
  match sibling_field ns sib with
  | Ok (Some (key, _)) => Some key
  | _ => None
  end.

(** The identity key of the change detector as the code has it. *)
Definition construct_of (r : dict string) : string := dict_get_default "Construto" "" r.

(** A record that has the key of the change detector. *)
Definition has_construct (r : dict string) : Prop := is_Some (dict_get "Construto" r).

(** The lookup built from the old snapshot, for an identity key [key]: the
    status of the last record that carries the key. *)
Definition last_status_by (key : dict string -> string) (old : list (dict string))
    (k : string) : option string :=
  status_of <$> last (List.filter (fun r => String.eqb (key r) k) old).

(** The transitions: for each record of the new snapshot, in its order,
    one triple when the key is known to the lookup and the two statuses
    are different strings. *)
Definition transition_of (key : dict string -> string) (old : list (dict string))
    (r : dict string) : option transition :=
  match last_status_by key old (key r) with
  | Some s_old =>
      if String.eqb s_old (status_of r) then None
      else Some (key r, s_old, status_of r)
  | None => None
  end.

Definition transitions_by (key : dict string -> string) (old new : list (dict string))
  : list transition :=
  omap (transition_of key old) new.

(** With the construct as the key. *)
Definition transitions_spec (old new : list (dict string)) : list transition :=
  transitions_by construct_of old new.

(** The identity key with the fallback that the specification describes:
    the construct, or the name where the record has no construct (the key
    is missing or its value is empty). *)
Definition identity_key_fallback (r : dict string) : string :=
  match dict_get "Construto" r with
  | Some c => if nonempty c then c else dict_get_default "Nome" "" r
  | None => dict_get_default "Nome" "" r
  end.

(** A record reduced to the two fields that carry the comparison. *)
Definition key_and_status (r : dict string) : dict string :=
  List.filter (fun kv => String.eqb (fst kv) "Construto" || String.eqb (fst kv) "Status") r.

(** What the notifier is given in a run: the arguments of every call of
    [send_email], and the messages handed to the mail server. *)
Definition notifier_calls (t : list event) : list (list transition) :=
  omap (fun e => match e with SendEmailCalled c => Some c | _ => None end) t.

Definition messages_sent (t : list event) : list string :=
  omap (fun e => match e with MessageSent b => Some b | _ => None end) t.

(** The three output files of a run, in the order in which they are
    written. *)
Definition json_path (w : world) : string :=
  get_timestamp_filename (now_json w) "satepsi_data" "json".

Definition excel_path (w : world) : string :=
  get_timestamp_filename (now_excel w) "satepsi_data" "xlsx".

Definition word_path (w : world) : string :=
  get_timestamp_filename (now_word w) "satepsi_report" "docx".

(** The error of the first output file that cannot be written, if any. *)
Definition first_output_error (w : world) : option exn :=
  head (omap (write_error w) [json_path w; excel_path w; word_path w]).

Definition output_paths (w : world) : list string :=
  [json_path w; excel_path w; word_path w].

(** The output files that a run gets to: the three of them, or those up to
    the first one that cannot be written. *)
Definition attempted_outputs (w : world) : list string :=
  match write_error w (json_path w) with
  | Some _ => [json_path w]
  | None =>
      match write_error w (excel_path w) with
      | Some _ => [json_path w; excel_path w]
      | None => output_paths w
      end
  end.

(** The comparison of a run with the history that it finds: no change
    when there is no history file, otherwise what [load_json] and
    [diff_status] give, the list of changes or the exception. *)
Definition comparison (w : world) (st : state) (instruments : list (dict string))
  : result (list transition) :=
  match files st !! PREVIOUS_DATA_FILE with
  | None => Ok []
  | Some _ =>
      old_data ← snd (load_json w PREVIOUS_DATA_FILE st);
      diff_loaded w old_data instruments
  end.

(** The tokens of a snapshot file: of one member, of the members after the
    first, of an object, of the objects after the first, of the array. *)
Definition tokens_item (kv : string * string) : list Json.token :=
  [Json.StringLit (fst kv); Json.Colon; Json.StringLit (snd kv)].

Definition tail_items (l : list (string * string)) : list Json.token :=
  concat (map (fun kv => Json.Comma :: tokens_item kv) l).

Definition tokens_dict (d : dict string) : list Json.token :=
  Json.LBrace ::
  match d with
  | [] => [Json.RBrace]
  | kv :: l => (tokens_item kv ++ tail_items l ++ [Json.RBrace])%list
  end.

Definition tail_dicts (l : list (dict string)) : list Json.token :=
  concat (map (fun d => Json.Comma :: tokens_dict d) l).

Definition tokens_list (data : list (dict string)) : list Json.token :=
  Json.LBracket ::
  match data with
  | [] => [Json.RBracket]
  | d :: l => (tokens_dict d ++ tail_dicts l ++ [Json.RBracket])%list
  end.

(** The text that [join] puts after the first element. *)
Definition tail_text (sep : string) (l : list string) : string :=
  fold_right (fun y acc => sep ++ y ++ acc) "" l.

(** The headings of one level and the paragraphs of a document, and the
    fields of a record that are not empty. *)
Definition headings (level : nat) (blocks : list block) : list string :=
  omap (fun b => match b with
                 | Heading l t => if Nat.eqb l level then Some t else None
                 | Paragraph _ => None
                 end) blocks.

Definition paragraphs (blocks : list block) : list string :=
  omap (fun b => match b with
                 | Paragraph t => Some t
                 | Heading _ _ => None
                 end) blocks.

Definition nonempty_fields (inst : dict string) : list (string * string) :=
  List.filter (fun kv => nonempty (snd kv)) inst.

(** The lines that [send_email] prints when the message went out and when
    the SMTP dialogue failed. *)
Definition mail_success_line : string := "[SUCESSO] E-mail enviado com sucesso!".

Definition mail_error_line (e : exn) : string :=
  "[ERRO] Erro ao enviar e-mail: " ++ exn_str e.

(** The panels of a page, and the title that [parse_html] gives to the
    panel of a header. *)
Definition panels (soup : node) : list node :=
  find_all (fun n => named "div" n && has_class "accordion-item" n) soup.

Definition title_of (header : node) : string :=
  Str.strip (Str.replace (badge_text header) "" (get_text "" header)).

(** A string without white space at either end. *)
Definition trimmed (s : string) : Prop := Str.strip s = s.

(** A non-empty string that starts and ends with a character that is not
    white space. *)
Definition solid (s : string) : Prop :=
  (exists c t, s = String c t /\ Str.isspace c = false)
  /\ Str.rstrip_by Str.isspace s = s.

(** The exception of calling [None]. *)
Definition not_callable : exn := TypeError "'NoneType' object is not callable".

(** The sibling after a label is a text node, or there is none. *)
Definition text_follows (s : located) : Prop :=
  match head (snd s) with
  | Some (Tag _ _ _ _) => False
  | _ => True
  end.

(** A snapshot in which no two records carry the same construct. *)
Definition unique_constructs (data : list (dict string)) : Prop :=
  NoDup (map construct_of data).

(** A well-formed dict: no key twice. *)
Definition dict_wf {V : Type} (d : dict V) : Prop := NoDup (dict_keys d).

End Spec.

(** ** Inputs used in examples and counterexamples *)

Module Examples.
Import Bs4 Config Scraper Pipeline Spec.

Definition text_cell (s : string) : node := Tag "td" [] [] [NavigableString s].

(** A header row and one summary row with the four columns. *)
Definition table_one_entry : node :=
  Tag "table" [] []
    [ Tag "tr" [] [] [Tag "th" [] [] [NavigableString "Status"]];
      Tag "tr" [] [] (map text_cell ["Aprovado"; "Silva"; "Editora X"; "Memoria"]) ].

(** A table whose only row is a summary row with the four columns. *)
Definition table_summary_only : node :=
  Tag "table" [] []
    [ Tag "tr" [] [] (map text_cell ["Aprovado"; "Silva"; "Editora X"; "Memoria"]) ].

(** One anchor with nothing after it. *)
Definition lone_anchor : node :=
  Tag "body" [] [] [Tag "p" [] [] [Tag "a" [] [] [NavigableString "+ Memoria"]]].

(** One anchor followed by a line of text. *)
Definition anchor_with_field : node :=
  Tag "body" [] []
    [ Tag "a" [] [] [NavigableString "+ Memoria"];
      NavigableString " Autores: Silva " ].

(** The panel of the scenario: the header holds the title and the badge. *)
Definition header_xyz : node :=
  Tag "a" [] []
    [ NavigableString "Teste XYZ ";
      Tag "span" ["badge"] [] [NavigableString "Aprovado"] ].

Definition panel_xyz : node := Tag "div" ["accordion-item"] [] [header_xyz].

(** A panel with one row, which gives the authors. *)
Definition panel_with_row : node :=
  Tag "div" ["accordion-item"] []
    [ Tag "a" [] [] [NavigableString "Teste XYZ"];
      Tag "div" ["row"] []
        [ Tag "div" ["col-md-4"; "font-weight-bold"] [] [NavigableString "Autores:"];
          Tag "div" ["col-md-8"] [] [NavigableString " Silva "] ] ].

(** A panel whose header has a badge and whose only row is labelled with
    the status. *)
Definition status_row : node :=
  Tag "div" ["row"] []
    [ Tag "div" ["font-weight-bold"] [] [NavigableString "Status:"];
      Tag "div" ["col-md-10"] [] [NavigableString "Suspenso"] ].

Definition panel_status_row : node :=
  Tag "div" ["accordion-item"] [] [header_xyz; status_row].

Definition page_with_row : node :=
  Tag "[document]" [] [] [Tag "html" [] [] [Tag "body" [] [] [panel_with_row]]].

(** A summary row and a detail row that gives the age range. *)
Definition rows_with_detail : list node :=
  [ Tag "tr" [] [] [Tag "th" [] [] [NavigableString "Status"]];
    Tag "tr" [] [] (map text_cell ["Aprovado"; "Silva"; "Editora X"; "Memoria"]);
    Tag "tr" [] []
      [ Tag "td" [] [("colspan", "4")]
          [ Tag "strong" [] [] [NavigableString "Idade da amostra:"];
            NavigableString " 6 a 12 " ] ] ].

Definition page_xyz : node :=
  Tag "[document]" [] [] [Tag "html" [] [] [Tag "body" [] [] [panel_xyz]]].

(** A page without any panel. *)
Definition page_empty : node :=
  Tag "[document]" [] [] [Tag "html" [] [] [Tag "body" [] [] [NavigableString "manutencao"]]].

(** The snapshots of the change-detection scenario. *)
Definition old_A : list (dict string) :=
  [ [("Construto", "A"); ("Status", "Aprovado")] ].

Definition new_AB : list (dict string) :=
  [ [("Construto", "A"); ("Status", "Reprovado")];
    [("Construto", "B"); ("Status", "Aprovado")] ].

(** One construct listed twice, with two statuses. *)
Definition snapshot_duplicate : list (dict string) :=
  [ [("Construto", "A"); ("Status", "Aprovado")];
    [("Construto", "A"); ("Status", "Reprovado")] ].

(** Two instruments without a construct and with different names. *)
Definition old_unnamed : list (dict string) :=
  [ [("Construto", ""); ("Nome", "Teste 1"); ("Status", "Aprovado")] ].

Definition new_unnamed : list (dict string) :=
  [ [("Construto", ""); ("Nome", "Teste 2"); ("Status", "Reprovado")] ].

(** The same, with the key missing. *)
Definition old_keyless : list (dict string) :=
  [ [("Nome", "Teste 1"); ("Status", "Aprovado")] ].

Definition new_keyless : list (dict string) :=
  [ [("Nome", "Teste 1"); ("Status", "Reprovado")] ].

(** Files outside the embedding in the scenarios: the only one is a
    history that holds an opening brace, which [json.load] refuses.  No
    scenario loads a value from such a file or updates one, so that the
    other two answers are never asked for. *)
Definition scenario_load (f : file) : option exn :=
  match f with
  | TextFile bytes =>
      match Utf8.decode bytes with
      | Some "{" =>
          Some (JSONDecodeError
                  ("Expecting property name enclosed in double quotes: "
                   ++ "line 1 column 2 (char 1)"))
      | _ => None
      end
  | _ => Some UnicodeDecodeError
  end.

Definition scenario_diff (f : file) (new : list (dict string)) : result (list transition) :=
  Ok [].

Definition scenario_update (f : file) (new_email : string) : result (list byte) :=
  Raise UnicodeDecodeError.

(** The world of a scenario, given the page, the clock and what fails. *)
Definition scenario (page : result node) (now_json now_excel now_word today : string)
    (write_error : string -> option exn) (write_leaves : string -> option file)
    (smtp_error : option exn) (smtp_handed_over : bool) : world :=
  mkWorld page now_json now_excel now_word today write_error write_leaves
          true smtp_error smtp_handed_over
          scenario_load scenario_diff scenario_update.

(** Worlds: the site answers with [page_xyz]; nothing fails, or the write
    of the Excel file fails when the disk is full and leaves an empty
    file. *)
Definition world_ok : world :=
  scenario (Ok page_xyz) "20250101_000000" "20250101_000001" "20250101_000002"
           "01/01/2025" (fun _ => None) (fun _ => None) None false.

Definition world_excel_fails : world :=
  scenario (Ok page_xyz) "20250101_000000" "20250101_000001" "20250101_000002"
           "01/01/2025"
           (fun p => if String.eqb p "data/satepsi_data_20250101_000001.xlsx"
                     then Some (OSError "No space left on device") else None)
           (fun _ => Some (TextFile []))
           None false.

Definition world_no_data : world :=
  scenario (Ok page_empty) "20250101_000000" "20250101_000001" "20250101_000002"
           "01/01/2025" (fun _ => None) (fun _ => None) None false.

(** No file at all; and the history of a previous run over the same page. *)
Definition state_fresh : state := mkState ∅ [].

Definition state_after_run : state :=
  mkState (<[PREVIOUS_DATA_FILE :=
              TextFile (Utf8.encode (Json.dumps (parse_html page_xyz)))]> ∅) [].

(** A later page on which the instrument of the scenario is no longer
    approved, and the world that serves it. *)
Definition page_xyz_later : node :=
  Tag "[document]" [] []
    [ Tag "div" ["accordion-item"] []
        [ Tag "a" [] []
            [ NavigableString "Teste XYZ ";
              Tag "span" ["badge"] [] [NavigableString "Desfavoravel"] ] ] ].

Definition world_later : world :=
  scenario (Ok page_xyz_later) "20250201_000000" "20250201_000001" "20250201_000002"
           "01/02/2025" (fun _ => None) (fun _ => None) None false.

(** The history file holds something that is not a snapshot. *)
Definition state_bad_history : state :=
  mkState (<[PREVIOUS_DATA_FILE := TextFile (Utf8.encode "{")]> ∅) [].

(** The mail server refuses the connection; the connection breaks when
    the program takes leave, after the message went out. *)
Definition world_smtp_down : world :=
  scenario (Ok page_xyz) "20250101_000000" "20250101_000001" "20250101_000002"
           "01/01/2025" (fun _ => None) (fun _ => None)
           (Some (OSError "Connection refused")) false.

Definition world_smtp_quit_fails : world :=
  scenario (Ok page_xyz) "20250101_000000" "20250101_000001" "20250101_000002"
           "01/01/2025" (fun _ => None) (fun _ => None)
           (Some (OSError "Connection reset by peer")) true.

(** The history cannot be written: the disk is full, and the file is left
    empty. *)
Definition world_history_fails : world :=
  scenario (Ok page_xyz_later) "20250201_000000" "20250201_000001" "20250201_000002"
           "01/02/2025"
           (fun p => if String.eqb p PREVIOUS_DATA_FILE
                     then Some (OSError "No space left on device") else None)
           (fun _ => Some (TextFile []))
           None false.

(** Records with characters that the encoder escapes. *)
Definition snapshot_escapes : list (dict string) :=
  [ [("Nome", "a" ++ String Json.quote "b" ++ String Json.backslash "c");
     ("Status", String "009" (String "001" (Str.chr 233)))];
    [];
    [("Construto", "")] ].

End Examples.

(** ** Further properties of the extractors *)

Module ExtractorSpec.
Import Bs4 Config Scraper Spec.

(** What the four cells of a summary row give to its record: each of the
    four fields holds the text of its cell, unless a label of the detail
    row at [i + 1] stands for that field. *)
Definition summary_fields (rows : list node) (i : nat) (c0 c1 c2 c3 : node)
    (rec : dict cell) : Prop :=
  forall key c,
    (key, c) ∈ [("Status", c0); ("Autores", c1); ("Editora", c2); ("Construto", c3)] ->
    (forall s, s ∈ detail_labels rows i -> strong_key s <> Some key) ->
    dict_get key rec = Some (Text (get_text "" c)).

(** The badge that [parse_html] looks for in a header. *)
Definition badge_of (header : node) : option node :=
  find (fun n => named "span" n && has_class "badge" n) header.

End ExtractorSpec.

(** ** Properties and examples for the settings and the dashboard *)

Module AppSpec.
Import Config EmailSettings Dashboard.

(** The keys of the mail settings, in the order of the dict, and those
    that are read as text. *)
Definition all_settings : list string :=
  ["SMTP_HOST"; "SMTP_PORT"; "SMTP_USER"; "SMTP_PASS"; "EMAIL_FROM"; "EMAIL_TO"].

Definition text_settings : list string :=
  ["SMTP_HOST"; "SMTP_USER"; "SMTP_PASS"; "EMAIL_FROM"; "EMAIL_TO"].

(** The port that the environment gives: the literal of [SMTP_PORT], or
    of 587 when the variable is not set. *)
Definition port_of (max_str_digits : nat) (env : gmap string string) : option Z :=
  py_int max_str_digits (getenv_default env "SMTP_PORT" "587").

(** The environment gives every setting: the five texts are set and not
    empty, and the port is an integer other than zero. *)
Definition complete_settings (max_str_digits : nat) (env : gmap string string) : Prop :=
  (forall k, k ∈ text_settings -> exists v, env !! k = Some v /\ v <> "")
  /\ exists port, port_of max_str_digits env = Some port /\ port <> 0%Z.

(** A text without a line break. *)
Fixpoint no_breaks (s : string) : bool :=
  match s with
  | EmptyString => true
  | String c s' =>
      negb (Ascii.eqb c "010") && negb (Ascii.eqb c "013") && no_breaks s'
  end.

(** A text that is empty or ends with a line break. *)
Fixpoint terminated (s : string) : bool :=
  match s with
  | EmptyString => true
  | String c s' =>
      match s' with
      | EmptyString => Ascii.eqb c "010" || Ascii.eqb c "013"
      | String _ _ => terminated s'
      end
  end.

(** A line that is ended by a line feed, its only line break. *)
Definition complete_line (l : string) : Prop :=
  exists body, l = body ++ String "010" "" /\ no_breaks body = true.

(** The text that a file holds. *)
Definition text_at (st : state) (path : string) : option string :=
  files st !! path ≫= text_of.

(** The lines of a text that set the recipient. *)
Definition recipient_lines (text : string) : list string :=
  List.filter is_email_to (file_lines text).

(** The file has a line that sets the recipient. *)
Definition has_setting_line (text : string) : bool :=
  existsb is_email_to (file_lines text).

(** The name of a file of the data directory. *)
Definition in_data_dir (path name : string) : Prop := path = DATA_DIR name.

(** An environment with every setting but the port, one with the port
    set to zero, and one without a password. *)
Definition env_default_port : gmap string string :=
  <["SMTP_HOST" := "smtp.example.org"]>
    (<["SMTP_USER" := "luan"]>
       (<["SMTP_PASS" := "segredo"]>
          (<["EMAIL_FROM" := "satepsi@example.org"]>
             (<["EMAIL_TO" := "luan@example.org"]> ∅)))).

Definition env_port_zero : gmap string string :=
  <["SMTP_PORT" := "0"]> env_default_port.

(** The port followed by the separator U+001F, which [str.strip] removes
    and [int] does not accept. *)
Definition env_port_separator : gmap string string :=
  <["SMTP_PORT" := "465" ++ String "031" ""]> env_default_port.

(** A settings file whose last line has no line break, and one that ends
    with a line break and sets the recipient. *)
Definition dotenv_open : string := "SMTP_HOST=smtp.example.org".

Definition dotenv_closed : string :=
  "SMTP_HOST=smtp.example.org" ++ String "013" (String "010" "")
  ++ "  EMAIL_TO=antigo@example.org" ++ String "010" "".

Definition state_dotenv (text : string) : state :=
  mkState (<[".env" := TextFile (Utf8.encode text)]> ∅) [].

(** A settings file with two lines that set the recipient. *)
Definition dotenv_twice : string :=
  "EMAIL_TO=um@example.org" ++ String "010" ""
  ++ "SMTP_HOST=smtp.example.org" ++ String "010" ""
  ++ "EMAIL_TO=dois@example.org" ++ String "010" "".

(** The settings file cannot be rewritten: the disk is full, and the file
    is left empty. *)
Definition world_dotenv_fails : world :=
  Examples.scenario (Ok Examples.page_xyz) "20250101_000000" "20250101_000001"
    "20250101_000002" "01/01/2025"
    (fun p => if String.eqb p ".env" then Some (OSError "No space left on device") else None)
    (fun _ => Some (TextFile []))
    None false.

(** The data directory after two runs and an export by hand. *)
Definition data_entries : list (string * Z) :=
  [ ("previous_data.json", 40%Z);
    ("satepsi_data_20250101_000001.xlsx", 10%Z);
    ("satepsi_data_20250101_000000.json", 10%Z);
    ("satepsi_data_20250201_000001.xlsx", 30%Z);
    ("satepsi_data_copia.xlsx", 30%Z);
    ("satepsi_report_20250201_000002.docx", 31%Z) ].

End AppSpec.

(** * Properties *)

(** ** Dictionaries *)

Section DictFacts.
Context {V : Type}.
Implicit Types (d : dict V) (k : string) (v : V).

Lemma dict_get_set k k' v d :
  dict_get k (dict_set k' v d) = if String.eqb k k' then Some v else dict_get k d.
Proof.
  induction d as [|[k0 v0] d IH]; simpl.
  - reflexivity.
  - destruct (String.eqb_spec k' k0) as [->|Hne]; simpl.
    + destruct (String.eqb k k0); reflexivity.
    + rewrite IH. destruct (String.eqb_spec k k0) as [->|Hne'].
      * destruct (String.eqb_spec k0 k'); congruence.
      * reflexivity.
Qed.

Lemma dict_get_set_eq k v d : dict_get k (dict_set k v d) = Some v.
Proof. rewrite dict_get_set, String.eqb_refl. reflexivity. Qed.

Lemma dict_get_set_ne k k' v d :
  k <> k' -> dict_get k (dict_set k' v d) = dict_get k d.
Proof.
  intros Hne. rewrite dict_get_set.
  destruct (String.eqb_spec k k'); congruence.
Qed.

Lemma dict_keys_set_in k v d :
  k ∈ dict_keys d -> dict_keys (dict_set k v d) = dict_keys d.
Proof.
  induction d as [|[k0 v0] d IH]; simpl; intros Hin.
  - inversion Hin.
  - destruct (String.eqb_spec k k0) as [->|Hne]; simpl; [reflexivity|].
    f_equal. apply IH. apply elem_of_cons in Hin as [?|?]; congruence.
Qed.

Lemma dict_set_notin k v d :
  k ∉ dict_keys d -> dict_set k v d = (d ++ [(k, v)])%list.
Proof.
  induction d as [|[k0 v0] d IH]; simpl; intros Hnin.
  - reflexivity.
  - apply not_elem_of_cons in Hnin as [Hne Hnin].
    destruct (String.eqb_spec k k0); [congruence|].
    f_equal. apply IH, Hnin.
Qed.

Lemma dict_get_Some_keys k v d : dict_get k d = Some v -> k ∈ dict_keys d.
Proof.
  induction d as [|[k0 v0] d IH]; simpl; [discriminate|].
  destruct (String.eqb_spec k k0) as [->|Hne]; intros H.
  - apply list_elem_of_here.
  - apply list_elem_of_further, IH, H.
Qed.

Lemma dict_get_Some_values k v d : dict_get k d = Some v -> v ∈ dict_values d.
Proof.
  induction d as [|[k0 v0] d IH]; simpl; [discriminate|].
  destruct (String.eqb k k0); intros H.
  - injection H as ->. apply list_elem_of_here.
  - apply list_elem_of_further, IH, H.
Qed.

Lemma dict_get_None_keys k d : dict_get k d = None -> k ∉ dict_keys d.
Proof.
  induction d as [|[k0 v0] d IH]; simpl.
  - intros _ H. inversion H.
  - destruct (String.eqb_spec k k0) as [->|Hne]; [discriminate|].
    intros H. apply not_elem_of_cons. split; [assumption|]. apply IH, H.
Qed.

Lemma dict_keys_get k d : k ∈ dict_keys d -> exists v, dict_get k d = Some v.
Proof.
  intros Hin. destruct (dict_get k d) as [v|] eqn:E; [eauto|].
  apply dict_get_None_keys in E. contradiction.
Qed.

Lemma dict_getitem_Some k v d : dict_get k d = Some v -> dict_getitem k d = Ok v.
Proof. unfold dict_getitem. intros ->. reflexivity. Qed.

Lemma dict_getitem_None k d : dict_get k d = None -> dict_getitem k d = Raise (KeyError k).
Proof. unfold dict_getitem. intros ->. reflexivity. Qed.

(** A sequence of assignments to keys that the dict already has leaves
    its keys as they are. *)
Lemma dict_keys_fold_set {A : Type} (f : A -> option (string * V)) (l : list A) d :
  (forall a k v, a ∈ l -> f a = Some (k, v) -> k ∈ dict_keys d) ->
  dict_keys (fold_left (fun d a => match f a with
                                   | Some (k, v) => dict_set k v d
                                   | None => d
                                   end) l d) = dict_keys d.
Proof.
  revert d. induction l as [|a l IH]; intros d Hin; simpl; [reflexivity|].
  assert (Hstep : dict_keys (match f a with
                             | Some (k, v) => dict_set k v d
                             | None => d
                             end) = dict_keys d).
  { destruct (f a) as [[k v]|] eqn:E; [|reflexivity].
    apply dict_keys_set_in. eapply Hin; [apply list_elem_of_here|exact E]. }
  rewrite IH; [exact Hstep|].
  intros a' k v Ha' E. rewrite Hstep.
  eapply Hin; [apply list_elem_of_further, Ha'|exact E].
Qed.

(** A key that no assignment names keeps its value. *)
Lemma dict_get_fold_set {A : Type} (f : A -> option (string * V)) (l : list A) d k :
  (forall a, a ∈ l -> fst <$> f a <> Some k) ->
  dict_get k (fold_left (fun d a => match f a with
                                    | Some (k, v) => dict_set k v d
                                    | None => d
                                    end) l d) = dict_get k d.
Proof.
  revert d. induction l as [|a l IH]; intros d Hno; simpl; [reflexivity|].
  rewrite IH by (intros a' Ha'; apply Hno, list_elem_of_further, Ha').
  specialize (Hno a (list_elem_of_here _ _)).
  destruct (f a) as [[k' v]|]; [|reflexivity].
  apply dict_get_set_ne. intros ->. apply Hno. reflexivity.
Qed.

End DictFacts.

(** ** Results: what an [Ok] of a loop says about its rounds *)

Lemma rmap_Ok_elem {A B : Type} (f : A -> result B) (l : list A) (ys : list B) (y : B) :
  rmap f l = Ok ys -> y ∈ ys -> exists x, x ∈ l /\ f x = Ok y.
Proof.
  revert ys. induction l as [|x l IH]; simpl; intros ys Hok Hy.
  - injection Hok as <-. inversion Hy.
  - destruct (f x) as [y0|e] eqn:Efx; simpl in Hok; [|discriminate].
    destruct (rmap f l) as [ys0|e] eqn:Erest; simpl in Hok; [|discriminate].
    injection Hok as <-.
    apply elem_of_cons in Hy as [->|Hy].
    + exists x. split; [apply list_elem_of_here|exact Efx].
    + destruct (IH ys0 eq_refl Hy) as (x' & Hx' & Hfx').
      exists x'. split; [apply list_elem_of_further, Hx'|exact Hfx'].
Qed.

Lemma rmap_ext {A B : Type} (f g : A -> result B) (l : list A) :
  (forall x, x ∈ l -> f x = g x) -> rmap f l = rmap g l.
Proof.
  induction l as [|x l IH]; simpl; intros Hfg; [reflexivity|].
  rewrite (Hfg x) by apply list_elem_of_here.
  rewrite IH; [reflexivity|].
  intros x' Hx'. apply Hfg, list_elem_of_further, Hx'.
Qed.

Lemma rmap_total {A B : Type} (f : A -> result B) (g : A -> B) (l : list A) :
  (forall x, x ∈ l -> f x = Ok (g x)) -> rmap f l = Ok (map g l).
Proof.
  induction l as [|x l IH]; simpl; intros Hfg; [reflexivity|].
  rewrite (Hfg x) by apply list_elem_of_here. simpl.
  rewrite IH; [reflexivity|].
  intros x' Hx'. apply Hfg, list_elem_of_further, Hx'.
Qed.

(** ** The extractors: keys and defaults of a record *)

Section ExtractorFacts.
Import Bs4 Config Scraper Spec.

Lemma mapped_key_field label key : mapped_key label = Some key -> key ∈ mapped_fields.
Proof.
  unfold mapped_key. destruct (dict_get label FIELD_MAP) as [k|] eqn:E; [|discriminate].
  destruct (nonempty k); [|discriminate]. intros [= <-].
  eapply dict_get_Some_values, E.
Qed.

Lemma blank_record_keys {V : Type} (e : V) : dict_keys (blank_record e) = mapped_fields.
Proof. reflexivity. Qed.

Lemma blank_record_get {V : Type} (e : V) k :
  k ∈ mapped_fields -> dict_get k (blank_record e) = Some e.
Proof.
  unfold mapped_fields. cbn. intros Hk.
  repeat (apply elem_of_cons in Hk as [->|Hk]; [reflexivity|]).
  inversion Hk.
Qed.

Lemma mapped_fields_canonical k : k ∈ mapped_fields -> k ∈ canonical_fields.
Proof. intros Hk. unfold canonical_fields. apply elem_of_app. left. exact Hk. Qed.

Lemma Nome_not_mapped : "Nome" ∉ mapped_fields.
Proof.
  unfold mapped_fields. cbn. intros Hk.
  repeat (apply elem_of_cons in Hk as [Hk|Hk]; [discriminate|]).
  inversion Hk.
Qed.

(** *** parse_html *)

Lemma row_field_key row key v : row_field row = Some (key, v) -> key ∈ mapped_fields.
Proof.
  unfold row_field.
  destruct (find _ row) as [label|]; [|discriminate].
  destruct (match find _ row with Some v0 => Some v0 | None => _ end) as [value|];
    [|discriminate].
  destruct (mapped_key _) as [k|] eqn:E; [|discriminate].
  intros [= <- _]. eapply mapped_key_field, E.
Qed.

Lemma parse_item_keys item rec :
  parse_item item = Some rec -> dict_keys rec = canonical_fields.
Proof.
  unfold parse_item. destruct (find_child _ item) as [header|]; [|discriminate].
  intros [= <-]. unfold panel_row.
  rewrite (dict_keys_fold_set row_field); [reflexivity|].
  intros row k v _ E. apply row_field_key in E.
  change (k ∈ canonical_fields). apply mapped_fields_canonical, E.
Qed.

Lemma parse_html_elem soup rec :
  rec ∈ parse_html soup -> exists item, parse_item item = Some rec.
Proof.
  unfold parse_html. intros Hin. apply list_elem_of_omap in Hin as (item & _ & E).
  exists item. exact E.
Qed.

Lemma parse_item_default item rec k :
  parse_item item = Some rec ->
  k ∈ mapped_fields -> k <> "Status" ->
  (forall row, row ∈ item_rows item -> fst <$> row_field row <> Some k) ->
  dict_get k rec = Some "".
Proof.
  unfold parse_item. destruct (find_child _ item) as [header|]; [|discriminate].
  intros [= <-] Hk Hst Hrows. unfold panel_row.
  rewrite (dict_get_fold_set row_field) by exact Hrows.
  unfold mapped_fields in Hk. cbn in Hk.
  repeat (apply elem_of_cons in Hk as [->|Hk]; [first [reflexivity | congruence]|]).
  inversion Hk.
Qed.

(** Every record of [parse_html] carries the key of the detector. *)
Lemma parse_html_has_construct soup : Forall has_construct (parse_html soup).
Proof.
  apply Forall_forall. intros rec Hin. apply parse_html_elem in Hin as (item & E).
  apply parse_item_keys in E. unfold has_construct.
  destruct (dict_keys_get "Construto" rec) as (v & Hv); [|eauto].
  rewrite E. vm_compute. repeat first [apply list_elem_of_here | apply list_elem_of_further].
Qed.

(** *** parse_table *)

Lemma detail_label_keys rec s rec' :
  detail_label rec s = Ok rec' ->
  (forall k, k ∈ mapped_fields -> k ∈ dict_keys rec) ->
  dict_keys rec' = dict_keys rec.
Proof.
  unfold detail_label. destruct (strong_key s) as [key|] eqn:E.
  - destruct (value_after (snd s)) as [val|e]; simpl; [|discriminate].
    intros [= <-] Hsub. apply dict_keys_set_in, Hsub.
    eapply mapped_key_field, E.
  - intros [= <-] _. reflexivity.
Qed.

Lemma rfold_detail_label_keys l rec rec' :
  rfold detail_label rec l = Ok rec' ->
  (forall k, k ∈ mapped_fields -> k ∈ dict_keys rec) ->
  dict_keys rec' = dict_keys rec.
Proof.
  revert rec. induction l as [|s l IH]; simpl; intros rec Hok Hsub.
  - injection Hok as <-. reflexivity.
  - destruct (detail_label rec s) as [rec1|e] eqn:E1; simpl in Hok; [|discriminate].
    pose proof (detail_label_keys _ _ _ E1 Hsub) as Hk1.
    rewrite (IH rec1 Hok); [exact Hk1|].
    intros k Hk. rewrite Hk1. apply Hsub, Hk.
Qed.

Lemma rfold_detail_label_get l rec rec' k :
  rfold detail_label rec l = Ok rec' ->
  (forall s, s ∈ l -> strong_key s <> Some k) ->
  dict_get k rec' = dict_get k rec.
Proof.
  revert rec. induction l as [|s l IH]; simpl; intros rec Hok Hno.
  - injection Hok as <-. reflexivity.
  - destruct (detail_label rec s) as [rec1|e] eqn:E1; simpl in Hok; [|discriminate].
    rewrite (IH rec1 Hok) by (intros s' Hs'; apply Hno, list_elem_of_further, Hs').
    specialize (Hno s (list_elem_of_here _ _)).
    unfold detail_label in E1. destruct (strong_key s) as [key|].
    + destruct (value_after (snd s)) as [val|e]; simpl in E1; [|discriminate].
      injection E1 as <-. apply dict_get_set_ne. congruence.
    + injection E1 as <-. reflexivity.
Qed.

Lemma table_rows_at_shape rows i rec :
  table_rows_at rows i = Ok (Some rec) ->
  exists c0 c1 c2 c3,
    rfold detail_label (summary_record c0 c1 c2 c3) (detail_labels rows i) = Ok rec.
Proof.
  unfold table_rows_at, detail_labels.
  destruct (rows !! i) as [summary|]; [|discriminate].
  destruct (find_all (named "td") summary) as [|c0 [|c1 [|c2 [|c3 cols]]]];
    try discriminate.
  intros H. exists c0, c1, c2, c3. fold (summary_record c0 c1 c2 c3) in H.
  destruct (i + 1 <? length rows)%nat eqn:Elt.
  - destruct (rows !! (i + 1)%nat) as [detail|]; [|injection H as <-; reflexivity].
    destruct (find _ detail) as [td|]; [|injection H as <-; reflexivity].
    destruct (rfold detail_label _ _) as [r|e]; simpl in H; [|discriminate].
    injection H as <-. reflexivity.
  - apply Nat.ltb_ge in Elt.
    rewrite (lookup_ge_None_2 rows (i + 1)) by lia. injection H as <-. reflexivity.
Qed.

Lemma table_rows_at_keys rows i rec :
  table_rows_at rows i = Ok (Some rec) -> dict_keys rec = mapped_fields.
Proof.
  intros H. apply table_rows_at_shape in H as (c0 & c1 & c2 & c3 & H).
  rewrite (rfold_detail_label_keys _ _ _ H); [reflexivity|].
  intros k Hk. exact Hk.
Qed.

Lemma table_rows_at_default rows i rec k :
  table_rows_at rows i = Ok (Some rec) ->
  k ∈ mapped_fields ->
  k ∉ ["Status"; "Autores"; "Editora"; "Construto"] ->
  (forall s, s ∈ detail_labels rows i -> strong_key s <> Some k) ->
  dict_get k rec = Some (Text "").
Proof.
  intros H Hk Hfour Hno. apply table_rows_at_shape in H as (c0 & c1 & c2 & c3 & H).
  rewrite (rfold_detail_label_get _ _ _ _ H Hno). unfold summary_record.
  rewrite !dict_get_set_ne.
  - apply blank_record_get, Hk.
  - intros ->. apply Hfour. repeat first [apply list_elem_of_here | apply list_elem_of_further].
  - intros ->. apply Hfour. repeat first [apply list_elem_of_here | apply list_elem_of_further].
  - intros ->. apply Hfour. repeat first [apply list_elem_of_here | apply list_elem_of_further].
  - intros ->. apply Hfour. repeat first [apply list_elem_of_here | apply list_elem_of_further].
Qed.

Lemma parse_table_elem table recs rec :
  parse_table table = Ok recs -> rec ∈ recs ->
  exists i, table_rows_at (find_all (named "tr") table) i = Ok (Some rec).
Proof.
  unfold parse_table.
  destruct (rmap _ _) as [found|e] eqn:E; simpl; [|discriminate].
  intros [= <-] Hin. apply list_elem_of_omap in Hin as (o & Ho & Hsome).
  simpl in Hsome. subst o.
  destruct (rmap_Ok_elem _ _ _ _ E Ho) as (i & _ & Hi). exists i. exact Hi.
Qed.

(** *** parse_links *)

Lemma sibling_field_key ns sib key v :
  sibling_field ns sib = Ok (Some (key, v)) -> key ∈ mapped_fields.
Proof.
  unfold sibling_field. destruct (sibling_text ns sib) as [text|e]; simpl; [|discriminate].
  destruct (Str.split_once ":" text) as [[l r]|]; [|discriminate].
  destruct (mapped_key (Str.strip l)) as [k|] eqn:E; [|discriminate].
  intros [= <- _]. eapply mapped_key_field, E.
Qed.

Lemma scan_siblings_keys ns sibs rec rec' :
  scan_siblings ns rec sibs = Ok rec' ->
  (forall k, k ∈ mapped_fields -> k ∈ dict_keys rec) ->
  dict_keys rec' = dict_keys rec.
Proof.
  revert rec. induction sibs as [|sib rest IH]; simpl; intros rec Hok Hsub.
  - injection Hok as <-. reflexivity.
  - destruct (ns "Tag") as [cls|e]; simpl in Hok; [|discriminate].
    destruct (isinstance sib cls && named "a" sib && _).
    { injection Hok as <-. reflexivity. }
    destruct (sibling_field ns sib) as [[[key v]|]|e] eqn:E; simpl in Hok;
      [| |discriminate].
    + assert (Hset : dict_keys (dict_set key v rec) = dict_keys rec).
      { apply dict_keys_set_in, Hsub. eapply sibling_field_key, E. }
      rewrite (IH _ Hok); [exact Hset|].
      intros k Hk. rewrite Hset. apply Hsub, Hk.
    + apply (IH _ Hok Hsub).
Qed.

Lemma scan_siblings_get ns sibs rec rec' k :
  scan_siblings ns rec sibs = Ok rec' ->
  (forall sib, sib ∈ sibs -> sibling_key ns sib <> Some k) ->
  dict_get k rec' = dict_get k rec.
Proof.
  revert rec. induction sibs as [|sib rest IH]; simpl; intros rec Hok Hno.
  - injection Hok as <-. reflexivity.
  - destruct (ns "Tag") as [cls|e]; simpl in Hok; [|discriminate].
    destruct (isinstance sib cls && named "a" sib && _).
    { injection Hok as <-. reflexivity. }
    pose proof (Hno sib (list_elem_of_here _ _)) as Hsib. unfold sibling_key in Hsib.
    assert (Hrest : forall s, s ∈ rest -> sibling_key ns s <> Some k)
      by (intros s Hs; apply Hno, list_elem_of_further, Hs).
    destruct (sibling_field ns sib) as [[[key v]|]|e]; simpl in Hok; [| |discriminate].
    + rewrite (IH _ Hok Hrest). apply dict_get_set_ne. congruence.
    + apply (IH _ Hok Hrest).
Qed.

Lemma parse_anchor_keys ns a rec :
  parse_anchor ns a = Ok rec -> dict_keys rec = mapped_fields.
Proof.
  unfold parse_anchor. intros H.
  rewrite (scan_siblings_keys _ _ _ _ H); [reflexivity|].
  intros k Hk. exact Hk.
Qed.

Lemma parse_anchor_default ns a rec k :
  parse_anchor ns a = Ok rec ->
  k ∈ mapped_fields -> k <> "Construto" ->
  (forall sib, sib ∈ snd a -> sibling_key ns sib <> Some k) ->
  dict_get k rec = Some "".
Proof.
  unfold parse_anchor. intros H Hk Hne Hno.
  rewrite (scan_siblings_get _ _ _ _ _ H Hno).
  rewrite dict_get_set_ne by exact Hne.
  apply blank_record_get, Hk.
Qed.

End ExtractorFacts.

(** ** The field set of a record (C1) *)

Section RecordFields.
Import Bs4 Config Scraper Spec Examples.

(** C1, counterexample.  The claim gives every record of every extractor
    the canonical field set, with the name.  The records of [parse_table]
    and of [parse_links] have no key [Nome]: the table of one entry and the
    document of one anchor each give one record whose keys are the eleven
    internal names only. *)
Lemma table_and_link_records_lack_Nome :
  (exists rec,
      parse_table table_one_entry = Ok [rec]
      /\ dict_get "Nome" rec = None
      /\ dict_keys rec <> canonical_fields)
  /\ (exists rec,
         parse_links lone_anchor = Ok [rec]
         /\ dict_get "Nome" rec = None
         /\ dict_keys rec <> canonical_fields).
Proof.
  split; (eexists; split; [vm_compute; reflexivity|]);
    (split; [reflexivity|]); intros H; vm_compute in H; discriminate H.
Qed.

(** C1, amended.  Every record of [parse_html] has exactly the canonical
    field set, the internal names and [Nome], in that order; every record
    of [parse_table] and of [parse_links] (under any binding of the class
    names) has exactly the internal names, without [Nome].  In each
    extractor a field that no part of the entry supplies holds the empty
    string: with [parse_html] every internal name other than [Status] that
    no row of the panel gives; with [parse_table] every internal name
    outside the four columns that no label of the detail row gives; with
    [parse_links] every internal name other than [Construto] that no
    sibling gives. *)
Theorem record_fields_by_extractor :
  (forall soup rec, rec ∈ parse_html soup -> dict_keys rec = canonical_fields)
  /\ (forall table recs rec,
         parse_table table = Ok recs -> rec ∈ recs -> dict_keys rec = mapped_fields)
  /\ (forall ns soup recs rec,
         parse_links_in ns soup = Ok recs -> rec ∈ recs -> dict_keys rec = mapped_fields)
  /\ (forall item rec k,
         parse_item item = Some rec ->
         k ∈ mapped_fields -> k <> "Status" ->
         (forall row, row ∈ item_rows item -> fst <$> row_field row <> Some k) ->
         dict_get k rec = Some "")
  /\ (forall rows i rec k,
         table_rows_at rows i = Ok (Some rec) ->
         k ∈ mapped_fields ->
         k ∉ ["Status"; "Autores"; "Editora"; "Construto"] ->
         (forall s, s ∈ detail_labels rows i -> strong_key s <> Some k) ->
         dict_get k rec = Some (Text ""))
  /\ (forall ns a rec k,
         parse_anchor ns a = Ok rec ->
         k ∈ mapped_fields -> k <> "Construto" ->
         (forall sib, sib ∈ snd a -> sibling_key ns sib <> Some k) ->
         dict_get k rec = Some "").
Proof.
  repeat split.
  - intros soup rec Hin. apply parse_html_elem in Hin as (item & E).
    eapply parse_item_keys, E.
  - intros table recs rec Hok Hin.
    destruct (parse_table_elem _ _ _ Hok Hin) as (i & Hi).
    eapply table_rows_at_keys, Hi.
  - intros ns soup recs rec Hok Hin. unfold parse_links_in in Hok.
    destruct (rmap_Ok_elem _ _ _ _ Hok Hin) as (a & _ & Ha).
    eapply parse_anchor_keys, Ha.
  - apply parse_item_default.
  - apply table_rows_at_default.
  - apply parse_anchor_default.
Qed.

(** The theorem at concrete entries: the panel with one row, the table
    with a detail row, and the anchor followed by one line, read with the
    class names bound as in [bs4.element]. *)
Lemma record_fields_by_extractor_witness :
  (exists rec,
      parse_html page_with_row = [rec]
      /\ dict_keys rec = canonical_fields
      /\ dict_get "Autores" rec = Some "Silva"
      /\ dict_get "Editora" rec = Some "")
  /\ (exists rec,
         parse_table (Tag "table" [] [] rows_with_detail) = Ok [rec]
         /\ table_rows_at rows_with_detail 1 = Ok (Some rec)
         /\ dict_keys rec = mapped_fields
         /\ dict_get "IdadeAmostra" rec = Some (Text "6 a 12")
         /\ dict_get "Observacoes" rec = Some (Text ""))
  /\ (exists rec,
         parse_links_in element_getattr anchor_with_field = Ok [rec]
         /\ dict_keys rec = mapped_fields
         /\ dict_get "Autores" rec = Some "Silva"
         /\ dict_get "Status" rec = Some "").
Proof.
  destruct record_fields_by_extractor as (Thtml & Ttable & Tlinks & Titem & Trows & Tanchor).
  split; [|split].
  - eexists. split; [vm_compute; reflexivity|]. split; [|split].
    + apply (Thtml page_with_row). vm_compute. apply list_elem_of_here.
    + reflexivity.
    + apply (Titem panel_with_row).
      * vm_compute. reflexivity.
      * vm_compute. repeat first [apply list_elem_of_here | apply list_elem_of_further].
      * discriminate.
      * intros row Hrow. vm_compute in Hrow.
        inversion Hrow as [|? ? ? Hnil]; subst; [|inversion Hnil].
        vm_compute. discriminate.
  - eexists. split; [vm_compute; reflexivity|]. split; [vm_compute; reflexivity|].
    split; [|split].
    + apply (Ttable (Tag "table" [] [] rows_with_detail) _ _ eq_refl).
      vm_compute. apply list_elem_of_here.
    + reflexivity.
    + apply (Trows rows_with_detail 1).
      * vm_compute. reflexivity.
      * vm_compute. repeat first [apply list_elem_of_here | apply list_elem_of_further].
      * intros Hin. vm_compute in Hin.
        repeat (inversion Hin as [|? ? ? Hin']; subst; clear Hin; rename Hin' into Hin).
      * intros s Hs. vm_compute in Hs.
        inversion Hs as [|? ? ? Hnil]; subst; [|inversion Hnil].
        vm_compute. discriminate.
  - eexists. split; [vm_compute; reflexivity|]. split; [|split].
    + apply (Tlinks element_getattr anchor_with_field _ _ eq_refl).
      vm_compute. apply list_elem_of_here.
    + reflexivity.
    + apply (Tanchor element_getattr
               (Tag "a" [] [] [NavigableString "+ Memoria"],
                [NavigableString " Autores: Silva "])).
      * vm_compute. reflexivity.
      * vm_compute. repeat first [apply list_elem_of_here | apply list_elem_of_further].
      * discriminate.
      * intros sib Hsib. simpl in Hsib.
        inversion Hsib as [|? ? ? Hnil]; subst; [|inversion Hnil].
        vm_compute. discriminate.
Defined.

End RecordFields.

(** ** The title and the status of a panel (C7) *)

Section PanelHeader.
Import Bs4 Config Scraper Spec Examples.

Lemma row_field_not_Nome row : fst <$> row_field row <> Some "Nome".
Proof.
  destruct (row_field row) as [[k v]|] eqn:E; simpl; [|discriminate].
  intros [= ->]. apply row_field_key in E. exact (Nome_not_mapped E).
Qed.

(** C7.  For every panel with a header, the name of the record is the text
    of the header from which every occurrence of the badge text is removed,
    then stripped, whatever the rows say; the status is the badge text
    unless a row of the panel is labelled with the status.  For the panel
    of the scenario, whose header reads [Teste XYZ Aprovado] with the badge
    [Aprovado], the page gives one record with the name [Teste XYZ] and the
    status [Aprovado]. *)
Theorem panel_title_is_header_without_badge :
  (forall item header rec,
      find_child (named "a") item = Some header ->
      parse_item item = Some rec ->
      dict_get "Nome" rec
      = Some (Str.strip (Str.replace (badge_text header) "" (get_text "" header)))
      /\ ((forall row, row ∈ item_rows item -> fst <$> row_field row <> Some "Status") ->
          dict_get "Status" rec = Some (badge_text header)))
  /\ text_content header_xyz = "Teste XYZ Aprovado"
  /\ badge_text header_xyz = "Aprovado"
  /\ (exists rec,
         parse_html page_xyz = [rec]
         /\ dict_get "Nome" rec = Some "Teste XYZ"
         /\ dict_get "Status" rec = Some "Aprovado").
Proof.
  split; [|split; [reflexivity|split; [reflexivity|]]].
  - intros item header rec Hheader. unfold parse_item. rewrite Hheader.
    intros [= <-]. unfold panel_row. split.
    + rewrite (dict_get_fold_set row_field)
        by (intros row _; apply row_field_not_Nome).
      reflexivity.
    + intros Hrows. rewrite (dict_get_fold_set row_field) by exact Hrows.
      reflexivity.
  - eexists. split; [vm_compute; reflexivity|]. split; reflexivity.
Qed.

(** The theorem at the panel of the scenario. *)
Lemma panel_title_is_header_without_badge_witness :
  exists rec,
    parse_item panel_xyz = Some rec
    /\ dict_get "Nome" rec = Some "Teste XYZ"
    /\ dict_get "Status" rec = Some "Aprovado".
Proof.
  eexists. split; [vm_compute; reflexivity|].
  destruct (proj1 panel_title_is_header_without_badge panel_xyz header_xyz _
              eq_refl eq_refl) as [Hname Hstatus].
  split.
  - exact Hname.
  - apply Hstatus. intros row Hrow. vm_compute in Hrow. inversion Hrow.
Defined.

End PanelHeader.

(** ** The rows that [parse_table] reads (C10) *)

Section TableRows.
Import Bs4 Config Scraper Spec Examples.

Lemma py_range_odd n i :
  i ∈ py_range 1 n 2 <-> (i < n /\ exists k, i = 2 * k + 1)%nat.
Proof.
  unfold py_range. rewrite list_elem_of_fmap. split.
  - intros (k & -> & Hk). apply elem_of_seq in Hk.
    assert (Hdiv : (2 * ((n - 1 + 2 - 1) / 2) <= n - 1 + 2 - 1)%nat)
      by (apply Nat.Div0.mul_div_le).
    split; [|exists k; lia].
    destruct n as [|n]; [simpl in Hk; lia|]. lia.
  - intros (Hlt & k & ->). exists k. split; [lia|].
    assert (Hk : (S k <= (n - 1 + 2 - 1) / 2)%nat)
      by (apply Nat.div_le_lower_bound; lia).
    apply elem_of_seq. lia.
Qed.

Lemma table_rows_at_tail r1 r2 rest i :
  (1 <= i)%nat -> table_rows_at (r1 :: rest) i = table_rows_at (r2 :: rest) i.
Proof.
  intros Hi. destruct i as [|i]; [lia|]. unfold table_rows_at. reflexivity.
Qed.

(** C10.  The indices that [parse_table] reads as summary rows are the odd
    ones below the number of rows: the first row is never one of them.
    Two tables that differ only in their first row give the same result, a
    table with a single row gives the empty list, and so does the table
    whose only row is a summary row with the four columns. *)
Theorem parse_table_skips_first_row :
  (forall n i, i ∈ py_range 1 n 2 <-> (i < n /\ exists k, i = 2 * k + 1)%nat)
  /\ (forall t1 t2 r1 r2 rest,
         find_all (named "tr") t1 = r1 :: rest ->
         find_all (named "tr") t2 = r2 :: rest ->
         parse_table t1 = parse_table t2)
  /\ (forall t r, find_all (named "tr") t = [r] -> parse_table t = Ok [])
  /\ length (find_all (named "td") (Tag "tr" [] []
               (map text_cell ["Aprovado"; "Silva"; "Editora X"; "Memoria"]))) = 4%nat
  /\ parse_table table_summary_only = Ok [].
Proof.
  split; [exact py_range_odd|]. split; [|split; [|split; reflexivity]].
  - intros t1 t2 r1 r2 rest H1 H2. unfold parse_table. rewrite H1, H2. simpl length.
    rewrite (rmap_ext (table_rows_at (r1 :: rest)) (table_rows_at (r2 :: rest)));
      [reflexivity|].
    intros i Hi. apply py_range_odd in Hi as (_ & k & ->).
    apply table_rows_at_tail. lia.
  - intros t r H. unfold parse_table. rewrite H. reflexivity.
Qed.

(** The theorem at two tables that differ in their first row only. *)
Lemma parse_table_skips_first_row_witness :
  parse_table table_one_entry
  = parse_table (Tag "table" [] []
                   [ Tag "tr" [] [] (map text_cell ["Reprovado"; "Souza"; "Editora Y"; "Humor"]);
                     Tag "tr" [] [] (map text_cell ["Aprovado"; "Silva"; "Editora X"; "Memoria"]) ])
  /\ parse_table table_summary_only = Ok [].
Proof.
  destruct parse_table_skips_first_row as (_ & Hsame & Hone & _).
  split.
  - eapply Hsame; vm_compute; reflexivity.
  - eapply Hone. vm_compute. reflexivity.
Defined.

End TableRows.

(** ** The change detector (C2, C9) *)

Section ChangeDetector.
Import Bs4 Config Scraper Pipeline Spec Examples.

Lemma has_construct_getitem r :
  has_construct r -> dict_getitem "Construto" r = Ok (construct_of r).
Proof.
  intros [c Hc]. unfold dict_getitem, construct_of, dict_get_default.
  rewrite Hc. reflexivity.
Qed.

Lemma last_status_by_cons key r old k :
  last_status_by key (r :: old) k
  = match last_status_by key old k with
    | Some s => Some s
    | None => if String.eqb (key r) k then Some (status_of r) else None
    end.
Proof.
  unfold last_status_by. simpl.
  destruct (String.eqb (key r) k); [|destruct (last _); reflexivity].
  rewrite last_cons. destruct (last _); reflexivity.
Qed.

(** The dict comprehension over the old snapshot, started from any map. *)
Lemma old_map_from (old : list (dict string)) (m0 : gmap string string) :
  Forall has_construct old ->
  exists m,
    rfold (fun (m : gmap string string) i =>
             k ← dict_getitem "Construto" i; Ok (<[k := status_of i]> m)) m0 old
    = Ok m
    /\ forall k, m !! k = match last_status_by construct_of old k with
                          | Some s => Some s
                          | None => m0 !! k
                          end.
Proof.
  intros Hold. revert m0. induction Hold as [|r old Hr Hold IH]; intros m0.
  - exists m0. split; reflexivity.
  - simpl. rewrite (has_construct_getitem r Hr). simpl.
    destruct (IH (<[construct_of r := status_of r]> m0)) as (m & Hm & Hlook).
    exists m. split; [exact Hm|].
    intros k. rewrite Hlook, last_status_by_cons.
    destruct (last_status_by construct_of old k); [reflexivity|].
    destruct (String.eqb_spec (construct_of r) k) as [->|Hne].
    + apply lookup_insert_eq.
    + rewrite lookup_insert_ne by exact Hne. reflexivity.
Qed.

Lemma old_map_of_lookup old :
  Forall has_construct old ->
  exists m, old_map_of old = Ok m
            /\ forall k, m !! k = last_status_by construct_of old k.
Proof.
  intros Hold. destruct (old_map_from old ∅ Hold) as (m & Hm & Hlook).
  exists m. split; [exact Hm|].
  intros k. rewrite Hlook, lookup_empty.
  destruct (last_status_by construct_of old k); reflexivity.
Qed.

Lemma omap_id_fmap {A B : Type} (f : A -> option B) (l : list A) :
  omap id (map f l) = omap f l.
Proof.
  induction l as [|x l IH]; [reflexivity|].
  change (omap id (map f (x :: l)))
    with (match f x with Some y => y :: omap id (map f l) | None => omap id (map f l) end).
  rewrite IH. reflexivity.
Qed.

Lemma diff_status_transitions old new :
  Forall has_construct old -> Forall has_construct new ->
  diff_status old new = Ok (transitions_spec old new).
Proof.
  intros Hold Hnew. unfold diff_status.
  destruct (old_map_of_lookup old Hold) as (m & -> & Hlook). simpl.
  rewrite (rmap_total _ (transition_of construct_of old)).
  - simpl. rewrite omap_id_fmap. reflexivity.
  - intros r Hr. rewrite Forall_forall in Hnew.
    unfold diff_one, transition_of.
    rewrite (has_construct_getitem r) by (apply Hnew, Hr). simpl.
    rewrite Hlook. destruct (last_status_by construct_of old (construct_of r)) as [s|];
      [|reflexivity].
    destruct (String.eqb s (status_of r)); reflexivity.
Qed.

Lemma last_status_by_Some key old k s :
  last_status_by key old k = Some s ->
  exists r, r ∈ old /\ key r = k /\ status_of r = s.
Proof.
  unfold last_status_by. destruct (last _) as [r|] eqn:E; simpl; [|discriminate].
  intros [= <-]. exists r. apply last_Some_elem_of in E.
  apply list_elem_of_In, filter_In in E as [Hin Hk].
  apply String.eqb_eq in Hk. split; [apply list_elem_of_In, Hin|]. split; [exact Hk|reflexivity].
Qed.

(** C2.  For snapshots whose records all carry the key, [diff_status]
    returns the transitions of the specification: one triple for each
    record of the new snapshot, in that order, whose key is in the lookup
    of the old snapshot (last occurrence wins) with a status that is a
    different string.  A triple is returned exactly for such records; a key
    that no record of the old snapshot carries gives no triple.  The
    snapshots of a run are of that kind, as every record of [parse_html]
    carries the key.  In the scenario the result is the single triple
    (A, Aprovado, Reprovado). *)
Theorem diff_status_meets_spec :
  (forall old new,
      Forall has_construct old -> Forall has_construct new ->
      diff_status old new = Ok (transitions_spec old new))
  /\ (forall soup, Forall has_construct (parse_html soup))
  /\ (forall old new k s_old s_new,
         (k, s_old, s_new) ∈ transitions_spec old new
         <-> exists r, r ∈ new /\ construct_of r = k /\ status_of r = s_new
                       /\ last_status_by construct_of old k = Some s_old
                       /\ s_old <> s_new)
  /\ (forall old new k s_old s_new,
         (forall r, r ∈ old -> construct_of r <> k) ->
         (k, s_old, s_new) ∉ transitions_spec old new)
  /\ diff_status old_A new_AB = Ok [("A", "Aprovado", "Reprovado")].
Proof.
  assert (Hiff : forall old new k s_old s_new,
             (k, s_old, s_new) ∈ transitions_spec old new
             <-> exists r, r ∈ new /\ construct_of r = k /\ status_of r = s_new
                           /\ last_status_by construct_of old k = Some s_old
                           /\ s_old <> s_new).
  { intros old new k s_old s_new. unfold transitions_spec, transitions_by.
    rewrite list_elem_of_omap. unfold transition_of. split.
    - intros (r & Hr & E). exists r. split; [exact Hr|].
      destruct (last_status_by construct_of old (construct_of r)) as [s|] eqn:El;
        [|discriminate].
      destruct (String.eqb_spec s (status_of r)) as [|Hne]; [discriminate|].
      injection E as <- <- <-. auto.
    - intros (r & Hr & <- & <- & El & Hne). exists r. split; [exact Hr|].
      rewrite El. destruct (String.eqb_spec s_old (status_of r)); [contradiction|].
      reflexivity. }
  split; [exact diff_status_transitions|].
  split; [exact parse_html_has_construct|]. split; [exact Hiff|].
  split; [|reflexivity].
  intros old new k s_old s_new Hnew Hin.
  apply Hiff in Hin as (r & _ & _ & _ & El & _).
  apply last_status_by_Some in El as (r' & Hr' & Hk & _).
  exact (Hnew r' Hr' Hk).
Qed.

(** The theorem at the snapshots of the scenario. *)
Lemma diff_status_meets_spec_witness :
  diff_status old_A new_AB = Ok (transitions_spec old_A new_AB)
  /\ ("B", "Aprovado", "Aprovado") ∉ transitions_spec old_A new_AB.
Proof.
  destruct diff_status_meets_spec as (Hspec & _ & _ & Hnew & _).
  split.
  - apply Hspec; repeat constructor; eexists; reflexivity.
  - apply Hnew. intros r Hr. vm_compute in Hr.
    inversion Hr as [|? ? ? Hnil]; subst; [|inversion Hnil].
    vm_compute. discriminate.
Defined.

(** *** The key is the construct alone *)

Lemma key_and_status_get k r :
  k = "Construto" \/ k = "Status" ->
  dict_get k (key_and_status r) = dict_get k r.
Proof.
  intros Hk. unfold key_and_status.
  induction r as [|[k0 v0] r IH]; simpl; [reflexivity|].
  destruct (String.eqb_spec k k0) as [->|Hne].
  - assert (Hkeep : String.eqb k0 "Construto" || String.eqb k0 "Status" = true)
      by (destruct Hk as [->| ->]; reflexivity).
    rewrite Hkeep. simpl. rewrite String.eqb_refl. reflexivity.
  - destruct (String.eqb k0 "Construto" || String.eqb k0 "Status"); simpl.
    + destruct (String.eqb_spec k k0); [contradiction|]. exact IH.
    + exact IH.
Qed.

Lemma key_and_status_getitem r :
  dict_getitem "Construto" (key_and_status r) = dict_getitem "Construto" r.
Proof. unfold dict_getitem. rewrite key_and_status_get by auto. reflexivity. Qed.

Lemma key_and_status_status r : status_of (key_and_status r) = status_of r.
Proof.
  unfold status_of, dict_get_default. rewrite key_and_status_get by auto. reflexivity.
Qed.

Lemma rfold_fmap {A B S : Type} (g : A -> B) (f : S -> B -> result S) (s : S) (l : list A) :
  rfold f s (map g l) = rfold (fun s a => f s (g a)) s l.
Proof.
  revert s. induction l as [|a l IH]; intros s; simpl; [reflexivity|].
  destruct (f s (g a)); simpl; [apply IH|reflexivity].
Qed.

Lemma rfold_ext {A S : Type} (f g : S -> A -> result S) (s : S) (l : list A) :
  (forall s a, f s a = g s a) -> rfold f s l = rfold g s l.
Proof.
  intros Hfg. revert s. induction l as [|a l IH]; intros s; simpl; [reflexivity|].
  rewrite Hfg. destruct (g s a); simpl; [apply IH|reflexivity].
Qed.

Lemma rmap_fmap {A B C : Type} (g : A -> B) (f : B -> result C) (l : list A) :
  rmap f (map g l) = rmap (fun a => f (g a)) l.
Proof.
  induction l as [|a l IH]; simpl; [reflexivity|].
  rewrite IH. reflexivity.
Qed.

Lemma diff_status_key_and_status old new :
  diff_status (map key_and_status old) (map key_and_status new) = diff_status old new.
Proof.
  unfold diff_status, old_map_of. rewrite rfold_fmap.
  rewrite (rfold_ext _ (fun (m : gmap string string) i =>
                          k ← dict_getitem "Construto" i; Ok (<[k := status_of i]> m)))
    by (intros m r; rewrite key_and_status_getitem, key_and_status_status; reflexivity).
  destruct (rfold _ ∅ old) as [m|e]; simpl; [|reflexivity].
  rewrite rmap_fmap.
  rewrite (rmap_ext _ (diff_one m)); [reflexivity|].
  intros r _. unfold diff_one.
  rewrite key_and_status_getitem, key_and_status_status. reflexivity.
Qed.

(** A record without the key. *)
Lemma old_map_keyless (old : list (dict string)) (m0 : gmap string string) :
  Exists (fun r => dict_get "Construto" r = None) old ->
  rfold (fun (m : gmap string string) i =>
           k ← dict_getitem "Construto" i; Ok (<[k := status_of i]> m)) m0 old
  = Raise (KeyError "Construto").
Proof.
  revert m0. induction old as [|r old IH]; intros m0 Hex; [inversion Hex|].
  simpl. destruct (dict_get "Construto" r) as [c|] eqn:E.
  - rewrite (dict_getitem_Some _ _ _ E). simpl.
    apply IH. inversion Hex as [? ? Hr|? ? Hrest]; subst; [congruence|exact Hrest].
  - rewrite (dict_getitem_None _ _ E). reflexivity.
Qed.

Lemma diff_one_keyless (m : gmap string string) new :
  Exists (fun r => dict_get "Construto" r = None) new ->
  rmap (diff_one m) new = Raise (KeyError "Construto").
Proof.
  induction new as [|r new IH]; intros Hex; [inversion Hex|].
  change (rmap (diff_one m) (r :: new))
    with (y ← diff_one m r; ys ← rmap (diff_one m) new; Ok (y :: ys)).
  destruct (dict_get "Construto" r) as [c|] eqn:E.
  - rewrite IH by (inversion Hex as [? ? Hr|? ? Hrest]; subst; [congruence|exact Hrest]).
    unfold diff_one. rewrite (dict_getitem_Some _ _ _ E). simpl.
    destruct (m !! c) as [s|]; [destruct (String.eqb s (status_of r))|]; reflexivity.
  - unfold diff_one. rewrite (dict_getitem_None _ _ E). reflexivity.
Qed.

Lemma has_construct_or_keyless (l : list (dict string)) :
  Forall has_construct l \/ Exists (fun r => dict_get "Construto" r = None) l.
Proof.
  induction l as [|r l [IH|IH]].
  - left. constructor.
  - destruct (dict_get "Construto" r) as [c|] eqn:E.
    + left. constructor; [exists c; exact E|exact IH].
    + right. constructor. exact E.
  - right. apply Exists_cons_tl, IH.
Qed.

Lemma diff_status_keyless old new :
  Exists (fun r => dict_get "Construto" r = None) old
  \/ Exists (fun r => dict_get "Construto" r = None) new ->
  diff_status old new = Raise (KeyError "Construto").
Proof.
  intros Hex. unfold diff_status.
  destruct (has_construct_or_keyless old) as [Hold|Hold].
  - destruct Hex as [Hex|Hex].
    + unfold old_map_of. rewrite old_map_keyless by exact Hex. reflexivity.
    + destruct (old_map_of_lookup old Hold) as (m & -> & _). simpl.
      rewrite diff_one_keyless by exact Hex. reflexivity.
  - unfold old_map_of. rewrite old_map_keyless by exact Hold. reflexivity.
Qed.

(** C9, counterexample.  The claim names the title as the key of a record
    without a construct.  Two instruments with an empty construct and
    different names are two different instruments under that key, and the
    detector would report nothing; [diff_status] reports a transition
    under the empty key.  With the key [Construto] missing, the key of the
    claim is the name and one transition is due; [diff_status] raises
    [KeyError]. *)
Lemma diff_status_has_no_Nome_fallback :
  diff_status old_unnamed new_unnamed = Ok [("", "Aprovado", "Reprovado")]
  /\ transitions_by identity_key_fallback old_unnamed new_unnamed = []
  /\ diff_status old_keyless new_keyless = Raise (KeyError "Construto")
  /\ transitions_by identity_key_fallback old_keyless new_keyless
     = [("Teste 1", "Aprovado", "Reprovado")].
Proof. repeat split; reflexivity. Qed.

(** C9, amended.  The key by which [diff_status] correlates the records of
    two snapshots is the value of [Construto] and nothing else.  The result
    is the same when every record is reduced to its fields [Construto] and
    [Status], so the name is never read; on snapshots whose records all
    carry the key it is the list of transitions keyed by the construct
    (an empty construct is a key like any other); a record without the key
    [Construto], in either snapshot, makes the call raise [KeyError]. *)
Theorem identity_key_is_construct_only :
  (forall old new,
      diff_status old new = diff_status (map key_and_status old) (map key_and_status new))
  /\ (forall old new,
         Forall has_construct old -> Forall has_construct new ->
         diff_status old new = Ok (transitions_by construct_of old new))
  /\ (forall old new,
         Exists (fun r => dict_get "Construto" r = None) old
         \/ Exists (fun r => dict_get "Construto" r = None) new ->
         diff_status old new = Raise (KeyError "Construto")).
Proof.
  split; [|split].
  - intros old new. symmetry. apply diff_status_key_and_status.
  - exact diff_status_transitions.
  - exact diff_status_keyless.
Qed.

(** The theorem at the snapshots of the counterexample. *)
Lemma identity_key_is_construct_only_witness :
  diff_status old_unnamed new_unnamed
  = Ok (transitions_by construct_of old_unnamed new_unnamed)
  /\ diff_status old_keyless new_keyless = Raise (KeyError "Construto").
Proof.
  destruct identity_key_is_construct_only as (_ & Hkey & Hraise).
  split.
  - apply Hkey; repeat constructor; eexists; reflexivity.
  - apply Hraise. left. constructor. reflexivity.
Defined.

End ChangeDetector.

(** ** One run of [main] *)

Section RunFacts.
Import Bs4 Config Scraper Pipeline Spec.

Lemma bind_run {A B : Type} (m : io A) (k : A -> io B) (st : state) :
  (m ≫= k) st = match m st with
                | (st', Ok a) => k a st'
                | (st', Raise e) => (st', Raise e)
                end.
Proof. reflexivity. Qed.

Lemma print_run line st :
  print line st = (mkState (files st) (trace st ++ [Printed line])%list, Ok tt).
Proof. reflexivity. Qed.

Lemma emit_run e st :
  emit e st = (mkState (files st) (trace st ++ [e])%list, Ok tt).
Proof. reflexivity. Qed.

Lemma write_file_ok w path f st :
  write_error w path = None ->
  write_file w path f st = (mkState (<[path := f]> (files st)) (trace st), Ok tt).
Proof. unfold write_file. intros ->. reflexivity. Qed.

Lemma write_file_error w path f st e :
  write_error w path = Some e ->
  write_file w path f st
  = (mkState (files_after_failure w path (files st)) (trace st), Raise e).
Proof. unfold write_file. intros ->. reflexivity. Qed.

(** A write that fails changes no file but its own. *)
Lemma files_after_failure_other w path fs other :
  other <> path -> files_after_failure w path fs !! other = fs !! other.
Proof.
  intros Hne. unfold files_after_failure.
  destruct (write_leaves w path); [|reflexivity].
  apply lookup_insert_ne. congruence.
Qed.

Lemma main_fetch_error w st e :
  page w = Raise e ->
  main w st = (mkState (files st) (trace st ++ [Printed (log_fetch_error e)])%list, Ok tt).
Proof. intros H. unfold main, fetch_from_url. rewrite H. reflexivity. Qed.

Lemma main_no_instruments w st soup :
  page w = Ok soup -> parse_html soup = [] ->
  main w st = (mkState (files st) (trace st ++ [Printed log_no_instruments])%list, Ok tt).
Proof. intros H Hnil. unfold main, fetch_from_url. rewrite H. simpl. rewrite Hnil. reflexivity. Qed.

Lemma main_instruments w st soup :
  page w = Ok soup -> parse_html soup <> [] ->
  main w st = persist_and_compare w (parse_html soup) st.
Proof.
  intros H Hne. unfold main, fetch_from_url. rewrite H. simpl.
  destruct (parse_html soup); [contradiction|reflexivity].
Qed.

(** No output file of a run is the history file. *)
Lemma output_paths_not_history w :
  json_path w <> PREVIOUS_DATA_FILE
  /\ excel_path w <> PREVIOUS_DATA_FILE
  /\ word_path w <> PREVIOUS_DATA_FILE.
Proof. repeat split; intros H; vm_compute in H; discriminate H. Qed.

Lemma notifier_calls_app t1 t2 :
  notifier_calls (t1 ++ t2) = (notifier_calls t1 ++ notifier_calls t2)%list.
Proof. unfold notifier_calls. apply omap_app. Qed.

Lemma word_sections_ok data :
  Forall has_construct data -> exists sections, rmap word_section data = Ok sections.
Proof.
  induction 1 as [|r data Hr _ (sections & IH)]; [exists []; reflexivity|].
  assert (Hsec : exists blocks, word_section r = Ok blocks)
    by (unfold word_section; rewrite (has_construct_getitem r Hr); simpl; eauto).
  destruct Hsec as (blocks & Hsec).
  change (rmap word_section (r :: data))
    with (y ← word_section r; ys ← rmap word_section data; Ok (y :: ys)).
  rewrite Hsec, IH. simpl. eauto.
Qed.

(** [send_email] returns, whatever the configuration and the mail server:
    it records the call, prints, and may hand over one message. *)
Lemma send_email_run w changes st :
  exists events,
    send_email w changes st
    = (mkState (files st) (trace st ++ SendEmailCalled changes :: events)%list, Ok tt)
    /\ notifier_calls events = [].
Proof.
  unfold send_email, send_email_body. rewrite bind_run, emit_run. cbv beta iota.
  destruct (email_configured w); unfold negb; cbv beta iota.
  - destruct (smtp_error w) as [e|]; cbv beta iota.
    + rewrite bind_run. destruct (smtp_handed_over w).
      * rewrite emit_run. cbv beta iota. rewrite print_run. simpl.
        rewrite <- !app_assoc. eexists. split; reflexivity.
      * unfold mret, io_ret. cbv beta iota. rewrite print_run. simpl.
        rewrite <- app_assoc. eexists. split; reflexivity.
    + rewrite bind_run, emit_run. cbv beta iota. rewrite print_run. simpl.
      rewrite <- !app_assoc. eexists. split; reflexivity.
  - rewrite print_run. simpl. rewrite <- app_assoc. eexists. split; reflexivity.
Qed.

Lemma output_paths_distinct w :
  json_path w <> word_path w /\ excel_path w <> word_path w.
Proof. repeat split; intros H; vm_compute in H; discriminate H. Qed.

Ltac run_print := rewrite bind_run, print_run; cbv beta iota; cbn [files trace].

(** The first output that cannot be written ends the run: the exception
    leaves [persist_and_compare], no file but the three outputs is touched
    (so the history is as before), a Word report whose own write does not
    fail is not written, and the notifier is not called. *)
Lemma persist_output_error w instruments st e :
  Forall has_construct instruments ->
  first_output_error w = Some e ->
  exists st',
    persist_and_compare w instruments st = (st', Raise e)
    /\ (forall path, path ∉ attempted_outputs w -> files st' !! path = files st !! path)
    /\ notifier_calls (trace st') = notifier_calls (trace st).
Proof.
  intros Hc Herr. unfold first_output_error in Herr.
  unfold persist_and_compare. run_print.
  rewrite bind_run. unfold save_json at 1.
  destruct (write_error w (json_path w)) as [ej|] eqn:Ej.
  { rewrite (write_file_error _ _ _ _ _ Ej). simpl in Herr. rewrite Ej in Herr.
    injection Herr as <-. eexists. split; [reflexivity|]. cbn [files trace]. split.
    - intros path Hpath. unfold attempted_outputs in Hpath. rewrite Ej in Hpath.
      apply files_after_failure_other. intros ->. apply Hpath, list_elem_of_here.
    - rewrite notifier_calls_app. simpl. rewrite app_nil_r. reflexivity. }
  rewrite write_file_ok by exact Ej. cbv beta iota. cbn [files trace]. run_print.
  rewrite bind_run. unfold save_excel at 1.
  destruct (write_error w (excel_path w)) as [ex|] eqn:Ex.
  { rewrite (write_file_error _ _ _ _ _ Ex). simpl in Herr. rewrite Ej, Ex in Herr.
    injection Herr as <-. eexists. split; [reflexivity|]. cbn [files trace]. split.
    - intros path Hpath. unfold attempted_outputs in Hpath. rewrite Ej, Ex in Hpath.
      rewrite files_after_failure_other
        by (intros ->; apply Hpath, list_elem_of_further, list_elem_of_here).
      apply lookup_insert_ne. intros <-. apply Hpath, list_elem_of_here.
    - rewrite !notifier_calls_app. simpl. rewrite !app_nil_r. reflexivity. }
  rewrite write_file_ok by exact Ex. cbv beta iota. cbn [files trace]. run_print.
  rewrite bind_run. unfold generate_word at 1.
  destruct (word_sections_ok _ Hc) as (sections & Hs).
  rewrite bind_run. unfold lift. rewrite Hs. cbv beta iota.
  destruct (write_error w (word_path w)) as [ew|] eqn:Ew.
  { rewrite (write_file_error _ _ _ _ _ Ew). simpl in Herr. rewrite Ej, Ex, Ew in Herr.
    injection Herr as <-. eexists. split; [reflexivity|]. cbn [files trace]. split.
    - intros path Hpath. unfold attempted_outputs, output_paths in Hpath.
      rewrite Ej, Ex in Hpath.
      rewrite files_after_failure_other
        by (intros ->; apply Hpath;
            repeat first [apply list_elem_of_here | apply list_elem_of_further]).
      rewrite !lookup_insert_ne
        by (intros <-; apply Hpath;
            repeat first [apply list_elem_of_here | apply list_elem_of_further]).
      reflexivity.
    - rewrite !notifier_calls_app. simpl. rewrite !app_nil_r. reflexivity. }
  simpl in Herr. rewrite Ej, Ex, Ew in Herr. discriminate Herr.
Qed.

(** The outputs that a run gets to are among the three, and the history is
    not one of them. *)
Lemma attempted_outputs_subset w path :
  path ∈ attempted_outputs w -> path ∈ output_paths w.
Proof.
  unfold attempted_outputs, output_paths.
  destruct (write_error w (json_path w)); [|destruct (write_error w (excel_path w))];
    rewrite !elem_of_cons, !elem_of_nil; tauto.
Qed.

Lemma history_not_attempted w : PREVIOUS_DATA_FILE ∉ attempted_outputs w.
Proof.
  intros Hin. apply attempted_outputs_subset in Hin.
  destruct (output_paths_not_history w) as (Hj & Hx & Hw).
  unfold output_paths in Hin. rewrite !elem_of_cons, elem_of_nil in Hin.
  destruct Hin as [H|[H|[H|[]]]]; congruence.
Qed.

(** When the three outputs are written, the run goes on from a state in
    which the history and the notifier are as before. *)
Lemma persist_outputs_written w instruments st :
  Forall has_construct instruments ->
  first_output_error w = None ->
  exists st3,
    persist_and_compare w instruments st
    = (compare_and_notify w instruments;;
       save_json w instruments PREVIOUS_DATA_FILE;;
       print ("[SUCESSO] Hist" ++ Str.chr 243 ++ "rico atualizado: " ++ PREVIOUS_DATA_FILE))
        st3
    /\ is_Some (files st3 !! word_path w)
    /\ files st3 !! PREVIOUS_DATA_FILE = files st !! PREVIOUS_DATA_FILE
    /\ notifier_calls (trace st3) = notifier_calls (trace st).
Proof.
  intros Hc Herr. unfold first_output_error in Herr. simpl in Herr.
  destruct (write_error w (json_path w)) as [ej|] eqn:Ej; [discriminate|].
  destruct (write_error w (excel_path w)) as [ex|] eqn:Ex; [discriminate|].
  destruct (write_error w (word_path w)) as [ew|] eqn:Ew; [discriminate|].
  destruct (output_paths_not_history w) as (Hj & Hx & Hw).
  destruct (word_sections_ok _ Hc) as (sections & Hs).
  unfold persist_and_compare. run_print.
  rewrite bind_run. unfold save_json at 1.
  rewrite write_file_ok by exact Ej. cbv beta iota. cbn [files trace]. run_print.
  rewrite bind_run. unfold save_excel at 1.
  rewrite write_file_ok by exact Ex. cbv beta iota. cbn [files trace]. run_print.
  rewrite bind_run. unfold generate_word at 1.
  rewrite bind_run. unfold lift. rewrite Hs. cbv beta iota.
  rewrite write_file_ok by exact Ew. cbv beta iota. cbn [files trace]. run_print.
  eexists. split; [reflexivity|]. cbn [files trace].
  split; [|split].
  - rewrite lookup_insert_eq. eauto.
  - rewrite !lookup_insert_ne by assumption. reflexivity.
  - rewrite !notifier_calls_app. simpl. rewrite !app_nil_r. reflexivity.
Qed.

(** *** Comparison and notification *)

Lemma load_json_state w path st : fst (load_json w path st) = st.
Proof.
  unfold load_json. destruct (files st !! path) as [f|]; [|reflexivity].
  destruct (snapshot_of f); [reflexivity|].
  destruct (foreign_load w f); reflexivity.
Qed.

Lemma load_json_lookup w path st1 st2 :
  files st1 !! path = files st2 !! path ->
  snd (load_json w path st1) = snd (load_json w path st2).
Proof.
  intros H. unfold load_json. rewrite H.
  destruct (files st2 !! path) as [f|]; [|reflexivity].
  destruct (snapshot_of f); [reflexivity|].
  destruct (foreign_load w f); reflexivity.
Qed.

Lemma comparison_lookup w st1 st2 instruments :
  files st1 !! PREVIOUS_DATA_FILE = files st2 !! PREVIOUS_DATA_FILE ->
  comparison w st1 instruments = comparison w st2 instruments.
Proof.
  intros H. unfold comparison. rewrite H, (load_json_lookup w _ st1 st2 H). reflexivity.
Qed.

Lemma for_each_prints {A : Type} (body : A -> io unit) (l : list A) :
  (forall c, exists line, forall st, body c st = print line st) ->
  exists events,
    notifier_calls events = []
    /\ forall st,
         for_each l body st = (mkState (files st) (trace st ++ events)%list, Ok tt).
Proof.
  intros Hbody. induction l as [|c l (events & Hcalls & IH)].
  - exists []. split; [reflexivity|]. intros [f t]. simpl. rewrite app_nil_r. reflexivity.
  - destruct (Hbody c) as (line & Hline).
    exists (Printed line :: events). split; [exact Hcalls|].
    intros st. simpl for_each. rewrite bind_run, Hline, print_run. cbv beta iota.
    rewrite IH. cbn [files trace]. rewrite <- app_assoc. reflexivity.
Qed.

(** The report of the changes prints and does nothing else. *)
Lemma report_changes_run changes :
  exists events,
    notifier_calls events = []
    /\ forall st,
         report_changes changes st
         = (mkState (files st) (trace st ++ events)%list, Ok tt).
Proof.
  destruct changes as [|c changes].
  - exists []. split; [reflexivity|]. intros [f t]. simpl. rewrite app_nil_r. reflexivity.
  - destruct (for_each_prints
                (fun c : transition =>
                   let '(name, old, new) := c in
                   print ("- " ++ name ++ ": " ++ old ++ " -> " ++ new))
                (c :: changes)) as (lines & Hlines & Hrun).
    { intros [[name o] n]. eexists. intros st0. reflexivity. }
    eexists. split; [|intros st; unfold report_changes; rewrite bind_run, print_run;
                      cbv beta iota; rewrite Hrun; cbn [files trace];
                      rewrite <- app_assoc; reflexivity].
    simpl. exact Hlines.
Qed.

(** The comparison stage: an exception of the comparison leaves it at
    once; otherwise the changes are reported and the notifier is called
    with them. *)
Lemma compare_and_notify_run w instruments st :
  compare_and_notify w instruments st
  = match comparison w st instruments with
    | Raise e => (st, Raise e)
    | Ok changes => (report_changes changes;; send_email w changes) st
    end.
Proof.
  unfold compare_and_notify, comparison. rewrite bind_run. unfold path_exists.
  destruct (files st !! PREVIOUS_DATA_FILE) as [f|] eqn:Hfile.
  - rewrite bool_decide_eq_true_2 by eauto. cbv beta iota. rewrite bind_run.
    destruct (load_json w PREVIOUS_DATA_FILE st) as [st' r] eqn:E.
    pose proof (load_json_state w PREVIOUS_DATA_FILE st) as Hst. rewrite E in Hst.
    simpl in Hst. subst st'. cbn [snd].
    destruct r as [old_data|e]; [|reflexivity]. cbv beta iota.
    rewrite bind_run. unfold lift.
    change (Ok old_data ≫= λ old_data0, diff_loaded w old_data0 instruments)
      with (diff_loaded w old_data instruments).
    destruct (diff_loaded w old_data instruments) as [changes|e]; reflexivity.
  - rewrite bool_decide_eq_false_2 by apply is_Some_None. reflexivity.
Qed.

Lemma compare_and_notify_raise w instruments st e :
  comparison w st instruments = Raise e ->
  compare_and_notify w instruments st = (st, Raise e).
Proof. intros H. rewrite compare_and_notify_run, H. reflexivity. Qed.

(** When the comparison gives the changes, the stage returns: the files
    are as before and the notifier is called once more, with the
    changes. *)
Lemma compare_and_notify_changes w instruments st changes :
  comparison w st instruments = Ok changes ->
  exists st',
    compare_and_notify w instruments st = (st', Ok tt)
    /\ files st' = files st
    /\ notifier_calls (trace st') = (notifier_calls (trace st) ++ [changes])%list.
Proof.
  intros H. rewrite compare_and_notify_run, H. rewrite bind_run.
  destruct (report_changes_run changes) as (lines & Hlines & Hrun).
  rewrite Hrun. cbv beta iota.
  match goal with
  | |- context [send_email w ?cs ?s] =>
      destruct (send_email_run w cs s) as (events & -> & Hevents)
  end.
  eexists. split; [reflexivity|]. cbn [files trace]. split; [reflexivity|].
  rewrite !notifier_calls_app. simpl. rewrite Hlines, Hevents.
  rewrite !app_nil_r. reflexivity.
Qed.

Lemma compare_first_run w instruments st :
  files st !! PREVIOUS_DATA_FILE = None ->
  compare_and_notify w instruments st = send_email w [] st.
Proof.
  intros Hnone. unfold compare_and_notify. rewrite bind_run. unfold path_exists.
  rewrite bool_decide_eq_false_2 by (rewrite Hnone; apply is_Some_None).
  reflexivity.
Qed.

Lemma comparison_loaded w st instruments old_data :
  is_Some (files st !! PREVIOUS_DATA_FILE) ->
  snd (load_json w PREVIOUS_DATA_FILE st) = Ok old_data ->
  comparison w st instruments = diff_loaded w old_data instruments.
Proof.
  intros [f Hf] Hload. unfold comparison. rewrite Hf, Hload. reflexivity.
Qed.

Lemma compare_no_changes w instruments st old_data :
  is_Some (files st !! PREVIOUS_DATA_FILE) ->
  snd (load_json w PREVIOUS_DATA_FILE st) = Ok old_data ->
  diff_loaded w old_data instruments = Ok [] ->
  compare_and_notify w instruments st = send_email w [] st.
Proof.
  intros Hsome Hload Hdiff.
  rewrite compare_and_notify_run, (comparison_loaded _ _ _ _ Hsome Hload), Hdiff.
  reflexivity.
Qed.

End RunFacts.

(** ** The orchestrator (C3, C5, C6) *)

Section Orchestrator.
Import Bs4 Config Scraper Pipeline Spec Examples.

Lemma main_output_error w st soup e :
  page w = Ok soup -> parse_html soup <> [] ->
  first_output_error w = Some e ->
  exists st',
    main w st = (st', Raise e)
    /\ (forall path, path ∉ attempted_outputs w -> files st' !! path = files st !! path)
    /\ files st' !! PREVIOUS_DATA_FILE = files st !! PREVIOUS_DATA_FILE
    /\ notifier_calls (trace st') = notifier_calls (trace st).
Proof.
  intros Hpage Hne Herr. rewrite (main_instruments w st soup Hpage Hne).
  destruct (persist_output_error w (parse_html soup) st e
              (parse_html_has_construct soup) Herr)
    as (st' & Hrun & Hframe & Hcalls).
  exists st'. split; [exact Hrun|]. split; [exact Hframe|].
  split; [|exact Hcalls]. apply Hframe, history_not_attempted.
Qed.

Lemma main_comparison_error w st soup e :
  page w = Ok soup -> parse_html soup <> [] ->
  first_output_error w = None ->
  comparison w st (parse_html soup) = Raise e ->
  exists st',
    main w st = (st', Raise e)
    /\ files st' !! PREVIOUS_DATA_FILE = files st !! PREVIOUS_DATA_FILE
    /\ notifier_calls (trace st') = notifier_calls (trace st).
Proof.
  intros Hpage Hne Herr Hcmp. rewrite (main_instruments w st soup Hpage Hne).
  destruct (persist_outputs_written w (parse_html soup) st
              (parse_html_has_construct soup) Herr)
    as (st3 & -> & _ & Hprev & Hcalls).
  rewrite bind_run.
  rewrite (compare_and_notify_raise w _ st3 e)
    by (rewrite (comparison_lookup w st3 st _ Hprev); exact Hcmp).
  exists st3. auto.
Qed.

Lemma main_history_write_error w st soup changes e :
  page w = Ok soup -> parse_html soup <> [] ->
  first_output_error w = None ->
  comparison w st (parse_html soup) = Ok changes ->
  write_error w PREVIOUS_DATA_FILE = Some e ->
  exists st',
    main w st = (st', Raise e)
    /\ files st' !! PREVIOUS_DATA_FILE
       = match write_leaves w PREVIOUS_DATA_FILE with
         | Some partial => Some partial
         | None => files st !! PREVIOUS_DATA_FILE
         end
    /\ notifier_calls (trace st') = (notifier_calls (trace st) ++ [changes])%list.
Proof.
  intros Hpage Hne Herr Hcmp Hwrite. rewrite (main_instruments w st soup Hpage Hne).
  destruct (persist_outputs_written w (parse_html soup) st
              (parse_html_has_construct soup) Herr)
    as (st3 & -> & _ & Hprev & Hcalls).
  rewrite bind_run.
  destruct (compare_and_notify_changes w (parse_html soup) st3 changes)
    as (st4 & -> & Hfiles & Hcalls4);
    [rewrite (comparison_lookup w st3 st _ Hprev); exact Hcmp|].
  cbv beta iota. rewrite bind_run. unfold save_json.
  rewrite (write_file_error _ _ _ _ _ Hwrite).
  eexists. split; [reflexivity|]. cbn [files trace]. split.
  - unfold files_after_failure.
    destruct (write_leaves w PREVIOUS_DATA_FILE) as [partial|].
    + apply lookup_insert_eq.
    + rewrite Hfiles. exact Hprev.
  - rewrite Hcalls4, Hcalls. reflexivity.
Qed.

Lemma main_completes w st soup changes :
  page w = Ok soup -> parse_html soup <> [] ->
  first_output_error w = None ->
  comparison w st (parse_html soup) = Ok changes ->
  write_error w PREVIOUS_DATA_FILE = None ->
  exists st',
    main w st = (st', Ok tt)
    /\ files st' !! PREVIOUS_DATA_FILE
       = Some (TextFile (Utf8.encode (Json.dumps (parse_html soup))))
    /\ notifier_calls (trace st') = (notifier_calls (trace st) ++ [changes])%list.
Proof.
  intros Hpage Hne Herr Hcmp Hwrite. rewrite (main_instruments w st soup Hpage Hne).
  destruct (persist_outputs_written w (parse_html soup) st
              (parse_html_has_construct soup) Herr)
    as (st3 & -> & _ & Hprev & Hcalls).
  rewrite bind_run.
  destruct (compare_and_notify_changes w (parse_html soup) st3 changes)
    as (st4 & -> & Hfiles & Hcalls4);
    [rewrite (comparison_lookup w st3 st _ Hprev); exact Hcmp|].
  cbv beta iota. rewrite bind_run. unfold save_json.
  rewrite write_file_ok by exact Hwrite. cbv beta iota. rewrite print_run.
  eexists. split; [reflexivity|]. cbn [files trace]. split.
  - apply lookup_insert_eq.
  - rewrite notifier_calls_app, Hcalls4, Hcalls. simpl. rewrite app_nil_r. reflexivity.
Qed.

Lemma comparison_first_run w st instruments :
  files st !! PREVIOUS_DATA_FILE = None -> comparison w st instruments = Ok [].
Proof. intros H. unfold comparison. rewrite H. reflexivity. Qed.

Lemma main_first_run_completes w st soup :
  page w = Ok soup -> parse_html soup <> [] ->
  first_output_error w = None ->
  files st !! PREVIOUS_DATA_FILE = None ->
  write_error w PREVIOUS_DATA_FILE = None ->
  exists st',
    main w st = (st', Ok tt)
    /\ files st' !! PREVIOUS_DATA_FILE
       = Some (TextFile (Utf8.encode (Json.dumps (parse_html soup))))
    /\ notifier_calls (trace st') = (notifier_calls (trace st) ++ [[]])%list.
Proof.
  intros Hpage Hne Herr Hnone Hwrite.
  apply (main_completes w st soup [] Hpage Hne Herr); [|exact Hwrite].
  apply comparison_first_run, Hnone.
Qed.

Lemma log_lines_distinct e : log_no_instruments <> log_fetch_error e.
Proof. unfold log_no_instruments, log_fetch_error. simpl. discriminate. Qed.

(** C6.  An extractor that finds no panel, no row or no anchor returns the
    empty list and does not raise.  A run whose extraction gives no record
    prints the line [[AVISO] Nenhum instrumento encontrado.], which no
    fetch error prints, and returns: the files are as before and nothing
    but that line is added to the trace, so no file is written and the
    notifier is not called. *)
Theorem empty_extraction_aborts_run :
  (forall soup,
      find_all (fun n => named "div" n && has_class "accordion-item" n) soup = [] ->
      parse_html soup = [])
  /\ (forall table, find_all (named "tr") table = [] -> parse_table table = Ok [])
  /\ (forall soup, find_all plus_anchor soup = [] -> parse_links soup = Ok [])
  /\ (forall w st soup,
         page w = Ok soup -> parse_html soup = [] ->
         main w st
         = (mkState (files st) (trace st ++ [Printed log_no_instruments])%list, Ok tt))
  /\ (forall e, log_no_instruments <> log_fetch_error e).
Proof.
  split; [|split; [|split; [|split]]].
  - intros soup H. unfold parse_html. rewrite H. reflexivity.
  - intros table H. unfold parse_table. rewrite H. reflexivity.
  - intros soup H. unfold parse_links, parse_links_in.
    unfold find_all in H. apply fmap_nil_inv in H. rewrite H. reflexivity.
  - exact main_no_instruments.
  - exact log_lines_distinct.
Qed.

(** The theorem at a page without panels. *)
Lemma empty_extraction_aborts_run_witness :
  parse_html page_empty = []
  /\ parse_table page_empty = Ok []
  /\ parse_links page_empty = Ok []
  /\ main world_no_data state_fresh
     = (mkState ∅ [Printed log_no_instruments], Ok tt).
Proof.
  destruct empty_extraction_aborts_run as (Hhtml & Htable & Hlinks & Hmain & _).
  split; [|split; [|split]].
  - apply Hhtml. reflexivity.
  - apply Htable. reflexivity.
  - apply Hlinks. reflexivity.
  - apply (Hmain world_no_data state_fresh page_empty); reflexivity.
Defined.

(** C3, counterexample.  The claim lets a run go on after a failed write.
    In a run where the Excel file cannot be written the exception leaves
    [main]: the Word report is not written, the notifier is not called and
    the history is not written. *)
Lemma excel_error_escapes_main :
  snd (main world_excel_fails state_fresh) = Raise (OSError "No space left on device")
  /\ files (fst (main world_excel_fails state_fresh)) !! word_path world_excel_fails = None
  /\ notifier_calls (trace (fst (main world_excel_fails state_fresh))) = []
  /\ files (fst (main world_excel_fails state_fresh)) !! PREVIOUS_DATA_FILE = None.
Proof. repeat split; vm_compute; reflexivity. Qed.

(** C3, amended.  A failed fetch and an extraction without records end the
    run with one line of output and a normal return.  A failure of the
    notifier does not end it: when the outputs and the history can be
    written and the comparison with the history, if there is one, does
    not raise, [main] returns, the notifier was called once with the
    changes (none on a first run) and the history holds the new snapshot,
    whatever the mail configuration and the mail server do.  The other
    failures are not caught.  The first of the JSON, Excel and Word
    outputs that cannot be written raises out of [main]; no later stage
    runs, so that no file is touched but the outputs up to the one that
    failed (after a failed JSON file no Excel file and no Word report,
    after a failed Excel file no Word report), the history is as before
    and the notifier is not called.  An exception of the
    comparison, from [load_json] or from [diff_status], raises out of
    [main] before the notifier is called, with the history as before.  An
    error while writing the history raises out of [main] after the
    notifier was called, and the history file is then what the failed
    write leaves: the file as before when the path could not be opened,
    otherwise the new file, empty or cut short. *)
Theorem run_outcomes :
  (forall w st e,
      page w = Raise e ->
      main w st
      = (mkState (files st) (trace st ++ [Printed (log_fetch_error e)])%list, Ok tt))
  /\ (forall w st soup,
         page w = Ok soup -> parse_html soup = [] ->
         main w st
         = (mkState (files st) (trace st ++ [Printed log_no_instruments])%list, Ok tt))
  /\ (forall w st soup changes,
         page w = Ok soup -> parse_html soup <> [] ->
         first_output_error w = None ->
         comparison w st (parse_html soup) = Ok changes ->
         write_error w PREVIOUS_DATA_FILE = None ->
         exists st',
           main w st = (st', Ok tt)
           /\ files st' !! PREVIOUS_DATA_FILE
              = Some (TextFile (Utf8.encode (Json.dumps (parse_html soup))))
           /\ notifier_calls (trace st') = (notifier_calls (trace st) ++ [changes])%list)
  /\ (forall w st soup e,
         page w = Ok soup -> parse_html soup <> [] ->
         first_output_error w = Some e ->
         exists st',
           main w st = (st', Raise e)
           /\ (forall path,
                 path ∉ attempted_outputs w -> files st' !! path = files st !! path)
           /\ files st' !! PREVIOUS_DATA_FILE = files st !! PREVIOUS_DATA_FILE
           /\ notifier_calls (trace st') = notifier_calls (trace st))
  /\ (forall w st soup e,
         page w = Ok soup -> parse_html soup <> [] ->
         first_output_error w = None ->
         comparison w st (parse_html soup) = Raise e ->
         exists st',
           main w st = (st', Raise e)
           /\ files st' !! PREVIOUS_DATA_FILE = files st !! PREVIOUS_DATA_FILE
           /\ notifier_calls (trace st') = notifier_calls (trace st))
  /\ (forall w st soup changes e,
         page w = Ok soup -> parse_html soup <> [] ->
         first_output_error w = None ->
         comparison w st (parse_html soup) = Ok changes ->
         write_error w PREVIOUS_DATA_FILE = Some e ->
         exists st',
           main w st = (st', Raise e)
           /\ files st' !! PREVIOUS_DATA_FILE
              = match write_leaves w PREVIOUS_DATA_FILE with
                | Some partial => Some partial
                | None => files st !! PREVIOUS_DATA_FILE
                end
           /\ notifier_calls (trace st') = (notifier_calls (trace st) ++ [changes])%list).
Proof.
  split; [exact main_fetch_error|].
  split; [exact main_no_instruments|].
  split; [exact main_completes|].
  split; [exact main_output_error|].
  split; [exact main_comparison_error|].
  exact main_history_write_error.
Qed.

(** The theorem at five runs: the mail server is down, on a first run and
    on a run with a history; the Excel file cannot be written; the
    history file holds an opening brace; the history cannot be
    rewritten. *)
Lemma run_outcomes_witness :
  (exists st',
      main world_smtp_down state_fresh = (st', Ok tt)
      /\ is_Some (files st' !! PREVIOUS_DATA_FILE)
      /\ notifier_calls (trace st') = [[]])
  /\ (exists st',
         main world_smtp_down state_after_run = (st', Ok tt)
         /\ notifier_calls (trace st') = [[]])
  /\ (exists st',
         main world_excel_fails state_fresh = (st', Raise (OSError "No space left on device"))
         /\ files st' !! word_path world_excel_fails = None
         /\ files st' !! PREVIOUS_DATA_FILE = None
         /\ notifier_calls (trace st') = [])
  /\ (exists st' e,
         main world_ok state_bad_history = (st', Raise e)
         /\ scenario_load (TextFile (Utf8.encode "{")) = Some e
         /\ notifier_calls (trace st') = [])
  /\ (exists st',
         main world_history_fails state_after_run
         = (st', Raise (OSError "No space left on device"))
         /\ files st' !! PREVIOUS_DATA_FILE = Some (TextFile [])
         /\ notifier_calls (trace st') = [[("", "Aprovado", "Desfavoravel")]]).
Proof.
  destruct run_outcomes as (_ & _ & Hdone & Hwrite & Hcompare & Hhistory).
  assert (Hne : parse_html page_xyz <> []) by (vm_compute; discriminate).
  assert (Hne' : parse_html page_xyz_later <> []) by (vm_compute; discriminate).
  split; [|split; [|split; [|split]]].
  - destruct (Hdone world_smtp_down state_fresh page_xyz [] eq_refl Hne eq_refl
                eq_refl eq_refl) as (st' & Hrun & Hfile & Hcalls).
    exists st'. split; [exact Hrun|]. split; [rewrite Hfile; eauto|exact Hcalls].
  - destruct (Hdone world_smtp_down state_after_run page_xyz [] eq_refl Hne eq_refl)
      as (st' & Hrun & _ & Hcalls); [vm_compute; reflexivity|reflexivity|].
    exists st'. split; [exact Hrun|exact Hcalls].
  - destruct (Hwrite world_excel_fails state_fresh page_xyz
                (OSError "No space left on device") eq_refl Hne)
      as (st' & Hrun & Hframe & Hhist & Hcalls); [vm_compute; reflexivity|].
    exists st'. split; [exact Hrun|]. split; [|split; [exact Hhist|exact Hcalls]].
    rewrite Hframe; [reflexivity|].
    change (attempted_outputs world_excel_fails)
      with [json_path world_excel_fails; excel_path world_excel_fails].
    rewrite !elem_of_cons, elem_of_nil.
    intros [H|[H|[]]]; vm_compute in H; discriminate H.
  - destruct (Hcompare world_ok state_bad_history page_xyz
                (JSONDecodeError
                   ("Expecting property name enclosed in double quotes: "
                    ++ "line 1 column 2 (char 1)")) eq_refl Hne eq_refl)
      as (st' & Hrun & _ & Hcalls); [vm_compute; reflexivity|].
    eexists. eexists. split; [exact Hrun|]. split; [vm_compute; reflexivity|exact Hcalls].
  - destruct (Hhistory world_history_fails state_after_run page_xyz_later
                [("", "Aprovado", "Desfavoravel")] (OSError "No space left on device")
                eq_refl Hne' eq_refl)
      as (st' & Hrun & Hfile & Hcalls);
      [vm_compute; reflexivity|vm_compute; reflexivity|].
    exists st'. split; [exact Hrun|]. split; [exact Hfile|exact Hcalls].
Defined.

(** C5, counterexample.  The claim has the first run pass a marker that
    tells it from a run without changes.  On the same page, the run without
    a history file and the run whose history holds the same snapshot call
    the notifier once each, with the same argument, the empty list, and
    hand the same message to the mail server. *)
Lemma first_run_is_not_marked :
  files state_fresh !! PREVIOUS_DATA_FILE = None
  /\ is_Some (files state_after_run !! PREVIOUS_DATA_FILE)
  /\ notifier_calls (trace (fst (main world_ok state_fresh))) = [[]]
  /\ notifier_calls (trace (fst (main world_ok state_after_run))) = [[]]
  /\ messages_sent (trace (fst (main world_ok state_fresh)))
     = messages_sent (trace (fst (main world_ok state_after_run))).
Proof.
  split; [reflexivity|]. split; [vm_compute; eauto|].
  repeat split; vm_compute; reflexivity.
Qed.

(** C5, amended.  Without a history file the comparison stage is the call
    [send_email([])] and nothing else; so is the stage of a run whose
    history loads and whose comparison finds no change.  The notifier is
    given the empty list in both and no mark of a first run. *)
Theorem first_run_notifies_with_empty_list :
  (forall w instruments st,
      files st !! PREVIOUS_DATA_FILE = None ->
      compare_and_notify w instruments st = send_email w [] st)
  /\ (forall w instruments st old_data,
         is_Some (files st !! PREVIOUS_DATA_FILE) ->
         snd (load_json w PREVIOUS_DATA_FILE st) = Ok old_data ->
         diff_loaded w old_data instruments = Ok [] ->
         compare_and_notify w instruments st = send_email w [] st).
Proof.
  split; [exact compare_first_run|exact compare_no_changes].
Qed.

(** The theorem at the two runs of the counterexample. *)
Lemma first_run_notifies_with_empty_list_witness :
  compare_and_notify world_ok (parse_html page_xyz) state_fresh
  = send_email world_ok [] state_fresh
  /\ compare_and_notify world_ok (parse_html page_xyz) state_after_run
     = send_email world_ok [] state_after_run.
Proof.
  destruct first_run_notifies_with_empty_list as (Hfirst & Hsame).
  split.
  - apply Hfirst. reflexivity.
  - apply (Hsame _ _ _ (Records (parse_html page_xyz))).
    + vm_compute. eauto.
    + vm_compute. reflexivity.
    + vm_compute. reflexivity.
Defined.

End Orchestrator.

(** ** The snapshot file: writing and reading back (C8) *)

#[local] Arguments String.append : simpl nomatch.

Section StringFacts.

Lemma str_app_assoc (a b c : string) : (a ++ b) ++ c = a ++ (b ++ c).
Proof. induction a as [|x a IH]; simpl; [reflexivity|]. rewrite IH. reflexivity. Qed.

Lemma str_app_nil_r (a : string) : a ++ "" = a.
Proof. induction a as [|x a IH]; simpl; [reflexivity|]. rewrite IH. reflexivity. Qed.

Lemma join_tail_text sep x l : Str.join sep (x :: l) = x ++ Spec.tail_text sep l.
Proof.
  revert x. induction l as [|y l IH]; intros x.
  - simpl. rewrite str_app_nil_r. reflexivity.
  - change (Str.join sep (x :: y :: l)) with (x ++ sep ++ Str.join sep (y :: l)).
    rewrite IH. reflexivity.
Qed.

End StringFacts.

Section JsonFacts.
Import Json Spec.

(** One escaped character is read back as the character. *)
Lemma scan_escape_char c chunks rest :
  scan (InString chunks) (escape_char c ++ rest)
  = scan (InString (chunks ++ String c "")) rest.
Proof. destruct c as [[] [] [] [] [] [] [] []]; reflexivity. Qed.

Lemma scan_escape s chunks rest :
  scan (InString chunks) (escape s ++ String quote rest)
  = cons (StringLit (chunks ++ s)) <$> scan Between rest.
Proof.
  revert chunks. induction s as [|c s IH]; intros chunks.
  - simpl. rewrite str_app_nil_r. reflexivity.
  - change (escape (String c s)) with (escape_char c ++ escape s).
    rewrite str_app_assoc, scan_escape_char, IH.
    rewrite str_app_assoc. reflexivity.
Qed.

Lemma scan_basestring s rest toks :
  scan Between rest = Some toks ->
  scan Between (encode_basestring s ++ rest) = Some (StringLit s :: toks).
Proof.
  intros Hrest. unfold encode_basestring. simpl.
  rewrite str_app_assoc. simpl. rewrite scan_escape, Hrest. reflexivity.
Qed.

Lemma scan_spaces n rest : scan Between (spaces n ++ rest) = scan Between rest.
Proof. induction n as [|n IH]; simpl; [reflexivity|exact IH]. Qed.

Lemma scan_newline_indent n rest :
  scan Between (newline_indent n ++ rest) = scan Between rest.
Proof. unfold newline_indent. simpl. apply scan_spaces. Qed.

Lemma scan_colon rest : scan Between (": " ++ rest) = cons Colon <$> scan Between rest.
Proof. reflexivity. Qed.

Lemma scan_comma rest : scan Between ("," ++ rest) = cons Comma <$> scan Between rest.
Proof. reflexivity. Qed.

Lemma scan_item kv rest toks :
  scan Between rest = Some toks ->
  scan Between (encode_item kv ++ rest) = Some (tokens_item kv ++ toks)%list.
Proof.
  intros Hrest. unfold encode_item, tokens_item. rewrite !str_app_assoc.
  apply scan_basestring. rewrite scan_colon.
  rewrite (scan_basestring _ _ _ Hrest). reflexivity.
Qed.

Lemma scan_tail_items n l rest toks :
  scan Between rest = Some toks ->
  scan Between (tail_text ("," ++ newline_indent n) (map encode_item l) ++ rest)
  = Some (tail_items l ++ toks)%list.
Proof.
  intros Hrest. induction l as [|kv l IH]; [exact Hrest|].
  change (tail_items (kv :: l)) with (Comma :: tokens_item kv ++ tail_items l)%list.
  change (tail_text ("," ++ newline_indent n) (map encode_item (kv :: l)))
    with (("," ++ newline_indent n) ++ encode_item kv
          ++ tail_text ("," ++ newline_indent n) (map encode_item l)).
  rewrite !str_app_assoc. rewrite scan_comma, scan_newline_indent.
  rewrite (scan_item _ _ _ IH). unfold tokens_item. simpl. reflexivity.
Qed.

Lemma scan_dict n d rest toks :
  scan Between rest = Some toks ->
  scan Between (encode_dict n d ++ rest) = Some (tokens_dict d ++ toks)%list.
Proof.
  intros Hrest. destruct d as [|kv l].
  - simpl. rewrite Hrest. reflexivity.
  - unfold encode_dict, tokens_dict.
    change (map encode_item (kv :: l)) with (encode_item kv :: map encode_item l).
    rewrite join_tail_text, !str_app_assoc.
    change (scan Between ("{" ++ ?x)) with (cons LBrace <$> scan Between x).
    rewrite scan_newline_indent.
    erewrite scan_item; [unfold tokens_item; simpl; rewrite <- !app_assoc; reflexivity|].
    erewrite scan_tail_items; [reflexivity|].
    rewrite scan_newline_indent. simpl. rewrite Hrest. reflexivity.
Qed.

Lemma scan_tail_dicts n l rest toks :
  scan Between rest = Some toks ->
  scan Between (tail_text ("," ++ newline_indent n) (map (encode_dict n) l) ++ rest)
  = Some (tail_dicts l ++ toks)%list.
Proof.
  intros Hrest. induction l as [|d l IH]; [exact Hrest|].
  change (tail_dicts (d :: l)) with (Comma :: tokens_dict d ++ tail_dicts l)%list.
  change (tail_text ("," ++ newline_indent n) (map (encode_dict n) (d :: l)))
    with (("," ++ newline_indent n) ++ encode_dict n d
          ++ tail_text ("," ++ newline_indent n) (map (encode_dict n) l)).
  rewrite !str_app_assoc. rewrite scan_comma, scan_newline_indent.
  rewrite (scan_dict _ _ _ _ IH). simpl. rewrite <- app_assoc. reflexivity.
Qed.

(** The scanner reads what the encoder wrote. *)
Lemma scan_dumps data : scan Between (dumps data) = Some (tokens_list data).
Proof.
  unfold dumps. destruct data as [|d l]; [reflexivity|].
  unfold encode_list, tokens_list.
  change (map (encode_dict 1) (d :: l)) with (encode_dict 1 d :: map (encode_dict 1) l).
  rewrite join_tail_text, !str_app_assoc.
  change (scan Between ("[" ++ ?x)) with (cons LBracket <$> scan Between x).
  rewrite scan_newline_indent.
  erewrite scan_dict; [reflexivity|].
  erewrite scan_tail_dicts; [reflexivity|].
  reflexivity.
Qed.

(** The members of an object after the first: each is appended to the
    pairs read so far, as its key is new. *)
Lemma parse_tail_items (l pairs : dict string) rest :
  NoDup (dict_keys (pairs ++ l)%list) ->
  parse AfterValue pairs (tail_items l ++ RBrace :: rest)
  = cons (pairs ++ l)%list <$> parse AfterObject [] rest.
Proof.
  revert pairs. induction l as [|[k v] l IH]; intros pairs Hnodup.
  - simpl. rewrite app_nil_r. reflexivity.
  - change (tail_items ((k, v) :: l))
      with (Comma :: StringLit k :: Colon :: StringLit v :: tail_items l)%list.
    simpl. rewrite dict_set_notin.
    + rewrite IH.
      * rewrite <- app_assoc. reflexivity.
      * rewrite <- app_assoc. exact Hnodup.
    + unfold dict_keys in *. rewrite map_app in Hnodup. simpl in Hnodup.
      apply NoDup_app in Hnodup as (_ & Hdisj & _).
      intros Hin. apply (Hdisj k Hin). apply list_elem_of_here.
Qed.

Lemma parse_dict d rest :
  dict_wf d ->
  parse ObjectOpen [] (tail (tokens_dict d) ++ rest)
  = cons d <$> parse AfterObject [] rest.
Proof.
  intros Hwf. destruct d as [|[k v] l]; [reflexivity|].
  unfold tokens_dict, tokens_item. simpl tail. simpl.
  rewrite <- app_assoc. simpl.
  apply (parse_tail_items l [(k, v)] rest). exact Hwf.
Qed.

Lemma parse_tail_dicts l :
  Forall dict_wf l ->
  parse AfterObject [] (tail_dicts l ++ [RBracket]) = Some l.
Proof.
  induction 1 as [|d l Hd _ IH]; [reflexivity|].
  change (tail_dicts (d :: l)) with (Comma :: tokens_dict d ++ tail_dicts l)%list.
  change (tokens_dict d) with (LBrace :: tail (tokens_dict d)).
  rewrite <- !app_comm_cons, <- app_assoc.
  change (parse AfterObject [] (Comma :: LBrace :: ?x)) with (parse ObjectOpen [] x).
  rewrite (parse_dict d _ Hd), IH. reflexivity.
Qed.

Lemma parse_tokens_list data :
  Forall dict_wf data -> parse Start [] (tokens_list data) = Some data.
Proof.
  intros Hwf. destruct data as [|d l]; [reflexivity|].
  apply Forall_cons in Hwf as [Hd Hl].
  unfold tokens_list. change (tokens_dict d) with (LBrace :: tail (tokens_dict d)).
  rewrite <- !app_comm_cons.
  change (parse Start [] (LBracket :: LBrace :: ?x)) with (parse ObjectOpen [] x).
  rewrite (parse_dict d _ Hd), (parse_tail_dicts l Hl). reflexivity.
Qed.

Lemma loads_dumps data : Forall dict_wf data -> loads (dumps data) = Some data.
Proof.
  intros Hwf. unfold loads. rewrite scan_dumps.
  change (Some (tokens_list data) ≫= parse Start [])
    with (parse Start [] (tokens_list data)).
  rewrite (parse_tokens_list data Hwf). reflexivity.
Qed.

End JsonFacts.

Section Utf8Facts.
Import Utf8.

Lemma decode_encode_char c rest :
  decode (encode_char c ++ rest)%list = String c <$> decode rest.
Proof. destruct c as [[] [] [] [] [] [] [] []]; reflexivity. Qed.

Lemma decode_encode s : decode (encode s) = Some s.
Proof.
  induction s as [|c s IH]; [reflexivity|].
  change (encode (String c s)) with (encode_char c ++ encode s)%list.
  rewrite decode_encode_char, IH. reflexivity.
Qed.

End Utf8Facts.

Section SnapshotFile.
Import Bs4 Config Scraper Pipeline Spec Examples.

Lemma snapshot_of_dumps data :
  Forall dict_wf data ->
  snapshot_of (TextFile (Utf8.encode (Json.dumps data))) = Some data.
Proof.
  intros Hwf. unfold snapshot_of. rewrite decode_encode.
  change (Some (Json.dumps data) ≫= Json.loads) with (Json.loads (Json.dumps data)).
  apply loads_dumps, Hwf.
Qed.

Lemma save_then_load w data path st :
  Forall dict_wf data ->
  write_error w path = None ->
  exists st',
    save_json w data path st = (st', Ok tt)
    /\ load_json w path st' = (st', Ok (Records data)).
Proof.
  intros Hwf Hwrite. unfold save_json. rewrite write_file_ok by exact Hwrite.
  eexists. split; [reflexivity|].
  unfold load_json. cbn [files]. rewrite lookup_insert_eq.
  rewrite (snapshot_of_dumps data Hwf). reflexivity.
Qed.

(** C8.  For every sequence of records (dicts from strings to strings, no
    key twice), what [json.dump] writes is read back by [json.load] as the
    same sequence: the same records in the same order, each with the same
    fields and values (and here also in the same field order, which is
    more than equality of dicts asks).  The utf-8 encoding of the file
    gives the text back, and so [load_json] after a [save_json] that
    succeeded returns the sequence that was saved. *)
Theorem json_round_trip :
  (forall data, Forall dict_wf data -> Json.loads (Json.dumps data) = Some data)
  /\ (forall text, Utf8.decode (Utf8.encode text) = Some text)
  /\ (forall w data path st,
         Forall dict_wf data ->
         write_error w path = None ->
         exists st',
           save_json w data path st = (st', Ok tt)
           /\ load_json w path st' = (st', Ok (Records data))
           /\ forall loaded, snd (load_json w path st') = Ok loaded ->
                exists records,
                  loaded = Records records /\ Forall2 dict_equiv data records).
Proof.
  split; [exact loads_dumps|]. split; [exact decode_encode|].
  intros w data path st Hwf Hwrite.
  destruct (save_then_load w data path st Hwf Hwrite) as (st' & Hsave & Hload).
  exists st'. split; [exact Hsave|]. split; [exact Hload|].
  intros loaded Hloaded. rewrite Hload in Hloaded. simpl in Hloaded.
  injection Hloaded as <-. exists data. split; [reflexivity|].
  clear. induction data as [|d data IH]; constructor.
  - intros k. reflexivity.
  - exact IH.
Qed.

(** The theorem at a snapshot with a quote, a backslash, control
    characters and a letter above U+007F, an empty record and an empty
    value. *)
Lemma json_round_trip_witness :
  Json.loads (Json.dumps snapshot_escapes) = Some snapshot_escapes
  /\ (exists st',
         save_json world_ok snapshot_escapes PREVIOUS_DATA_FILE state_fresh = (st', Ok tt)
         /\ load_json world_ok PREVIOUS_DATA_FILE st'
            = (st', Ok (Records snapshot_escapes))).
Proof.
  destruct json_round_trip as (Hloads & _ & Hfile).
  assert (Hwf : Forall dict_wf snapshot_escapes).
  { unfold snapshot_escapes, dict_wf, dict_keys. simpl.
    repeat constructor; rewrite ?elem_of_cons, ?elem_of_nil; intuition discriminate. }
  split.
  - apply Hloads, Hwf.
  - destruct (Hfile world_ok snapshot_escapes PREVIOUS_DATA_FILE state_fresh Hwf eq_refl)
      as (st' & Hsave & Hload & _).
    exists st'. split; [exact Hsave|exact Hload].
Defined.

End SnapshotFile.

(** ** Link-based extraction as written (C4) *)

Section LinkExtraction.
Import Bs4 Config Scraper Spec Examples.

Lemma parse_anchor_raises a sib rest :
  parse_anchor BeautifulSoup_getattr (a, sib :: rest)
  = Raise (AttributeError "type object 'BeautifulSoup' has no attribute 'Tag'").
Proof. reflexivity. Qed.

Lemma rmap_anchors_raise (anchors : list located) :
  Exists (fun a => snd a <> []) anchors ->
  rmap (parse_anchor BeautifulSoup_getattr) anchors
  = Raise (AttributeError "type object 'BeautifulSoup' has no attribute 'Tag'").
Proof.
  induction anchors as [|[a sibs] anchors IH]; intros Hex; [inversion Hex|].
  change (rmap (parse_anchor BeautifulSoup_getattr) ((a, sibs) :: anchors))
    with (y ← parse_anchor BeautifulSoup_getattr (a, sibs);
          ys ← rmap (parse_anchor BeautifulSoup_getattr) anchors; Ok (y :: ys)).
  destruct sibs as [|sib rest].
  - rewrite IH; [reflexivity|].
    inversion Hex as [? ? Hhere|? ? Hlater]; subst; [contradiction|exact Hlater].
  - rewrite parse_anchor_raises. reflexivity.
Qed.

(** C4.  The loop over the siblings of an anchor names the node classes as
    attributes of the class [BeautifulSoup], which has none of that name:
    the first sibling of the first anchor that has one raises
    [AttributeError] and no record is returned.  On [<a>+ Memoria</a>
    Autores: Silva] the code raises, where the claim (and the same loop
    with the class names bound as in [bs4.element]) gives one record with
    the construct [Memoria] and the authors [Silva].  Only a document whose
    anchors have no sibling at all gets its records, each with the
    construct alone. *)
Theorem parse_links_raises_at_first_sibling :
  parse_links anchor_with_field
  = Raise (AttributeError "type object 'BeautifulSoup' has no attribute 'Tag'")
  /\ (exists rec,
         parse_links_in element_getattr anchor_with_field = Ok [rec]
         /\ dict_get "Construto" rec = Some "Memoria"
         /\ dict_get "Autores" rec = Some "Silva")
  /\ (forall soup,
         Exists (fun a => snd a <> []) (find_all_located plus_anchor soup) ->
         parse_links soup
         = Raise (AttributeError "type object 'BeautifulSoup' has no attribute 'Tag'"))
  /\ (forall soup,
         Forall (fun a => snd a = []) (find_all_located plus_anchor soup) ->
         parse_links soup
         = Ok (map (fun a => dict_set "Construto"
                               (Str.strip (Str.tail (get_text "" (fst a))))
                               (blank_record ""))
                   (find_all_located plus_anchor soup))).
Proof.
  split; [reflexivity|]. split; [|split].
  - eexists. split; [vm_compute; reflexivity|]. split; reflexivity.
  - intros soup Hex. unfold parse_links, parse_links_in. apply rmap_anchors_raise, Hex.
  - intros soup Hall. unfold parse_links, parse_links_in. apply rmap_total.
    intros [a sibs] Hin. rewrite Forall_forall in Hall.
    specialize (Hall _ Hin). simpl in Hall. subst sibs. reflexivity.
Qed.

End LinkExtraction.

(** * Further properties of the code *)

(** ** The change detector on snapshots with unique constructs *)

Section DetectorExtras.
Import Bs4 Config Scraper Pipeline Spec Examples.

Lemma filter_unique_key (data : list (dict string)) r :
  unique_constructs data -> r ∈ data ->
  List.filter (fun x => String.eqb (construct_of x) (construct_of r)) data = [r].
Proof.
  unfold unique_constructs. induction data as [|x data IH]; intros Hnd Hin.
  - inversion Hin.
  - simpl in Hnd. apply NoDup_cons in Hnd as [Hx Hnd]. simpl.
    apply elem_of_cons in Hin as [->|Hin].
    + rewrite String.eqb_refl. f_equal.
      clear IH Hnd. induction data as [|y data IH]; [reflexivity|]. simpl.
      destruct (String.eqb_spec (construct_of y) (construct_of x)) as [Heq|Hne].
      * exfalso. apply Hx. simpl. rewrite Heq. apply list_elem_of_here.
      * apply IH. intros H. apply Hx. simpl. apply list_elem_of_further, H.
    + destruct (String.eqb_spec (construct_of x) (construct_of r)) as [Heq|Hne].
      * exfalso. apply Hx. rewrite Heq. apply list_elem_of_fmap. eauto.
      * apply IH; assumption.
Qed.

Lemma last_status_unique data r :
  unique_constructs data -> r ∈ data ->
  last_status_by construct_of data (construct_of r) = Some (status_of r).
Proof.
  intros Hnd Hin. unfold last_status_by.
  rewrite (filter_unique_key data r Hnd Hin). reflexivity.
Qed.

Lemma last_status_unique_iff data k s :
  unique_constructs data ->
  last_status_by construct_of data k = Some s
  <-> exists r, r ∈ data /\ construct_of r = k /\ status_of r = s.
Proof.
  intros Hnd. split.
  - apply last_status_by_Some.
  - intros (r & Hin & <- & <-). apply last_status_unique; assumption.
Qed.

Lemma transitions_elem old new k s_old s_new :
  (k, s_old, s_new) ∈ transitions_spec old new
  <-> exists r, r ∈ new /\ construct_of r = k /\ status_of r = s_new
                /\ last_status_by construct_of old k = Some s_old
                /\ s_old <> s_new.
Proof.
  unfold transitions_spec, transitions_by.
  rewrite list_elem_of_omap. unfold transition_of. split.
  - intros (r & Hr & E). exists r. split; [exact Hr|].
    destruct (last_status_by construct_of old (construct_of r)) as [s|] eqn:El;
      [|discriminate].
    destruct (String.eqb_spec s (status_of r)) as [|Hne]; [discriminate|].
    injection E as <- <- <-. auto.
  - intros (r & Hr & <- & <- & El & Hne). exists r. split; [exact Hr|].
    rewrite El. destruct (String.eqb_spec s_old (status_of r)); [contradiction|].
    reflexivity.
Qed.

(** X1.  A snapshot compared with itself shows no change, provided that no
    two of its records carry the same construct (and each carries the key).
    The condition is needed: with a construct listed twice under two
    statuses, the last one is the old status of both, and the first record
    is reported as changed. *)
Theorem diff_status_same_snapshot :
  (forall data,
      Forall has_construct data -> unique_constructs data ->
      diff_status data data = Ok [])
  /\ diff_status snapshot_duplicate snapshot_duplicate
     = Ok [("A", "Reprovado", "Aprovado")].
Proof.
  split; [|reflexivity].
  intros data Hkeys Hnd. rewrite (diff_status_transitions data data Hkeys Hkeys).
  f_equal. destruct (transitions_spec data data) as [|[[k a] b] ts] eqn:E; [reflexivity|].
  exfalso.
  assert (Hin : (k, a, b) ∈ transitions_spec data data)
    by (rewrite E; apply list_elem_of_here).
  apply transitions_elem in Hin as (r & Hr & <- & <- & Hlast & Hne).
  rewrite (last_status_unique data r Hnd Hr) in Hlast. congruence.
Qed.

(** The theorem at the scenario's new snapshot. *)
Lemma diff_status_same_snapshot_witness : diff_status new_AB new_AB = Ok [].
Proof.
  apply (proj1 diff_status_same_snapshot).
  - repeat constructor; eexists; reflexivity.
  - unfold unique_constructs. vm_compute.
    repeat constructor; rewrite ?elem_of_cons, ?elem_of_nil; intuition discriminate.
Defined.

(** X2.  On two snapshots with unique constructs the detector is
    symmetric: a change of a key from one status to another, seen from the
    old snapshot to the new one, is the reverse change seen from the new
    one to the old one. *)
Theorem diff_status_reversed :
  forall old new,
    Forall has_construct old -> Forall has_construct new ->
    unique_constructs old -> unique_constructs new ->
    exists forth back,
      diff_status old new = Ok forth
      /\ diff_status new old = Ok back
      /\ forall k a b, (k, a, b) ∈ forth <-> (k, b, a) ∈ back.
Proof.
  intros old new Hold Hnew Uold Unew.
  exists (transitions_spec old new), (transitions_spec new old).
  split; [apply diff_status_transitions; assumption|].
  split; [apply diff_status_transitions; assumption|].
  intros k a b. rewrite !transitions_elem. split.
  - intros (r & Hr & Hk & Hs & Hlast & Hne).
    apply (last_status_unique_iff old k a Uold) in Hlast as (r' & Hr' & Hk' & Hs').
    exists r'. split; [exact Hr'|]. split; [exact Hk'|]. split; [exact Hs'|].
    split; [|congruence].
    apply (last_status_unique_iff new k b Unew). eauto.
  - intros (r & Hr & Hk & Hs & Hlast & Hne).
    apply (last_status_unique_iff new k b Unew) in Hlast as (r' & Hr' & Hk' & Hs').
    exists r'. split; [exact Hr'|]. split; [exact Hk'|]. split; [exact Hs'|].
    split; [|congruence].
    apply (last_status_unique_iff old k a Uold). eauto.
Qed.

(** The theorem at the snapshots of the scenario. *)
Lemma diff_status_reversed_witness :
  exists forth back,
    diff_status old_A new_AB = Ok forth
    /\ diff_status new_AB old_A = Ok back
    /\ forall k a b, (k, a, b) ∈ forth <-> (k, b, a) ∈ back.
Proof.
  apply diff_status_reversed.
  - repeat constructor; eexists; reflexivity.
  - repeat constructor; eexists; reflexivity.
  - unfold unique_constructs. vm_compute.
    repeat constructor; rewrite ?elem_of_cons, ?elem_of_nil; intuition discriminate.
  - unfold unique_constructs. vm_compute.
    repeat constructor; rewrite ?elem_of_cons, ?elem_of_nil; intuition discriminate.
Defined.

End DetectorExtras.

(** ** The notifier and the writers *)

Section WriterExtras.
Import Bs4 Config Scraper Pipeline Spec Examples.

Lemma messages_sent_app t1 t2 :
  messages_sent (t1 ++ t2) = (messages_sent t1 ++ messages_sent t2)%list.
Proof. unfold messages_sent. apply omap_app. Qed.

Lemma success_line_not_error e : Printed mail_success_line <> Printed (mail_error_line e).
Proof.
  unfold mail_success_line, mail_error_line. intros H. injection H as H.
  simpl in H. discriminate H.
Qed.

(** X3.  [send_email] never raises and never touches a file; after the
    record of the call it only prints and hands messages to the mail
    server.  It hands over at most one message, the body made of the
    changes: none when the mail settings are missing, exactly one when
    they are there and the SMTP dialogue does not fail.  When the
    dialogue fails, the error line is printed instead of the success
    line, and the message may have been handed over all the same (the
    dialogue can fail after [send_message], at [quit]) or not; so the
    success line in the output tells that the message went out, and its
    absence does not tell that it did not.  The message of a call without
    changes is different from the message of every call with changes. *)
Theorem send_email_contract :
  (forall w changes st,
      exists events,
        send_email w changes st
        = (mkState (files st) (trace st ++ SendEmailCalled changes :: events)%list, Ok tt)
        /\ notifier_calls events = []
        /\ (messages_sent events = [] \/ messages_sent events = [email_body changes])
        /\ (email_configured w = false -> messages_sent events = [])
        /\ (email_configured w = true -> smtp_error w = None ->
            messages_sent events = [email_body changes]
            /\ Printed mail_success_line ∈ events)
        /\ (Printed mail_success_line ∈ events ->
            messages_sent events = [email_body changes])
        /\ (forall e,
              email_configured w = true -> smtp_error w = Some e ->
              Printed (mail_error_line e) ∈ events
              /\ (Printed mail_success_line ∉ events)
              /\ messages_sent events
                 = (if smtp_handed_over w then [email_body changes] else [])))
  /\ (forall c changes, email_body [] <> email_body (c :: changes)).
Proof.
  split.
  - intros w changes st. unfold send_email, send_email_body.
    rewrite bind_run, emit_run. cbv beta iota.
    destruct (email_configured w); unfold negb; cbv beta iota.
    + destruct (smtp_error w) as [e|]; cbv beta iota.
      * rewrite bind_run. destruct (smtp_handed_over w).
        -- rewrite emit_run. cbv beta iota. rewrite print_run. cbn [files trace].
           rewrite <- !app_assoc.
           exists [MessageSent (email_body changes); Printed (mail_error_line e)].
           split; [reflexivity|]. split; [reflexivity|]. split; [right; reflexivity|].
           split; [discriminate|]. split; [discriminate|]. split.
           ++ rewrite !elem_of_cons, elem_of_nil.
              intros [H|[H|[]]]; [discriminate H|].
              exfalso. exact (success_line_not_error e H).
           ++ intros e' _ [= <-]. split; [|split; [|reflexivity]].
              ** apply list_elem_of_further, list_elem_of_here.
              ** rewrite !elem_of_cons, elem_of_nil.
                 intros [H|[H|[]]]; [discriminate H|].
                 exact (success_line_not_error e H).
        -- unfold mret, io_ret. cbv beta iota. rewrite print_run. cbn [files trace].
           rewrite <- !app_assoc.
           exists [Printed (mail_error_line e)].
           split; [reflexivity|]. split; [reflexivity|]. split; [left; reflexivity|].
           split; [discriminate|]. split; [discriminate|]. split.
           ++ rewrite !elem_of_cons, elem_of_nil. intros [H|[]].
              exfalso. exact (success_line_not_error e H).
           ++ intros e' _ [= <-]. split; [|split; [|reflexivity]].
              ** apply list_elem_of_here.
              ** rewrite !elem_of_cons, elem_of_nil. intros [H|[]].
                 exact (success_line_not_error e H).
      * rewrite bind_run, emit_run. cbv beta iota. rewrite print_run. cbn [files trace].
        rewrite <- !app_assoc.
        exists [MessageSent (email_body changes); Printed mail_success_line].
        split; [reflexivity|]. split; [reflexivity|]. split; [right; reflexivity|].
        split; [discriminate|]. split.
        -- intros _ _. split; [reflexivity|].
           apply list_elem_of_further, list_elem_of_here.
        -- split; [reflexivity|]. intros e _ H. discriminate H.
    + rewrite print_run. cbn [files trace]. rewrite <- !app_assoc.
      eexists [Printed _].
      split; [reflexivity|]. split; [reflexivity|]. split; [left; reflexivity|].
      split; [reflexivity|]. split; [discriminate|]. split.
      * rewrite !elem_of_cons, elem_of_nil. intros [H|[]].
        injection H as H. vm_compute in H. discriminate H.
      * intros e H. discriminate H.
  - intros c changes H. vm_compute in H. discriminate H.
Qed.

(** The theorem at a dialogue that fails at [quit]: the message went out,
    and the run prints the error line and not the success line. *)
Lemma send_email_contract_witness :
  exists events,
    send_email world_smtp_quit_fails [] state_fresh
    = (mkState ∅ (SendEmailCalled [] :: events), Ok tt)
    /\ messages_sent events = [email_body []]
    /\ Printed (mail_error_line (OSError "Connection reset by peer")) ∈ events
    /\ (Printed mail_success_line ∉ events).
Proof.
  destruct (proj1 send_email_contract world_smtp_quit_fails [] state_fresh)
    as (events & Hrun & _ & _ & _ & _ & _ & Hfail).
  destruct (Hfail (OSError "Connection reset by peer") eq_refl eq_refl)
    as (Herror & Hsuccess & Hsent).
  exists events. split; [exact Hrun|]. split; [exact Hsent|].
  split; [exact Herror|exact Hsuccess].
Defined.

Lemma keyless_word_section data :
  Exists (fun r => dict_get "Construto" r = None) data ->
  rmap word_section data = Raise (KeyError "Construto").
Proof.
  induction data as [|r data IH]; intros Hex; [inversion Hex|].
  change (rmap word_section (r :: data))
    with (y ← word_section r; ys ← rmap word_section data; Ok (y :: ys)).
  destruct (dict_get "Construto" r) as [c|] eqn:E.
  - rewrite IH by (inversion Hex as [? ? Hr|? ? Hrest]; subst; [congruence|exact Hrest]).
    unfold word_section. rewrite (dict_getitem_Some _ _ _ E). reflexivity.
  - unfold word_section. rewrite (dict_getitem_None _ _ E). reflexivity.
Qed.

Lemma headings_app level b1 b2 :
  headings level (b1 ++ b2) = (headings level b1 ++ headings level b2)%list.
Proof. unfold headings. apply omap_app. Qed.

Lemma paragraphs_app b1 b2 :
  paragraphs (b1 ++ b2) = (paragraphs b1 ++ paragraphs b2)%list.
Proof. unfold paragraphs. apply omap_app. Qed.

Lemma field_paragraphs (l : list (string * string)) :
  headings 2 (map (fun kv => Paragraph (fst kv ++ ": " ++ snd kv)) l) = []
  /\ headings 1 (map (fun kv => Paragraph (fst kv ++ ": " ++ snd kv)) l) = []
  /\ length (paragraphs (map (fun kv => Paragraph (fst kv ++ ": " ++ snd kv)) l))
     = length l.
Proof.
  induction l as [|kv l (IH2 & IH1 & IHp)]; [repeat split; reflexivity|].
  repeat split; [exact IH2|exact IH1|].
  change (length (paragraphs (map (fun kv => Paragraph (fst kv ++ ": " ++ snd kv)) (kv :: l))))
    with (S (length (paragraphs (map (fun kv => Paragraph (fst kv ++ ": " ++ snd kv)) l)))).
  rewrite IHp. reflexivity.
Qed.

Lemma word_sections_shape data :
  Forall has_construct data ->
  exists sections,
    rmap word_section data = Ok sections
    /\ headings 2 (concat sections) = map construct_of data
    /\ headings 1 (concat sections) = []
    /\ length (paragraphs (concat sections))
       = length (concat (map nonempty_fields data)).
Proof.
  induction 1 as [|r data Hr _ (sections & IH & Hh2 & Hh1 & Hp)].
  - exists []. repeat split; reflexivity.
  - change (rmap word_section (r :: data))
      with (y ← word_section r; ys ← rmap word_section data; Ok (y :: ys)).
    assert (Hsec : word_section r
                   = Ok (Heading 2 (construct_of r)
                         :: map (fun kv => Paragraph (fst kv ++ ": " ++ snd kv))
                                (nonempty_fields r)))
      by (unfold word_section; rewrite (has_construct_getitem r Hr); reflexivity).
    rewrite Hsec, IH.
    eexists. split; [reflexivity|].
    destruct (field_paragraphs (nonempty_fields r)) as (P2 & P1 & Pp).
    change (concat (?x :: sections)) with (x ++ concat sections)%list.
    rewrite !headings_app, paragraphs_app, Hh2, Hh1.
    change (headings 2 (Heading 2 ?c :: ?l)) with (c :: headings 2 l).
    change (headings 1 (Heading 2 ?c :: ?l)) with (headings 1 l).
    change (paragraphs (Heading 2 ?c :: ?l)) with (paragraphs l).
    rewrite P2, P1. split; [reflexivity|]. split; [reflexivity|].
    change (concat (map nonempty_fields (r :: data)))
      with (nonempty_fields r ++ concat (map nonempty_fields data))%list.
    rewrite !length_app, Pp, Hp. reflexivity.
Qed.

(** X4.  [generate_word] reads the construct of every record before it
    saves anything: one record without the key [Construto] makes it raise
    [KeyError] and leaves no file.  Otherwise the document it saves has the
    dated title as its only level-1 heading, one level-2 heading per
    record, in order, with the construct as its text, and as many
    paragraphs as there are non-empty fields; an empty field gets none. *)
Theorem generate_word_document :
  (forall w data path st,
      Exists (fun r => dict_get "Construto" r = None) data ->
      generate_word w data path st = (st, Raise (KeyError "Construto")))
  /\ (forall w data path st,
         Forall has_construct data ->
         write_error w path = None ->
         exists blocks,
           generate_word w data path st
           = (mkState (<[path := WordDocument blocks]> (files st)) (trace st), Ok tt)
           /\ headings 1 blocks = ["Instrumentos SATEPSI (" ++ today w ++ ")"]
           /\ headings 2 blocks = map construct_of data
           /\ length (paragraphs blocks) = length (concat (map nonempty_fields data))).
Proof.
  split.
  - intros w data path st Hex. unfold generate_word. rewrite bind_run. unfold lift.
    rewrite (keyless_word_section data Hex). reflexivity.
  - intros w data path st Hkeys Hwrite.
    destruct (word_sections_shape data Hkeys) as (sections & Hs & Hh2 & Hh1 & Hp).
    unfold generate_word. rewrite bind_run. unfold lift. rewrite Hs. cbv beta iota.
    rewrite write_file_ok by exact Hwrite. eexists. split; [reflexivity|].
    change (headings 1 (Heading 1 ?c :: ?l)) with (c :: headings 1 l).
    change (headings 2 (Heading 1 ?c :: ?l)) with (headings 2 l).
    change (paragraphs (Heading 1 ?c :: ?l)) with (paragraphs l).
    rewrite Hh1, Hh2, Hp. repeat split; reflexivity.
Qed.

(** The theorem at the records of the scenario page and at a record
    without the key. *)
Lemma generate_word_document_witness :
  generate_word world_ok old_keyless "report.docx" state_fresh
  = (state_fresh, Raise (KeyError "Construto"))
  /\ exists blocks,
       generate_word world_ok (parse_html page_xyz) "report.docx" state_fresh
       = (mkState (<["report.docx" := WordDocument blocks]> ∅) [], Ok tt)
       /\ headings 2 blocks = [""]
       /\ length (paragraphs blocks) = 2%nat.
Proof.
  destruct generate_word_document as (Hraise & Hdoc).
  split.
  - apply Hraise. constructor. reflexivity.
  - destruct (Hdoc world_ok (parse_html page_xyz) "report.docx" state_fresh)
      as (blocks & Hrun & _ & Hh2 & Hp);
      [apply parse_html_has_construct|reflexivity|].
    exists blocks. split; [exact Hrun|]. split; [exact Hh2|exact Hp].
Defined.

Lemma canonical_column c :
  c ∈ "Nome" :: mapped_fields -> c ∈ canonical_fields.
Proof.
  intros Hc. unfold canonical_fields.
  apply elem_of_cons in Hc as [->|Hc].
  - apply elem_of_app. right. apply list_elem_of_here.
  - apply elem_of_app. left. exact Hc.
Qed.

(** X5.  When its write does not fail, [save_excel] leaves a sheet that
    has [Nome] as its first column and then the eleven internal names of
    the field map, no column twice (the test against [Nome] in the source
    removes nothing), and one row per record, in order.  For the records
    of [parse_html] every record has a value for every column, and a cell
    holds that value when it is not the empty string; the cell of an
    empty value is an empty cell, as the cell of a missing key would be,
    so that a field left empty by the extraction is read back from the
    sheet as a missing value and not as a string. *)
Theorem save_excel_sheet :
  forall w soup path st,
    write_error w path = None ->
    exists rows,
      save_excel w (parse_html soup) path st
      = (mkState (<[path := Workbook ("Nome" :: mapped_fields) rows]> (files st))
                 (trace st), Ok tt)
      /\ NoDup ("Nome" :: mapped_fields)
      /\ Forall2
           (fun rec row =>
              length row = 12%nat
              /\ forall i c,
                   ("Nome" :: mapped_fields) !! i = Some c ->
                   exists v,
                     dict_get c rec = Some v
                     /\ row !! i = Some (if nonempty v then Some v else None))
           (parse_html soup) rows.
Proof.
  intros w soup path st Hwrite. unfold save_excel.
  rewrite write_file_ok by exact Hwrite. eexists. split; [reflexivity|].
  split.
  - vm_compute. repeat constructor; rewrite ?elem_of_cons, ?elem_of_nil; intuition discriminate.
  - assert (Hall : Forall (fun rec => dict_keys rec = canonical_fields) (parse_html soup)).
    { apply Forall_forall. intros rec Hrec.
      apply parse_html_elem in Hrec as (item & Hitem).
      apply parse_item_keys in Hitem. exact Hitem. }
    induction Hall as [|rec data Hrec _ IH]; [constructor|].
    constructor; [|exact IH]. split; [reflexivity|].
    intros i c Hcol.
    destruct (dict_keys_get c rec) as (v & Hv).
    { rewrite Hrec. apply canonical_column.
      apply list_elem_of_lookup. exists i. exact Hcol. }
    exists v. split; [exact Hv|].
    change (List.filter (fun c0 => negb (String.eqb c0 "Nome")) (dict_values FIELD_MAP))
      with mapped_fields.
    rewrite list_lookup_fmap, Hcol. simpl. rewrite Hv. reflexivity.
Qed.

(** The theorem at the scenario page: one row, with the name in its first
    cell and an empty cell for the construct, which the page leaves
    empty. *)
Lemma save_excel_sheet_witness :
  exists row,
    save_excel world_ok (parse_html page_xyz) "sheet.xlsx" state_fresh
    = (mkState (<["sheet.xlsx" := Workbook ("Nome" :: mapped_fields) [row]]> ∅) [], Ok tt)
    /\ length row = 12%nat
    /\ row !! 0%nat = Some (Some "Teste XYZ")
    /\ row !! 4%nat = Some None.
Proof.
  destruct (save_excel_sheet world_ok page_xyz "sheet.xlsx" state_fresh eq_refl)
    as (rows & Hrun & _ & Hrows).
  assert (Hpage : exists rec,
             parse_html page_xyz = [rec]
             /\ dict_get "Nome" rec = Some "Teste XYZ"
             /\ dict_get "Construto" rec = Some "")
    by (eexists; repeat split; vm_compute; reflexivity).
  destruct Hpage as (rec & Hpage & Hname & Hconstruct). rewrite Hpage in Hrows.
  inversion Hrows as [|? row ? rest [Hlen Hcells] Hrest]; subst.
  inversion Hrest; subst.
  exists row. split; [exact Hrun|]. split; [exact Hlen|]. split.
  - destruct (Hcells 0%nat "Nome" eq_refl) as (v & Hv & Hcell).
    rewrite Hname in Hv. injection Hv as <-. exact Hcell.
  - destruct (Hcells 4%nat "Construto" eq_refl) as (v & Hv & Hcell).
    rewrite Hconstruct in Hv. injection Hv as <-. exact Hcell.
Defined.

End WriterExtras.

(** ** The extractors: count, order, overriding and errors *)

Section ExtractorExtras.
Import Bs4 Config Scraper Pipeline Spec Examples.

Lemma parse_item_Nome item header rec :
  find_child (named "a") item = Some header ->
  parse_item item = Some rec ->
  dict_get "Nome" rec = Some (title_of header).
Proof.
  intros Hheader. unfold parse_item. rewrite Hheader. intros [= <-]. unfold panel_row.
  rewrite (dict_get_fold_set row_field) by (intros row _; apply row_field_not_Nome).
  reflexivity.
Qed.

(** X7.  [parse_html] gives one record per panel that has a header link as
    a direct child, in the order of the page, and skips the panels without
    one: the names of the records are the titles of those headers, one by
    one. *)
Theorem parse_html_one_record_per_header :
  forall soup,
    map (dict_get "Nome") (parse_html soup)
    = map (fun header => Some (title_of header))
          (omap (find_child (named "a")) (panels soup)).
Proof.
  intros soup. unfold parse_html. fold (panels soup).
  induction (panels soup) as [|item items IH]; [reflexivity|].
  change (omap parse_item (item :: items))
    with (match parse_item item with
          | Some rec => rec :: omap parse_item items
          | None => omap parse_item items
          end).
  change (omap (find_child (named "a")) (item :: items))
    with (match find_child (named "a") item with
          | Some h => h :: omap (find_child (named "a")) items
          | None => omap (find_child (named "a")) items
          end).
  destruct (find_child (named "a") item) as [header|] eqn:Hheader.
  - destruct (parse_item item) as [rec|] eqn:Hitem.
    + simpl. rewrite IH, (parse_item_Nome item header rec Hheader Hitem). reflexivity.
    + unfold parse_item in Hitem. rewrite Hheader in Hitem. discriminate Hitem.
  - unfold parse_item. rewrite Hheader. exact IH.
Qed.

(** X8.  Within a panel the last row that gives a field decides its value:
    a later row with the same label overrides an earlier one, and a row
    labelled with the status overrides the badge of the header. *)
Theorem parse_item_last_row_wins :
  forall item rec before row after k v,
    parse_item item = Some rec ->
    item_rows item = (before ++ row :: after)%list ->
    row_field row = Some (k, v) ->
    (forall r, r ∈ after -> fst <$> row_field r <> Some k) ->
    dict_get k rec = Some v.
Proof.
  intros item rec before row after k v. unfold parse_item.
  destruct (find_child (named "a") item) as [header|]; [|discriminate].
  intros [= <-] Hrows Hrow Hafter. unfold item_rows in Hrows. rewrite Hrows.
  rewrite fold_left_app. simpl fold_left. unfold panel_row at 2. rewrite Hrow.
  unfold panel_row at 1.
  rewrite (dict_get_fold_set row_field) by exact Hafter.
  apply dict_get_set_eq.
Qed.

(** The theorem at a panel with a badge and a row labelled with the
    status. *)
Lemma parse_item_last_row_wins_witness :
  exists rec,
    parse_item panel_status_row = Some rec
    /\ dict_get "Status" rec = Some "Suspenso".
Proof.
  eexists. split; [vm_compute; reflexivity|].
  apply (parse_item_last_row_wins panel_status_row _ [] status_row [] "Status" "Suspenso").
  - vm_compute. reflexivity.
  - vm_compute. reflexivity.
  - vm_compute. reflexivity.
  - intros r Hr. inversion Hr.
Defined.

Lemma rmap_Ok_length {A B : Type} (f : A -> result B) (l : list A) (ys : list B) :
  rmap f l = Ok ys -> length ys = length l.
Proof.
  revert ys. induction l as [|x l IH]; simpl; intros ys Hok.
  - injection Hok as <-. reflexivity.
  - destruct (f x) as [y|e]; simpl in Hok; [|discriminate].
    destruct (rmap f l) as [ys0|e]; simpl in Hok; [|discriminate].
    injection Hok as <-. simpl. f_equal. apply IH. reflexivity.
Qed.

Lemma rmap_Raise_elem {A B : Type} (f : A -> result B) (l : list A) (e : exn) :
  rmap f l = Raise e -> exists x, x ∈ l /\ f x = Raise e.
Proof.
  induction l as [|x l IH]; simpl; intros Hraise; [discriminate|].
  destruct (f x) as [y|e0] eqn:Efx; simpl in Hraise.
  - destruct (rmap f l) as [ys|e1]; simpl in Hraise; [discriminate|].
    injection Hraise as ->. destruct (IH eq_refl) as (x' & Hx' & Hfx').
    exists x'. split; [apply list_elem_of_further, Hx'|exact Hfx'].
  - injection Hraise as ->. exists x. split; [apply list_elem_of_here|exact Efx].
Qed.

Lemma rmap_all_Ok {A B : Type} (f : A -> result B) (l : list A) :
  (forall x, x ∈ l -> exists y, f x = Ok y) -> exists ys, rmap f l = Ok ys.
Proof.
  induction l as [|x l IH]; intros Hall; [exists []; reflexivity|].
  destruct (Hall x (list_elem_of_here _ _)) as (y & Hy).
  destruct IH as (ys & Hys); [intros x' Hx'; apply Hall, list_elem_of_further, Hx'|].
  exists (y :: ys). simpl. rewrite Hy. simpl. rewrite Hys. reflexivity.
Qed.

Lemma omap_length_le {A B : Type} (f : A -> option B) (l : list A) :
  (length (omap f l) <= length l)%nat.
Proof.
  induction l as [|x l IH]; [reflexivity|].
  change (omap f (x :: l))
    with (match f x with Some y => y :: omap f l | None => omap f l end).
  destruct (f x); simpl; lia.
Qed.

Lemma py_range_length n : (length (py_range 1 n 2) <= n / 2)%nat.
Proof.
  unfold py_range. rewrite length_map, length_seq.
  destruct n as [|n]; [reflexivity|].
  replace (S n - 1 + 2 - 1)%nat with (S n) by lia. reflexivity.
Qed.

(** X9.  [parse_table] reads the rows in pairs after the header row: when
    it returns, it gives at most one record for every two rows of the
    table. *)
Theorem parse_table_at_most_half :
  forall table recs,
    parse_table table = Ok recs ->
    (length recs <= length (find_all (named "tr") table) / 2)%nat.
Proof.
  intros table recs. unfold parse_table.
  destruct (rmap _ _) as [found|e] eqn:E; simpl; [|discriminate].
  intros [= <-]. apply rmap_Ok_length in E.
  etransitivity; [apply omap_length_le|].
  rewrite E. apply py_range_length.
Qed.

(** The theorem at the table of one entry. *)
Lemma parse_table_at_most_half_witness :
  exists recs, parse_table table_one_entry = Ok recs /\ (length recs <= 1)%nat.
Proof.
  eexists. split; [vm_compute; reflexivity|].
  apply (parse_table_at_most_half table_one_entry). vm_compute. reflexivity.
Defined.

Lemma value_after_raise sibs e : value_after sibs = Raise e -> e = not_callable.
Proof.
  unfold value_after. destruct (head sibs) as [[t|name cl at_ cs]|]; try discriminate.
  destruct (tag_getattr _ _); [discriminate|]. intros [= <-]. reflexivity.
Qed.

Lemma value_after_text s : text_follows s -> exists v, value_after (snd s) = Ok v.
Proof.
  unfold text_follows, value_after.
  destruct (head (snd s)) as [[t|name cl at_ cs]|]; [eauto|contradiction|eauto].
Qed.

Lemma rfold_detail_label_raise l rec e :
  rfold detail_label rec l = Raise e -> e = not_callable.
Proof.
  revert rec. induction l as [|s l IH]; simpl; intros rec Hraise; [discriminate|].
  destruct (detail_label rec s) as [rec1|e1] eqn:E1; simpl in Hraise.
  - apply (IH rec1 Hraise).
  - injection Hraise as ->. unfold detail_label in E1.
    destruct (strong_key s); [|discriminate].
    destruct (value_after (snd s)) as [v|e0] eqn:Ev; simpl in E1; [discriminate|].
    injection E1 as ->. apply (value_after_raise _ _ Ev).
Qed.

Lemma rfold_detail_label_Ok l rec :
  (forall s, s ∈ l -> text_follows s) -> exists rec', rfold detail_label rec l = Ok rec'.
Proof.
  revert rec. induction l as [|s l IH]; intros rec Hall; [exists rec; reflexivity|].
  change (rfold detail_label rec (s :: l))
    with (rec1 ← detail_label rec s; rfold detail_label rec1 l).
  assert (Hrest : forall s', s' ∈ l -> text_follows s')
    by (intros s' Hs'; apply Hall, list_elem_of_further, Hs').
  assert (Hstep : exists rec1, detail_label rec s = Ok rec1).
  { unfold detail_label. destruct (strong_key s) as [key|]; [|eauto].
    destruct (value_after_text s (Hall s (list_elem_of_here _ _))) as (v & Hv).
    rewrite Hv. simpl. eauto. }
  destruct Hstep as (rec1 & Hstep). rewrite Hstep. apply IH, Hrest.
Qed.

Lemma table_rows_at_raise rows i e :
  (i < length rows)%nat -> table_rows_at rows i = Raise e -> e = not_callable.
Proof.
  intros Hi. unfold table_rows_at.
  destruct (rows !! i) as [summary|] eqn:Hrow;
    [|apply lookup_ge_None in Hrow; lia].
  destruct (find_all (named "td") summary) as [|c0 [|c1 [|c2 [|c3 cols]]]];
    try discriminate.
  destruct (if (i + 1 <? length rows)%nat then rows !! (i + 1)%nat else None)
    as [detail|]; [|discriminate].
  destruct (find _ detail) as [td|]; [|discriminate].
  destruct (rfold detail_label _ _) as [rec|e0] eqn:E; simpl; [discriminate|].
  intros [= <-]. apply (rfold_detail_label_raise _ _ _ E).
Qed.

Lemma table_rows_at_Ok rows i :
  (i < length rows)%nat ->
  (forall s, s ∈ detail_labels rows i -> text_follows s) ->
  exists r, table_rows_at rows i = Ok r.
Proof.
  intros Hi Hall. unfold table_rows_at. unfold detail_labels in Hall.
  destruct (rows !! i) as [summary|] eqn:Hrow;
    [|apply lookup_ge_None in Hrow; lia].
  destruct (find_all (named "td") summary) as [|c0 [|c1 [|c2 [|c3 cols]]]]; eauto.
  destruct (i + 1 <? length rows)%nat; [|eauto].
  destruct (rows !! (i + 1)%nat) as [detail|]; [|eauto].
  destruct (find _ detail) as [td|]; [|eauto].
  destruct (rfold_detail_label_Ok (find_all_located (named "strong") td)
              (summary_record c0 c1 c2 c3) Hall) as (rec & Hrec).
  unfold summary_record in Hrec. rewrite Hrec. simpl. eauto.
Qed.

(** X10.  The only exception that [parse_table] raises is the [TypeError]
    of calling [None], which comes from a label of a detail row that is
    followed by an element instead of a text; it never reads a row out of
    range.  When every label of every detail row is followed by a text or
    by nothing, it returns. *)
Theorem parse_table_errors :
  (forall table e, parse_table table = Raise e -> e = not_callable)
  /\ (forall table,
         (forall i s,
             s ∈ detail_labels (find_all (named "tr") table) i -> text_follows s) ->
         exists recs, parse_table table = Ok recs).
Proof.
  split.
  - intros table e. unfold parse_table.
    destruct (rmap _ _) as [found|e0] eqn:E; simpl; [discriminate|].
    intros [= <-]. apply rmap_Raise_elem in E as (i & Hi & Hraise).
    apply py_range_odd in Hi as (Hlt & _).
    apply (table_rows_at_raise _ _ _ Hlt Hraise).
  - intros table Hall. unfold parse_table.
    destruct (rmap_all_Ok (table_rows_at (find_all (named "tr") table))
                (py_range 1 (length (find_all (named "tr") table)) 2))
      as (found & ->).
    + intros i Hi. apply py_range_odd in Hi as (Hlt & _).
      apply table_rows_at_Ok; [exact Hlt|]. intros s Hs. apply (Hall i s Hs).
    + simpl. eauto.
Qed.

(** The theorem at a table whose detail row has a label followed by an
    element, and at the table with a well-formed detail row. *)
Lemma parse_table_errors_witness :
  parse_table
    (Tag "table" [] []
       [ Tag "tr" [] [] [];
         Tag "tr" [] [] (map text_cell ["Aprovado"; "Silva"; "Editora X"; "Memoria"]);
         Tag "tr" [] []
           [ Tag "td" [] [("colspan", "4")]
               [ Tag "strong" [] [] [NavigableString "Editora:"];
                 Tag "br" [] [] [] ] ] ])
  = Raise not_callable
  /\ exists recs, parse_table (Tag "table" [] [] rows_with_detail) = Ok recs.
Proof.
  destruct parse_table_errors as (Hraise & Hok).
  split.
  - match goal with |- ?p = _ => destruct p as [recs|e] eqn:E end.
    + vm_compute in E. discriminate E.
    + f_equal. apply (Hraise _ _ E).
  - apply Hok. intros i s Hs.
    destruct i as [|[|i]]; vm_compute in Hs; try (inversion Hs; fail).
    + inversion Hs as [|? ? ? Hnil]; subst; [exact I|inversion Hnil].
    + destruct i as [|i]; vm_compute in Hs; inversion Hs.
Defined.

End ExtractorExtras.

(** ** Values without white space at the ends; file names *)

Section StripFacts.
Variable p : ascii -> bool.

Lemma rstrip_by_idem s : Str.rstrip_by p (Str.rstrip_by p s) = Str.rstrip_by p s.
Proof.
  induction s as [|c s IH]; [reflexivity|]. simpl.
  destruct (Str.rstrip_by p s) as [|c' r] eqn:E.
  - destruct (p c) eqn:Ec; [reflexivity|]. simpl. rewrite Ec. reflexivity.
  - simpl. simpl in IH. rewrite IH. reflexivity.
Qed.

Lemma rstrip_by_app a b :
  Str.rstrip_by p b <> "" -> Str.rstrip_by p (a ++ b) = a ++ Str.rstrip_by p b.
Proof.
  intros Hb. induction a as [|c a IH]; [reflexivity|]. simpl. rewrite IH.
  destruct (a ++ Str.rstrip_by p b) as [|c' r] eqn:E; [|reflexivity].
  destruct a; simpl in E; [contradiction|discriminate].
Qed.

Lemma lstrip_by_head s c t : Str.lstrip_by p s = String c t -> p c = false.
Proof.
  induction s as [|c0 s IH]; simpl; [discriminate|].
  destruct (p c0) eqn:E; [exact IH|]. intros [= <- _]. exact E.
Qed.

Lemma lstrip_by_keeps_end s :
  Str.rstrip_by p s = s -> Str.rstrip_by p (Str.lstrip_by p s) = Str.lstrip_by p s.
Proof.
  induction s as [|c s IH]; [reflexivity|]. simpl.
  destruct (p c) eqn:Ec.
  - destruct (Str.rstrip_by p s) as [|c' r] eqn:E; [discriminate|].
    intros [= Hr]. apply IH. exact Hr.
  - intros H. simpl. rewrite Ec. exact H.
Qed.

Lemma lstrip_by_fixed c s : p c = false -> Str.lstrip_by p (String c s) = String c s.
Proof. intros H. simpl. rewrite H. reflexivity. Qed.

End StripFacts.

Section TrimmedValues.
Import Bs4 Config Scraper Pipeline Spec Examples.

Lemma strip_solid s : Str.strip s <> "" -> solid (Str.strip s).
Proof.
  intros Hne. unfold Str.strip in *. split.
  - destruct (Str.lstrip_by Str.isspace (Str.rstrip_by Str.isspace s)) as [|c t] eqn:E;
      [contradiction|].
    exists c, t. split; [reflexivity|]. eapply lstrip_by_head, E.
  - apply lstrip_by_keeps_end, rstrip_by_idem.
Qed.

Lemma solid_trimmed s : solid s -> trimmed s.
Proof.
  intros [(c & t & -> & Hc) Hr]. unfold trimmed, Str.strip. rewrite Hr.
  apply lstrip_by_fixed, Hc.
Qed.

Lemma join_solid sep l :
  Forall solid l -> l <> [] -> solid (Str.join sep l).
Proof.
  induction 1 as [|x l Hx Hl IH]; intros Hne; [contradiction|].
  destruct l as [|y l]; [exact Hx|].
  change (Str.join sep (x :: y :: l)) with (x ++ sep ++ Str.join sep (y :: l)).
  destruct (IH ltac:(discriminate)) as [(c' & t' & Hj & Hc') Hjr].
  destruct Hx as [(c & t & -> & Hc) Hxr]. split.
  - exists c, (t ++ sep ++ Str.join sep (y :: l)). split; [reflexivity|exact Hc].
  - assert (Hne1 : Str.rstrip_by Str.isspace (Str.join sep (y :: l)) <> "")
      by (rewrite Hjr, Hj; discriminate).
    assert (Hsep : Str.rstrip_by Str.isspace (sep ++ Str.join sep (y :: l))
                   = sep ++ Str.join sep (y :: l))
      by (rewrite rstrip_by_app, Hjr by exact Hne1; reflexivity).
    rewrite rstrip_by_app; rewrite Hsep; [reflexivity|].
    rewrite Hj. destruct sep; discriminate.
Qed.

Lemma get_text_trimmed sep n : trimmed (get_text sep n).
Proof.
  unfold get_text.
  destruct (List.filter nonempty (map Str.strip (strings n))) as [|x l] eqn:E;
    [reflexivity|].
  apply solid_trimmed, join_solid; [|discriminate].
  rewrite <- E. apply Forall_forall. intros s Hs.
  apply list_elem_of_In, filter_In in Hs as [Hin Hne].
  apply list_elem_of_In, list_elem_of_fmap in Hin as (s0 & -> & _).
  apply strip_solid. intros Hempty. rewrite Hempty in Hne. discriminate Hne.
Qed.

Lemma strip_trimmed s : trimmed (Str.strip s).
Proof.
  destruct (Str.strip s) as [|c t] eqn:E; [reflexivity|].
  rewrite <- E. apply solid_trimmed, strip_solid. rewrite E. discriminate.
Qed.

Lemma dict_set_trimmed k v (d : dict string) :
  trimmed v -> Forall trimmed (dict_values d) -> Forall trimmed (dict_values (dict_set k v d)).
Proof.
  intros Hv. induction d as [|[k0 v0] d IH]; simpl; intros Hd.
  - repeat constructor. exact Hv.
  - apply Forall_cons in Hd as [H0 Hd].
    destruct (String.eqb k k0); simpl; constructor; auto.
Qed.

Lemma row_field_trimmed row k v : row_field row = Some (k, v) -> trimmed v.
Proof.
  unfold row_field.
  destruct (find _ row) as [label|]; [|discriminate].
  destruct (match find _ row with Some v0 => Some v0 | None => _ end) as [value|];
    [|discriminate].
  destruct (mapped_key _); [|discriminate].
  intros [= _ <-]. apply get_text_trimmed.
Qed.

Lemma fold_panel_row_trimmed rows rec :
  Forall trimmed (dict_values rec) ->
  Forall trimmed (dict_values (fold_left panel_row rows rec)).
Proof.
  revert rec. induction rows as [|row rows IH]; intros rec Hrec; [exact Hrec|].
  simpl. apply IH. unfold panel_row.
  destruct (row_field row) as [[k v]|] eqn:E; [|exact Hrec].
  apply dict_set_trimmed; [eapply row_field_trimmed, E|exact Hrec].
Qed.

Lemma badge_text_trimmed header : trimmed (badge_text header).
Proof.
  unfold badge_text. destruct (find _ header); [apply get_text_trimmed|reflexivity].
Qed.

(** X11.  Every value of every record of [parse_html] is free of white
    space at both ends: stripping it again changes nothing.  This holds for
    the name, the status, every field read from a row and every field left
    empty. *)
Theorem parse_html_values_trimmed :
  forall soup rec k v,
    rec ∈ parse_html soup -> dict_get k rec = Some v -> Str.strip v = v.
Proof.
  intros soup rec k v Hrec Hget.
  apply parse_html_elem in Hrec as (item & Hitem).
  apply dict_get_Some_values in Hget.
  assert (Hall : Forall trimmed (dict_values rec)).
  { unfold parse_item in Hitem.
    destruct (find_child (named "a") item) as [header|]; [|discriminate].
    injection Hitem as <-. apply fold_panel_row_trimmed.
    unfold dict_values. simpl map.
    repeat first [apply List.Forall_nil | apply List.Forall_cons];
      first [apply badge_text_trimmed | apply strip_trimmed | reflexivity]. }
  rewrite Forall_forall in Hall. apply (Hall v Hget).
Qed.

(** The theorem at the panel with a row whose value has spaces around it. *)
Lemma parse_html_values_trimmed_witness :
  exists rec,
    parse_html page_with_row = [rec]
    /\ dict_get "Autores" rec = Some "Silva"
    /\ Str.strip "Silva" = "Silva".
Proof.
  eexists. split; [vm_compute; reflexivity|]. split; [reflexivity|].
  eapply (parse_html_values_trimmed page_with_row _ "Autores").
  - vm_compute. apply list_elem_of_here.
  - reflexivity.
Defined.

End TrimmedValues.

Section FileNames.
Import Config Spec.

Lemma str_length_app a b : String.length (a ++ b) = (String.length a + String.length b)%nat.
Proof. induction a as [|c a IH]; simpl; [reflexivity|]. rewrite IH. reflexivity. Qed.

Lemma str_app_inj_len a b c d :
  String.length c = String.length d -> a ++ c = b ++ d -> a = b /\ c = d.
Proof.
  intros Hlen. revert b. induction a as [|x a IH]; intros [|y b] H; simpl in H.
  - auto.
  - exfalso. apply (f_equal String.length) in H. simpl in H.
    rewrite str_length_app in H. lia.
  - exfalso. apply (f_equal String.length) in H. simpl in H.
    rewrite str_length_app in H. lia.
  - injection H as -> H. destruct (IH b H) as [-> ->]. auto.
Qed.

Lemma timestamp_filename_inj ts1 ts2 prefix ext1 ext2 :
  String.length ext1 = String.length ext2 ->
  get_timestamp_filename ts1 prefix ext1 = get_timestamp_filename ts2 prefix ext2 ->
  ts1 = ts2 /\ ext1 = ext2.
Proof.
  intros Hlen H. unfold get_timestamp_filename, DATA_DIR in H. simpl in H.
  injection H as H. apply String.app_inj in H. simpl in H. injection H as H.
  destruct (str_app_inj_len ts1 ts2 ("." ++ ext1) ("." ++ ext2)) as [Hts Hext];
    [simpl; lia|exact H|].
  split; [exact Hts|]. simpl in Hext. injection Hext as Hext. exact Hext.
Qed.

(** X12.  The file names of a run never collide.  Two different timestamps
    give two different names for the same prefix and extension; and in one
    run the JSON file, the Excel file, the Word report and the history are
    four different files, whatever the clock says, so that no output
    overwrites another one or the history. *)
Theorem file_names_distinct :
  (forall ts1 ts2 prefix ext,
      ts1 <> ts2 ->
      get_timestamp_filename ts1 prefix ext <> get_timestamp_filename ts2 prefix ext)
  /\ (forall w,
         NoDup [json_path w; excel_path w; word_path w; PREVIOUS_DATA_FILE]).
Proof.
  split.
  - intros ts1 ts2 prefix ext Hne H. apply Hne.
    apply (timestamp_filename_inj ts1 ts2 prefix ext ext eq_refl H).
  - intros w.
    destruct (output_paths_not_history w) as (Hj & Hx & Hw).
    destruct (output_paths_distinct w) as (Hjw & Hxw).
    assert (Hjx : json_path w <> excel_path w).
    { intros H. apply timestamp_filename_inj in H as [_ H]; [discriminate H|reflexivity]. }
    repeat constructor; rewrite ?elem_of_cons, ?elem_of_nil; intuition congruence.
Qed.

(** The theorem at two timestamps one second apart. *)
Lemma file_names_distinct_witness :
  get_timestamp_filename "20250101_000000" "satepsi_data" "json"
  <> get_timestamp_filename "20250101_000001" "satepsi_data" "json".
Proof. apply (proj1 file_names_distinct). discriminate. Defined.

End FileNames.

(** ** A run that finds a history *)

Section RunExtras.
Import Bs4 Config Scraper Pipeline Spec Examples.

Lemma parse_html_wf soup : Forall dict_wf (parse_html soup).
Proof.
  apply Forall_forall. intros rec Hin. apply parse_html_elem in Hin as (item & E).
  apply parse_item_keys in E. unfold dict_wf. rewrite E. vm_compute.
  repeat constructor; rewrite ?elem_of_cons, ?elem_of_nil; intuition discriminate.
Qed.

Lemma comparison_with_history w st old instruments :
  files st !! PREVIOUS_DATA_FILE = Some (TextFile (Utf8.encode (Json.dumps old))) ->
  Forall dict_wf old ->
  comparison w st instruments = diff_status old instruments.
Proof.
  intros Hprev Hwf. unfold comparison, load_json. rewrite Hprev.
  rewrite (snapshot_of_dumps old Hwf). reflexivity.
Qed.

Lemma main_with_history w st soup old :
  page w = Ok soup -> parse_html soup <> [] ->
  first_output_error w = None ->
  write_error w PREVIOUS_DATA_FILE = None ->
  files st !! PREVIOUS_DATA_FILE = Some (TextFile (Utf8.encode (Json.dumps old))) ->
  Forall dict_wf old -> Forall has_construct old ->
  exists st',
    main w st = (st', Ok tt)
    /\ notifier_calls (trace st')
       = (notifier_calls (trace st) ++ [transitions_spec old (parse_html soup)])%list
    /\ files st' !! PREVIOUS_DATA_FILE
       = Some (TextFile (Utf8.encode (Json.dumps (parse_html soup)))).
Proof.
  intros Hpage Hne Herr Hwrite Hprev Hwf Hkeys.
  destruct (main_completes w st soup (transitions_spec old (parse_html soup))
              Hpage Hne Herr) as (st' & Hrun & Hfile & Hcalls).
  - rewrite (comparison_with_history w st old _ Hprev Hwf).
    apply diff_status_transitions; [exact Hkeys|apply parse_html_has_construct].
  - exact Hwrite.
  - exists st'. auto.
Qed.

(** X13.  A run that nothing stops and that finds the history written by
    [save_json] for a snapshot (records without repeated keys, each with
    its construct) calls the notifier exactly once, with the transitions
    from that snapshot to the records of the page, and leaves the records
    of the page as the new history.  So, after a first run that completed,
    the next run reports the status changes between the two pages. *)
Theorem run_reports_changes_since_history :
  (forall w st soup old,
      page w = Ok soup -> parse_html soup <> [] ->
      first_output_error w = None ->
      write_error w PREVIOUS_DATA_FILE = None ->
      files st !! PREVIOUS_DATA_FILE = Some (TextFile (Utf8.encode (Json.dumps old))) ->
      Forall dict_wf old -> Forall has_construct old ->
      exists st',
        main w st = (st', Ok tt)
        /\ notifier_calls (trace st')
           = (notifier_calls (trace st) ++ [transitions_spec old (parse_html soup)])%list
        /\ files st' !! PREVIOUS_DATA_FILE
           = Some (TextFile (Utf8.encode (Json.dumps (parse_html soup)))))
  /\ (forall w1 w2 st soup1 soup2,
         page w1 = Ok soup1 -> parse_html soup1 <> [] ->
         first_output_error w1 = None -> write_error w1 PREVIOUS_DATA_FILE = None ->
         files st !! PREVIOUS_DATA_FILE = None ->
         page w2 = Ok soup2 -> parse_html soup2 <> [] ->
         first_output_error w2 = None -> write_error w2 PREVIOUS_DATA_FILE = None ->
         exists st1 st2,
           main w1 st = (st1, Ok tt)
           /\ main w2 st1 = (st2, Ok tt)
           /\ notifier_calls (trace st2)
              = (notifier_calls (trace st)
                 ++ [[]; transitions_spec (parse_html soup1) (parse_html soup2)])%list).
Proof.
  split; [exact main_with_history|].
  intros w1 w2 st soup1 soup2 Hp1 Hn1 He1 Hw1 Hnone Hp2 Hn2 He2 Hw2.
  destruct (main_first_run_completes w1 st soup1 Hp1 Hn1 He1 Hnone Hw1)
    as (st1 & Hrun1 & Hhist & Hcalls1).
  destruct (main_with_history w2 st1 soup2 (parse_html soup1) Hp2 Hn2 He2 Hw2 Hhist
              (parse_html_wf soup1) (parse_html_has_construct soup1))
    as (st2 & Hrun2 & Hcalls2 & _).
  exists st1, st2. split; [exact Hrun1|]. split; [exact Hrun2|].
  rewrite Hcalls2, Hcalls1, <- app_assoc. reflexivity.
Qed.

(** The theorem at two runs: the page of the scenario, then the page on
    which the instrument is no longer approved. *)
Lemma run_reports_changes_since_history_witness :
  exists st1 st2,
    main world_ok state_fresh = (st1, Ok tt)
    /\ main world_later st1 = (st2, Ok tt)
    /\ notifier_calls (trace st2) = [[]; [("", "Aprovado", "Desfavoravel")]].
Proof.
  assert (Hne1 : parse_html page_xyz <> []) by (vm_compute; discriminate).
  assert (Hne2 : parse_html page_xyz_later <> []) by (vm_compute; discriminate).
  assert (Hnone : files state_fresh !! PREVIOUS_DATA_FILE = None)
    by (vm_compute; reflexivity).
  destruct (proj2 run_reports_changes_since_history
              world_ok world_later state_fresh page_xyz page_xyz_later
              eq_refl Hne1 eq_refl eq_refl Hnone eq_refl Hne2 eq_refl eq_refl)
    as (st1 & st2 & Hrun1 & Hrun2 & Hcalls).
  exists st1, st2. split; [exact Hrun1|]. split; [exact Hrun2|].
  rewrite Hcalls. reflexivity.
Defined.

End RunExtras.

(** ** The mail settings *)

Section SettingsExtras.
Import EmailSettings AppSpec.

Lemma truthy_getenv o : truthy (Getenv o) = true <-> exists v, o = Some v /\ v <> "".
Proof.
  destruct o as [[|c v]|]; simpl; split; try discriminate.
  - intros (v & [= <-] & H). contradiction.
  - intros _. exists (String c v). split; [reflexivity|discriminate].
  - intros _. reflexivity.
  - intros (v & H & _). discriminate.
Qed.

Lemma truthy_port n : truthy (Port n) = true <-> n <> 0%Z.
Proof. simpl. rewrite negb_true_iff, Z.eqb_neq. reflexivity. Qed.

Lemma missing_nil (config : dict setting) :
  map fst (List.filter (fun kv => negb (truthy (snd kv))) config) = []
  <-> Forall (fun s => truthy s = true) (dict_values config).
Proof.
  induction config as [|[k s] config IH].
  - split; [constructor|reflexivity].
  - change (List.filter (fun kv => negb (truthy (snd kv))) ((k, s) :: config))
      with (if negb (truthy s)
            then (k, s) :: List.filter (fun kv => negb (truthy (snd kv))) config
            else List.filter (fun kv => negb (truthy (snd kv))) config).
    change (dict_values ((k, s) :: config)) with (s :: dict_values config).
    destruct (truthy s) eqn:E; unfold negb; cbv beta iota.
    + rewrite IH. split; [intros H; constructor; assumption|].
      intros H. inversion H. assumption.
    + split; [discriminate|]. intros H. inversion H as [|? ? Hs]. congruence.
Qed.

(** When [load_email_config] returns: the port is an integer, the dict
    holds the six settings in the order of the source, none of them false. *)
Lemma load_email_config_Returned m env config :
  load_email_config m env = Returned config
  <-> exists port,
        port_of m env = Some port
        /\ config = [ ("SMTP_HOST", Getenv (env !! "SMTP_HOST"));
                      ("SMTP_PORT", Port port);
                      ("SMTP_USER", Getenv (env !! "SMTP_USER"));
                      ("SMTP_PASS", Getenv (env !! "SMTP_PASS"));
                      ("EMAIL_FROM", Getenv (env !! "EMAIL_FROM"));
                      ("EMAIL_TO", Getenv (env !! "EMAIL_TO")) ]
        /\ Forall (fun s => truthy s = true) (dict_values config).
Proof.
  unfold load_email_config, port_of.
  destruct (py_int m (getenv_default env "SMTP_PORT" "587")) as [port|].
  - cbv zeta.
    match goal with
    | |- context [List.filter ?f ?c] =>
        pose proof (missing_nil c) as Hnil; destruct (map fst (List.filter f c)) as [|k ks]
    end.
    + split.
      * intros [= <-]. exists port. split; [reflexivity|]. split; [reflexivity|].
        apply Hnil. reflexivity.
      * intros (port' & [= <-] & -> & _). reflexivity.
    + split; [discriminate|].
      intros (port' & [= <-] & -> & Hall). apply Hnil in Hall. discriminate Hall.
  - split; [discriminate|]. intros (port & Hport & _). discriminate Hport.
Qed.

Lemma complete_settings_truthy m env port :
  port_of m env = Some port ->
  complete_settings m env
  <-> Forall (fun s => truthy s = true)
        [ Getenv (env !! "SMTP_HOST"); Port port; Getenv (env !! "SMTP_USER");
          Getenv (env !! "SMTP_PASS"); Getenv (env !! "EMAIL_FROM");
          Getenv (env !! "EMAIL_TO") ].
Proof.
  intros Hport. unfold complete_settings. rewrite Hport. split.
  - intros (Htext & port' & [= <-] & Hne).
    assert (Hk : forall k, k ∈ text_settings -> truthy (Getenv (env !! k)) = true)
      by (intros k Hk; apply truthy_getenv, Htext, Hk).
    repeat constructor;
      first [ apply truthy_port, Hne
            | apply Hk; unfold text_settings;
              repeat first [apply list_elem_of_here | apply list_elem_of_further] ].
  - intros Hall.
    repeat match goal with
           | H : Forall _ (_ :: _) |- _ => apply Forall_cons in H as [? H]
           end.
    split.
    + intros k Hk. apply truthy_getenv. unfold text_settings in Hk.
      repeat (apply elem_of_cons in Hk as [->|Hk]; [assumption|]). inversion Hk.
    + exists port. split; [reflexivity|]. apply truthy_port. assumption.
Qed.

Lemma port_default m env : env !! "SMTP_PORT" = None -> port_of m env = Some 587%Z.
Proof.
  intros Hnone. unfold port_of, getenv_default. rewrite Hnone. reflexivity.
Qed.

(** X14.  The mail settings are all there or the program runs without
    them: whatever the limit of the interpreter on the digits of an
    integer, [EMAIL_CONFIG] is empty unless the five text settings are set
    and not empty and the port is an integer literal, as [int] reads it,
    other than zero; the port is 587 when [SMTP_PORT] is not set.  When
    [EMAIL_CONFIG] is not empty it holds the six settings in the order of
    the source, each text as the environment gives it and the port as an
    integer, and none of them is false. *)
Theorem email_config_all_or_nothing :
  forall max_str_digits env,
    (EMAIL_CONFIG max_str_digits env <> [] <-> complete_settings max_str_digits env)
    /\ (env !! "SMTP_PORT" = None -> port_of max_str_digits env = Some 587%Z)
    /\ (EMAIL_CONFIG max_str_digits env <> [] ->
        dict_keys (EMAIL_CONFIG max_str_digits env) = all_settings
        /\ (forall k, k ∈ text_settings ->
              dict_get k (EMAIL_CONFIG max_str_digits env) = Some (Getenv (env !! k)))
        /\ (exists port,
              port_of max_str_digits env = Some port
              /\ dict_get "SMTP_PORT" (EMAIL_CONFIG max_str_digits env) = Some (Port port))
        /\ Forall (fun s => truthy s = true)
                  (dict_values (EMAIL_CONFIG max_str_digits env))).
Proof.
  intros m env. split; [|split; [apply port_default|]].
  - unfold EMAIL_CONFIG.
    destruct (load_email_config m env) as [config|msg|lit] eqn:E.
    + apply load_email_config_Returned in E as (port & Hport & -> & Hall).
      split; [|discriminate]. intros _.
      apply (complete_settings_truthy m env port Hport). exact Hall.
    + split; [intros H; contradiction|]. intros Hc. exfalso.
      destruct Hc as (Htext & port & Hport & Hne).
      assert (Hr : exists config, load_email_config m env = Returned config).
      { eexists. apply load_email_config_Returned. exists port.
        split; [exact Hport|]. split; [reflexivity|].
        apply (complete_settings_truthy m env port Hport). split; [exact Htext|eauto]. }
      destruct Hr as (config & Hr). congruence.
    + split; [intros H; contradiction|]. intros Hc. exfalso.
      destruct Hc as (Htext & port & Hport & Hne).
      assert (Hr : exists config, load_email_config m env = Returned config).
      { eexists. apply load_email_config_Returned. exists port.
        split; [exact Hport|]. split; [reflexivity|].
        apply (complete_settings_truthy m env port Hport). split; [exact Htext|eauto]. }
      destruct Hr as (config & Hr). congruence.
  - unfold EMAIL_CONFIG.
    destruct (load_email_config m env) as [config|msg|lit] eqn:E;
      [|intros H; contradiction|intros H; contradiction].
    apply load_email_config_Returned in E as (port & Hport & -> & Hall).
    intros _. split; [reflexivity|]. split; [|split; [|exact Hall]].
    + intros k Hk. unfold text_settings in Hk.
      repeat (apply elem_of_cons in Hk as [->|Hk]; [reflexivity|]). inversion Hk.
    + exists port. split; [exact Hport|reflexivity].
Qed.

(** The theorem at three environments: without [SMTP_PORT] the port is
    587; a port of zero and a port followed by the separator U+001F leave
    the settings empty. *)
Lemma email_config_all_or_nothing_witness :
  dict_get "SMTP_PORT" (EMAIL_CONFIG 4300 env_default_port) = Some (Port 587)
  /\ EMAIL_CONFIG 4300 env_port_zero = []
  /\ EMAIL_CONFIG 4300 env_port_separator = [].
Proof.
  split; [|split].
  - destruct (email_config_all_or_nothing 4300 env_default_port) as (Hiff & Hport & Hfull).
    destruct Hfull as (_ & _ & (port & Hp & Hget) & _).
    + apply Hiff. split.
      * intros k Hk. unfold text_settings in Hk.
        repeat (apply elem_of_cons in Hk as [->|Hk];
                [eexists; split; [vm_compute; reflexivity|discriminate]|]).
        inversion Hk.
      * exists 587%Z. split; [apply Hport; vm_compute; reflexivity|discriminate].
    + rewrite Hget. f_equal. f_equal.
      rewrite (Hport eq_refl) in Hp. injection Hp as <-. reflexivity.
  - destruct (email_config_all_or_nothing 4300 env_port_zero) as (Hiff & _ & _).
    destruct (EMAIL_CONFIG 4300 env_port_zero) as [|kv config]; [reflexivity|].
    exfalso. destruct (proj1 Hiff) as (_ & port & Hp & Hne); [discriminate|].
    vm_compute in Hp. injection Hp as <-. apply Hne. reflexivity.
  - destruct (email_config_all_or_nothing 4300 env_port_separator) as (Hiff & _ & _).
    destruct (EMAIL_CONFIG 4300 env_port_separator) as [|kv config]; [reflexivity|].
    exfalso. destruct (proj1 Hiff) as (_ & port & Hp & _); [discriminate|].
    vm_compute in Hp. discriminate Hp.
Defined.

End SettingsExtras.

(** ** The settings file of the dashboard *)

Section LineFacts.
Import Dashboard AppSpec.

(** Induction for functions that read one or two characters at a time. *)
Lemma string_ind2 (P : string -> Prop) :
  P "" -> (forall c, P (String c "")) ->
  (forall c1 c2 s, P s -> P (String c2 s) -> P (String c1 (String c2 s))) ->
  forall s, P s.
Proof.
  intros H0 H1 H2.
  assert (H : forall s, P s /\ forall c, P (String c s)).
  { induction s as [|a s [IHs IHc]].
    - split; [exact H0|exact H1].
    - split; [apply IHc|]. intros c. apply H2; [exact IHs|apply IHc]. }
  intros s. apply H.
Qed.

Lemma rstrip_by_app_cases p a b :
  Str.rstrip_by p (a ++ b)
  = match Str.rstrip_by p b with
    | EmptyString => Str.rstrip_by p a
    | String c r => a ++ String c r
    end.
Proof.
  induction a as [|x a IH].
  - simpl. destruct (Str.rstrip_by p b); reflexivity.
  - change (Str.rstrip_by p (String x a ++ b))
      with (match Str.rstrip_by p (a ++ b) with
            | EmptyString => if p x then EmptyString else String x EmptyString
            | String c r => String x (String c r)
            end).
    rewrite IH. destruct (Str.rstrip_by p b) as [|c r]; [reflexivity|].
    destruct a; reflexivity.
Qed.

Lemma is_email_to_line e : is_email_to (email_to_line e) = true.
Proof.
  unfold is_email_to, email_to_line, Str.strip. rewrite rstrip_by_app_cases.
  destruct (Str.rstrip_by Str.isspace (e ++ String "010" "")) as [|c r]; reflexivity.
Qed.

Lemma rewrite_keeps_test e line :
  is_email_to (if is_email_to line then email_to_line e else line) = is_email_to line.
Proof. destruct (is_email_to line) eqn:E; [apply is_email_to_line|exact E]. Qed.

Lemma rewrite_absent e lines :
  existsb is_email_to lines = false ->
  map (fun line => if is_email_to line then email_to_line e else line) lines = lines.
Proof.
  induction lines as [|l lines IH]; [reflexivity|]. simpl.
  destruct (is_email_to l); [discriminate|]. simpl. intros H. rewrite IH by exact H.
  reflexivity.
Qed.

Lemma rewrite_again e e' lines :
  map (fun line => if is_email_to line then email_to_line e' else line)
      (map (fun line => if is_email_to line then email_to_line e else line) lines)
  = map (fun line => if is_email_to line then email_to_line e' else line) lines.
Proof.
  rewrite map_map. apply map_ext. intros l.
  destruct (is_email_to l) eqn:E; [rewrite is_email_to_line; reflexivity|].
  rewrite E. reflexivity.
Qed.

Lemma rewrite_found e lines :
  existsb is_email_to
    (map (fun line => if is_email_to line then email_to_line e else line) lines)
  = existsb is_email_to lines.
Proof.
  induction lines as [|l lines IH]; [reflexivity|]. simpl.
  rewrite rewrite_keeps_test, IH. reflexivity.
Qed.

Lemma rewrite_others e lines :
  List.filter (fun l => negb (is_email_to l))
    (map (fun line => if is_email_to line then email_to_line e else line) lines)
  = List.filter (fun l => negb (is_email_to l)) lines.
Proof.
  induction lines as [|l lines IH]; [reflexivity|]. simpl.
  rewrite rewrite_keeps_test, IH. destruct (is_email_to l) eqn:E; simpl; [reflexivity|].
  reflexivity.
Qed.

Lemma update_lines_found e lines :
  existsb is_email_to lines = true ->
  update_lines e lines
  = map (fun line => if is_email_to line then email_to_line e else line) lines.
Proof. unfold update_lines. intros ->. reflexivity. Qed.

Lemma update_lines_absent e lines :
  existsb is_email_to lines = false ->
  update_lines e lines = (lines ++ [email_to_line e])%list.
Proof. unfold update_lines. intros H. rewrite H, rewrite_absent by exact H. reflexivity. Qed.

Lemma update_lines_has_line e lines : email_to_line e ∈ update_lines e lines.
Proof.
  destruct (existsb is_email_to lines) eqn:E.
  - rewrite update_lines_found by exact E.
    apply existsb_exists in E as (l & Hin & Hl).
    apply list_elem_of_fmap. exists l. rewrite Hl. split; [reflexivity|].
    apply list_elem_of_In, Hin.
  - rewrite update_lines_absent by exact E. apply elem_of_app. right.
    apply list_elem_of_here.
Qed.

Lemma update_lines_only_line e lines l :
  l ∈ update_lines e lines -> is_email_to l = true -> l = email_to_line e.
Proof.
  unfold update_lines. intros Hin Hl.
  assert (Hmap : l ∈ map (fun line => if is_email_to line then email_to_line e else line)
                       lines -> l = email_to_line e).
  { intros H. apply list_elem_of_fmap in H as (l0 & -> & _).
    destruct (is_email_to l0) eqn:E; [reflexivity|congruence]. }
  destruct (existsb is_email_to lines); [apply Hmap, Hin|].
  apply elem_of_app in Hin as [Hin|Hin]; [apply Hmap, Hin|].
  apply elem_of_cons in Hin as [->|Hin]; [reflexivity|inversion Hin].
Qed.

Lemma update_lines_again e e' lines :
  update_lines e' (update_lines e lines) = update_lines e' lines.
Proof.
  destruct (existsb is_email_to lines) eqn:E.
  - rewrite (update_lines_found e lines E).
    rewrite !update_lines_found by (rewrite ?rewrite_found; exact E).
    apply rewrite_again.
  - rewrite (update_lines_absent e lines E), (update_lines_absent e' lines E).
    rewrite update_lines_found
      by (rewrite existsb_app; simpl; rewrite is_email_to_line; apply orb_true_r).
    rewrite map_app, (rewrite_absent e' lines E). simpl.
    rewrite is_email_to_line. reflexivity.
Qed.

(** X15.  The loop of [update_email_to] over the lines of the settings
    file: afterwards the new line [EMAIL_TO=<address>] is there, every line
    that sets the recipient is that line (all of them are replaced, not the
    first one only), the other lines are kept as they were and in their
    order, and an update with another address on top gives what that update
    alone gives. *)
Theorem update_lines_sets_recipient :
  forall e lines,
    email_to_line e ∈ update_lines e lines
    /\ (forall l, l ∈ update_lines e lines -> is_email_to l = true -> l = email_to_line e)
    /\ List.filter (fun l => negb (is_email_to l)) (update_lines e lines)
       = List.filter (fun l => negb (is_email_to l)) lines
    /\ (forall e', update_lines e' (update_lines e lines) = update_lines e' lines).
Proof.
  intros e lines. split; [apply update_lines_has_line|].
  split; [apply update_lines_only_line|]. split; [|intros e'; apply update_lines_again].
  unfold update_lines. destruct (existsb is_email_to lines); [apply rewrite_others|].
  rewrite List.filter_app, rewrite_others. simpl. rewrite is_email_to_line. simpl.
  apply app_nil_r.
Qed.

End LineFacts.

Section SettingsFile.
Import Dashboard AppSpec.

Lemma concat_cons x l : String.concat "" (x :: l) = x ++ String.concat "" l.
Proof. destruct l; simpl; [rewrite str_app_nil_r|]; reflexivity. Qed.

Lemma concat_app l1 l2 :
  String.concat "" (l1 ++ l2) = String.concat "" l1 ++ String.concat "" l2.
Proof.
  induction l1 as [|x l1 IH]; [reflexivity|].
  change ((x :: l1) ++ l2)%list with (x :: (l1 ++ l2))%list.
  rewrite !concat_cons, IH, str_app_assoc. reflexivity.
Qed.

Lemma lines_from_cons acc c s :
  lines_from acc (String c s)
  = if Ascii.eqb c "010" then (acc ++ String c "") :: lines_from "" s
    else lines_from (acc ++ String c "") s.
Proof. reflexivity. Qed.

(** The lines of a text are a partition of it. *)
Lemma concat_lines_from s : forall acc, String.concat "" (lines_from acc s) = acc ++ s.
Proof.
  induction s as [|c s IH]; intros acc.
  - simpl. destruct acc; [reflexivity|]. simpl. rewrite str_app_nil_r. reflexivity.
  - rewrite lines_from_cons. destruct (Ascii.eqb c "010").
    + rewrite concat_cons, IH, str_app_assoc. reflexivity.
    + rewrite IH, str_app_assoc. reflexivity.
Qed.

Lemma concat_file_lines text : String.concat "" (file_lines text) = universal_newlines text.
Proof. apply concat_lines_from. Qed.

Lemma no_breaks_cons c s :
  no_breaks (String c s) = true
  <-> Ascii.eqb c "010" = false /\ Ascii.eqb c "013" = false /\ no_breaks s = true.
Proof.
  simpl. rewrite !andb_true_iff, !negb_true_iff. tauto.
Qed.

Lemma no_breaks_app a b : no_breaks a = true -> no_breaks b = true -> no_breaks (a ++ b) = true.
Proof.
  intros Ha Hb. induction a as [|c a IH]; [exact Hb|].
  apply no_breaks_cons in Ha as (H10 & H13 & Ha).
  change (String c a ++ b) with (String c (a ++ b)). apply no_breaks_cons. auto.
Qed.

Lemma universal_newlines_cons c s :
  Ascii.eqb c "013" = false ->
  universal_newlines (String c s) = String c (universal_newlines s).
Proof. intros H. simpl. rewrite H. reflexivity. Qed.

Lemma universal_newlines_line body rest :
  no_breaks body = true ->
  universal_newlines (body ++ String "010" rest)
  = body ++ String "010" (universal_newlines rest).
Proof.
  intros H. induction body as [|c body IH]; [reflexivity|].
  apply no_breaks_cons in H as (_ & H13 & H).
  change (String c body ++ String "010" rest) with (String c (body ++ String "010" rest)).
  rewrite (universal_newlines_cons _ _ H13), (IH H). reflexivity.
Qed.

Lemma lines_from_line body rest :
  no_breaks body = true ->
  forall acc,
    lines_from acc (body ++ String "010" rest)
    = (acc ++ body ++ String "010" "") :: lines_from "" rest.
Proof.
  intros H. induction body as [|c body IH]; intros acc; [reflexivity|].
  apply no_breaks_cons in H as (H10 & _ & H).
  change (String c body ++ String "010" rest) with (String c (body ++ String "010" rest)).
  rewrite lines_from_cons, H10, (IH H), str_app_assoc. reflexivity.
Qed.

(** Lines that are written and read again: [writelines] followed by the
    loop over the file. *)
Lemma file_lines_concat lines :
  Forall complete_line lines -> file_lines (String.concat "" lines) = lines.
Proof.
  induction 1 as [|l lines (body & -> & Hbody) _ IH]; [reflexivity|].
  rewrite concat_cons, str_app_assoc. unfold file_lines in *.
  change (String "010" "" ++ String.concat "" lines)
    with (String "010" (String.concat "" lines)).
  rewrite (universal_newlines_line _ _ Hbody), (lines_from_line _ _ Hbody), IH.
  reflexivity.
Qed.

Lemma terminated_cons c1 c2 s : terminated (String c1 (String c2 s)) = terminated (String c2 s).
Proof. reflexivity. Qed.

Lemma terminated_tail c s : terminated (String c s) = true -> terminated s = true.
Proof. destruct s as [|c' s]; [reflexivity|]. rewrite terminated_cons. auto. Qed.

Lemma complete_line_acc acc : no_breaks acc = true -> complete_line (acc ++ String "010" "").
Proof. intros H. exists acc. auto. Qed.

Lemma lines_from_complete text :
  forall acc,
    no_breaks acc = true -> terminated text = true -> (text = "" -> acc = "") ->
    Forall complete_line (lines_from acc (universal_newlines text)).
Proof.
  induction text as [|c|c1 c2 s IHs IHc] using string_ind2; intros acc Hacc Hterm Hnil.
  - rewrite (Hnil eq_refl). constructor.
  - assert (Hu : universal_newlines (String c "") = String "010" "").
    { simpl in Hterm. simpl. destruct (Ascii.eqb_spec c "013") as [|H13]; [reflexivity|].
      destruct (Ascii.eqb_spec c "010") as [->|H10]; [reflexivity|discriminate]. }
    rewrite Hu. repeat constructor. apply complete_line_acc, Hacc.
  - rewrite terminated_cons in Hterm.
    assert (Hrest : Forall complete_line (lines_from "" (universal_newlines (String c2 s))))
      by (apply IHc; [reflexivity|exact Hterm|discriminate]).
    destruct (Ascii.eqb_spec c1 "013") as [->|H13].
    + destruct (Ascii.eqb_spec c2 "010") as [->|H10].
      * change (universal_newlines (String "013" (String "010" s)))
          with (String "010" (universal_newlines s)).
        rewrite lines_from_cons. simpl Ascii.eqb. cbv iota.
        constructor; [apply complete_line_acc, Hacc|].
        apply IHs; [reflexivity|apply (terminated_tail _ _ Hterm)|reflexivity].
      * assert (Hu : universal_newlines (String "013" (String c2 s))
                     = String "010" (universal_newlines (String c2 s))).
        { simpl. destruct (Ascii.eqb_spec c2 "010"); [contradiction|reflexivity]. }
        rewrite Hu, lines_from_cons. simpl Ascii.eqb. cbv iota.
        constructor; [apply complete_line_acc, Hacc|exact Hrest].
    + apply Ascii.eqb_neq in H13. rewrite (universal_newlines_cons _ _ H13).
      rewrite lines_from_cons. destruct (Ascii.eqb c1 "010") eqn:H10.
      * constructor; [|exact Hrest]. apply Ascii.eqb_eq in H10 as ->.
        apply complete_line_acc, Hacc.
      * apply IHc; [|exact Hterm|discriminate].
        apply no_breaks_app; [exact Hacc|]. apply no_breaks_cons. auto.
Qed.

Lemma file_lines_complete text :
  terminated text = true -> Forall complete_line (file_lines text).
Proof. intros H. apply lines_from_complete; auto. Qed.

Lemma email_to_line_complete e : no_breaks e = true -> complete_line (email_to_line e).
Proof.
  intros H. exists ("EMAIL_TO=" ++ e). split; [reflexivity|].
  apply no_breaks_app; [reflexivity|exact H].
Qed.

Lemma update_lines_complete e lines :
  no_breaks e = true -> Forall complete_line lines ->
  Forall complete_line (update_lines e lines).
Proof.
  intros He Hall. unfold update_lines.
  assert (Hmap : Forall complete_line
                   (map (fun line => if is_email_to line then email_to_line e else line)
                        lines)).
  { induction Hall as [|l lines Hl _ IH]; [constructor|]. simpl. constructor; [|exact IH].
    destruct (is_email_to l); [apply email_to_line_complete, He|exact Hl]. }
  destruct (existsb is_email_to lines); [exact Hmap|].
  apply Forall_app. split; [exact Hmap|]. repeat constructor.
  apply email_to_line_complete, He.
Qed.

Lemma filter_rewritten e lines :
  List.filter is_email_to
    (map (fun line => if is_email_to line then email_to_line e else line) lines)
  = repeat (email_to_line e) (length (List.filter is_email_to lines)).
Proof.
  induction lines as [|a l IH]; [reflexivity|]. cbn [map List.filter].
  destruct (is_email_to a) eqn:E.
  - rewrite is_email_to_line. cbn [length repeat]. f_equal. exact IH.
  - rewrite E. exact IH.
Qed.

Lemma filter_none {A : Type} (f : A -> bool) (l : list A) :
  existsb f l = false -> List.filter f l = [].
Proof.
  induction l as [|a l IH]; [reflexivity|]. simpl.
  destruct (f a); [discriminate|]. exact IH.
Qed.

(** The lines that set the recipient after the loop: the new line, as many
    times as there were such lines, once if there was none. *)
Lemma update_lines_recipients e lines :
  List.filter is_email_to (update_lines e lines)
  = repeat (email_to_line e) (Nat.max 1 (length (List.filter is_email_to lines))).
Proof.
  unfold update_lines. destruct (existsb is_email_to lines) eqn:E.
  - rewrite filter_rewritten. f_equal.
    apply existsb_exists in E as (x & Hin & Hx).
    assert (Hf : In x (List.filter is_email_to lines)) by (apply filter_In; auto).
    destruct (List.filter is_email_to lines); [contradiction|reflexivity].
  - rewrite List.filter_app, filter_rewritten, (filter_none _ _ E).
    cbn [length repeat List.filter app]. rewrite is_email_to_line. reflexivity.
Qed.

(** A run of [update_email_to] on a file that is there and can be
    written. *)
Lemma update_email_to_run w e path text st :
  files st !! path = Some (TextFile (Utf8.encode text)) ->
  write_error w path = None ->
  update_email_to w e path st
  = (mkState (<[path := TextFile (Utf8.encode
                          (String.concat "" (update_lines e (file_lines text))))]>
                (files st))
             (trace st),
     Ok ([], true)).
Proof.
  intros Hfile Hwrite. unfold update_email_to. rewrite Hfile. unfold text_of.
  rewrite decode_encode, write_file_ok by exact Hwrite. reflexivity.
Qed.

Lemma text_at_insert path text fs tr :
  text_at (mkState (<[path := TextFile (Utf8.encode text)]> fs) tr) path = Some text.
Proof. unfold text_at. cbn [files]. rewrite lookup_insert_eq. apply decode_encode. Qed.

(** The lines that set the recipient in the file that an update leaves. *)
Lemma updated_recipient_lines e text :
  terminated text = true -> no_breaks e = true ->
  recipient_lines (String.concat "" (update_lines e (file_lines text)))
  = repeat (email_to_line e) (Nat.max 1 (length (recipient_lines text))).
Proof.
  intros Hterm He. unfold recipient_lines.
  rewrite file_lines_concat
    by (apply update_lines_complete; [exact He|apply file_lines_complete, Hterm]).
  apply update_lines_recipients.
Qed.

End SettingsFile.

Section DashboardExtras.
Import Config Pipeline Spec Examples Dashboard AppSpec.

(** X16.  [update_email_to] on the file: without the file it shows an
    error, returns [False] and writes nothing.  A write that fails raises,
    changes no other file and shows nothing; the settings file is then
    what the failed write leaves of it, which is the file as it was only
    when the path could not be opened, since opening it for writing
    empties it.  When the write succeeds and no line of the file sets the
    recipient, the new content is the old one, as the text mode reads it,
    with the new line right after it and nothing in between (so a last
    line without a line break gets the setting on that same line); no
    other file changes and nothing is printed. *)
Theorem update_email_to_appends :
  (forall w e path st,
      files st !! path = None ->
      update_email_to w e path st
      = (st, Ok ([StError ("Arquivo " ++ path ++ " n" ++ Str.chr 227 ++ "o encontrado!")],
                 false)))
  /\ (forall w e path text st err,
         files st !! path = Some (TextFile (Utf8.encode text)) ->
         write_error w path = Some err ->
         exists st',
           update_email_to w e path st = (st', Raise err)
           /\ files st' !! path
              = match write_leaves w path with
                | Some partial => Some partial
                | None => files st !! path
                end
           /\ (forall other, other <> path -> files st' !! other = files st !! other)
           /\ trace st' = trace st)
  /\ (forall w e path text st,
         files st !! path = Some (TextFile (Utf8.encode text)) ->
         write_error w path = None ->
         has_setting_line text = false ->
         exists st',
           update_email_to w e path st = (st', Ok ([], true))
           /\ text_at st' path
              = Some (universal_newlines text ++ "EMAIL_TO=" ++ e ++ String "010" "")
           /\ (forall other, other <> path -> files st' !! other = files st !! other)
           /\ trace st' = trace st).
Proof.
  split; [|split].
  - intros w e path st Hnone. unfold update_email_to. rewrite Hnone. reflexivity.
  - intros w e path text st err Hfile Hwrite. unfold update_email_to.
    rewrite Hfile. unfold text_of.
    rewrite decode_encode, (write_file_error _ _ _ _ _ Hwrite).
    eexists. split; [reflexivity|]. cbn [files trace]. unfold files_after_failure.
    destruct (write_leaves w path) as [partial|].
    + split; [apply lookup_insert_eq|]. split; [|reflexivity].
      intros other Hne. apply lookup_insert_ne. congruence.
    + split; [exact Hfile|]. split; reflexivity.
  - intros w e path text st Hfile Hwrite Habsent.
    rewrite (update_email_to_run w e path text st Hfile Hwrite).
    eexists. split; [reflexivity|]. split; [|split; [|reflexivity]].
    + rewrite text_at_insert. f_equal. unfold has_setting_line in Habsent.
      rewrite (update_lines_absent e _ Habsent), concat_app, concat_file_lines.
      reflexivity.
    + intros other Hne. cbn [files]. apply lookup_insert_ne. congruence.
Qed.

(** The theorem at a settings file whose only line has no line break, and
    at a write that fails after the file was opened. *)
Lemma update_email_to_appends_witness :
  (exists st',
      update_email_to world_ok "novo@example.org" ".env" (state_dotenv dotenv_open)
      = (st', Ok ([], true))
      /\ text_at st' ".env"
         = Some ("SMTP_HOST=smtp.example.orgEMAIL_TO=novo@example.org" ++ String "010" ""))
  /\ (exists st',
         update_email_to world_dotenv_fails "novo@example.org" ".env"
           (state_dotenv dotenv_open)
         = (st', Raise (OSError "No space left on device"))
         /\ files st' !! ".env" = Some (TextFile [])).
Proof.
  split.
  - destruct (proj2 (proj2 update_email_to_appends)
                world_ok "novo@example.org" ".env" dotenv_open (state_dotenv dotenv_open))
      as (st' & Hrun & Htext & _).
    + vm_compute. reflexivity.
    + reflexivity.
    + vm_compute. reflexivity.
    + exists st'. split; [exact Hrun|]. rewrite Htext. reflexivity.
  - destruct (proj1 (proj2 update_email_to_appends)
                world_dotenv_fails "novo@example.org" ".env" dotenv_open
                (state_dotenv dotenv_open) (OSError "No space left on device"))
      as (st' & Hrun & Hfile & _).
    + vm_compute. reflexivity.
    + reflexivity.
    + exists st'. split; [exact Hrun|exact Hfile].
Defined.

(** X17.  On a settings file that is empty or ends with a line break, and
    for an address without a line break, [update_email_to] succeeds and
    the file read again has the line of the new address in the place of
    every line that sets the recipient: as many times as the file had such
    lines, once if it had none, and no other line sets the recipient.  A
    later update then replaces it: the file after two updates is the file
    after the second one alone. *)
Theorem update_email_to_last_wins :
  forall w e1 e2 path text st,
    files st !! path = Some (TextFile (Utf8.encode text)) ->
    write_error w path = None ->
    terminated text = true ->
    no_breaks e1 = true ->
    exists st1 text1,
      update_email_to w e1 path st = (st1, Ok ([], true))
      /\ text_at st1 path = Some text1
      /\ email_to_line e1 ∈ file_lines text1
      /\ (forall l, l ∈ file_lines text1 -> is_email_to l = true -> l = email_to_line e1)
      /\ recipient_lines text1
         = repeat (email_to_line e1) (Nat.max 1 (length (recipient_lines text)))
      /\ update_email_to w e2 path st1 = update_email_to w e2 path st.
Proof.
  intros w e1 e2 path text st Hfile Hwrite Hterm He1.
  rewrite (update_email_to_run w e1 path text st Hfile Hwrite).
  assert (Hread : file_lines (String.concat "" (update_lines e1 (file_lines text)))
                  = update_lines e1 (file_lines text))
    by (apply file_lines_concat, update_lines_complete;
        [exact He1|apply file_lines_complete, Hterm]).
  eexists. eexists. split; [reflexivity|]. split; [apply text_at_insert|].
  rewrite Hread. split; [apply update_lines_has_line|].
  split; [apply update_lines_only_line|].
  split; [apply updated_recipient_lines; assumption|].
  rewrite (update_email_to_run w e2 path text st Hfile Hwrite).
  rewrite (update_email_to_run w e2 path _ _ (lookup_insert_eq _ _ _) Hwrite).
  cbn [files trace]. rewrite Hread, update_lines_again, insert_insert_eq. reflexivity.
Qed.

(** The theorem at a settings file with two lines for the recipient: both
    are replaced. *)
Lemma update_email_to_last_wins_witness :
  exists st1 text1,
    update_email_to world_ok "novo@example.org" ".env" (state_dotenv dotenv_twice)
    = (st1, Ok ([], true))
    /\ text_at st1 ".env" = Some text1
    /\ recipient_lines text1
       = [email_to_line "novo@example.org"; email_to_line "novo@example.org"].
Proof.
  destruct (update_email_to_last_wins world_ok "novo@example.org" "outro@example.org"
              ".env" dotenv_twice (state_dotenv dotenv_twice))
    as (st1 & text1 & Hrun & Htext & _ & _ & Hlines & _).
  - vm_compute. reflexivity.
  - reflexivity.
  - vm_compute. reflexivity.
  - vm_compute. reflexivity.
  - exists st1, text1. split; [exact Hrun|]. split; [exact Htext|].
    rewrite Hlines. vm_compute. reflexivity.
Defined.

End DashboardExtras.

(** ** The newest Excel file *)

Section LatestExcel.
Import Config Pipeline Spec Examples Dashboard AppSpec.

Lemma max_by_mtime_first l :
  forall best,
    (max_by_mtime best l = best /\ forall f, f ∈ l -> (snd f <= snd best)%Z)
    \/ (exists before after,
          l = (before ++ max_by_mtime best l :: after)%list
          /\ (snd best < snd (max_by_mtime best l))%Z
          /\ (forall f, f ∈ before -> (snd f < snd (max_by_mtime best l))%Z)
          /\ (forall f, f ∈ after -> (snd f <= snd (max_by_mtime best l))%Z)).
Proof.
  induction l as [|f l IH]; intros best.
  - left. split; [reflexivity|]. intros f Hf. inversion Hf.
  - simpl max_by_mtime. destruct (Z.ltb_spec (snd best) (snd f)) as [Hlt|Hge].
    + destruct (IH f) as [[-> Hall]|(before & after & Hl & Hbest & Hb & Ha)].
      * right. exists [], l. split; [reflexivity|]. split; [exact Hlt|].
        split; [intros x Hx; inversion Hx|exact Hall].
      * right. exists (f :: before), after. split; [simpl; f_equal; exact Hl|].
        split; [lia|]. split; [|exact Ha].
        intros x Hx. apply elem_of_cons in Hx as [->|Hx]; [exact Hbest|apply Hb, Hx].
    + destruct (IH best) as [[-> Hall]|(before & after & Hl & Hbest & Hb & Ha)].
      * left. split; [reflexivity|].
        intros x Hx. apply elem_of_cons in Hx as [->|Hx]; [exact Hge|apply Hall, Hx].
      * right. exists (f :: before), after. split; [simpl; f_equal; exact Hl|].
        split; [exact Hbest|]. split; [|exact Ha].
        intros x Hx. apply elem_of_cons in Hx as [->|Hx]; [lia|apply Hb, Hx].
Qed.

(** An element of a filtered list, at its place in the list. *)
Lemma filter_split {A : Type} (P : A -> bool) (l : list A) :
  forall before x after,
    List.filter P l = (before ++ x :: after)%list ->
    exists b a,
      l = (b ++ x :: a)%list /\ P x = true
      /\ List.filter P b = before /\ List.filter P a = after.
Proof.
  induction l as [|y l IH]; intros before x after H.
  - destruct before; discriminate H.
  - simpl in H. destruct (P y) eqn:Ey.
    + destruct before as [|z before]; simpl in H; injection H as -> H.
      * exists [], l. simpl. auto.
      * destruct (IH before x after H) as (b & a & -> & Hx & Hb & Ha).
        exists (z :: b), a. simpl. rewrite Ey, Hb. auto.
    + destruct (IH before x after H) as (b & a & -> & Hx & Hb & Ha).
      exists (y :: b), a. simpl. rewrite Ey. auto.
Qed.

Lemma filter_elem {A : Type} (P : A -> bool) (l : list A) x :
  x ∈ l -> P x = true -> x ∈ List.filter P l.
Proof. intros Hin Hx. apply list_elem_of_In, filter_In. split; [apply list_elem_of_In, Hin|exact Hx]. Qed.

(** X18.  [get_latest_excel] shows its warning and returns [None] exactly
    when no name of the directory matches [satepsi_data_*.xlsx].
    Otherwise it returns a name that matches, with the greatest
    modification time among those that match; of several with that time it
    returns the one that the glob lists first. *)
Theorem get_latest_excel_newest :
  forall entries,
    (snd (get_latest_excel entries) = None
     <-> forall f, f ∈ entries -> glob_match (fst f) = false)
    /\ (fst (get_latest_excel entries) = [] <-> snd (get_latest_excel entries) <> None)
    /\ (forall name,
          snd (get_latest_excel entries) = Some name ->
          exists t before after,
            entries = (before ++ (name, t) :: after)%list
            /\ glob_match name = true
            /\ (forall f, f ∈ before -> glob_match (fst f) = true -> (snd f < t)%Z)
            /\ (forall f, f ∈ after -> glob_match (fst f) = true -> (snd f <= t)%Z)).
Proof.
  intros entries. unfold get_latest_excel.
  destruct (List.filter (fun f => glob_match (fst f)) entries) as [|f l] eqn:E.
  - split; [|split].
    + split; [|reflexivity]. intros _ x Hx.
      destruct (glob_match (fst x)) eqn:Ex; [|reflexivity].
      pose proof (filter_elem (fun f => glob_match (fst f)) entries x Hx Ex) as Hin.
      rewrite E in Hin. inversion Hin.
    + simpl. split; [discriminate|]. intros H. contradiction.
    + simpl. discriminate.
  - split; [|split].
    + simpl. split; [discriminate|]. intros Hall. exfalso.
      assert (Hin : f ∈ List.filter (fun f => glob_match (fst f)) entries)
        by (rewrite E; apply list_elem_of_here).
      apply list_elem_of_In, filter_In in Hin as [Hin Hf].
      rewrite (Hall f) in Hf by (apply list_elem_of_In, Hin). discriminate Hf.
    + simpl. split; [discriminate|reflexivity].
    + simpl. intros name [= <-].
      assert (Hsplit : exists before after,
                 (f :: l = before ++ max_by_mtime f l :: after)%list
                 /\ (forall x, x ∈ before -> (snd x < snd (max_by_mtime f l))%Z)
                 /\ (forall x, x ∈ after -> (snd x <= snd (max_by_mtime f l))%Z)).
      { destruct (max_by_mtime_first l f)
          as [[Hr Hall]|(before & after & Hl & Hbest & Hb & Ha)].
        - exists [], l. rewrite Hr. split; [reflexivity|].
          split; [intros x Hx; inversion Hx|exact Hall].
        - exists (f :: before), after. split; [simpl; f_equal; exact Hl|].
          split; [|exact Ha].
          intros x Hx. apply elem_of_cons in Hx as [->|Hx]; [exact Hbest|apply Hb, Hx]. }
      destruct Hsplit as (before & after & Hl & Hb & Ha). rewrite <- E in Hl.
      apply filter_split in Hl as (b & a & -> & Hmatch & <- & <-).
      destruct (max_by_mtime f l) as [name t]. exists t, b, a.
      split; [reflexivity|]. split; [exact Hmatch|]. split.
      * intros x Hx Hg. apply Hb, filter_elem; assumption.
      * intros x Hx Hg. apply Ha, filter_elem; assumption.
Qed.

Lemma endswith_unfold suffix s :
  endswith suffix s
  = (String.eqb s suffix
     || match s with
        | EmptyString => false
        | String _ s' => endswith suffix s'
        end).
Proof. destruct s; reflexivity. Qed.

Lemma endswith_app suffix p : endswith suffix (p ++ suffix) = true.
Proof.
  induction p as [|c p IH].
  - rewrite endswith_unfold. simpl. rewrite String.eqb_refl. reflexivity.
  - change (String c p ++ suffix) with (String c (p ++ suffix)).
    rewrite endswith_unfold. cbv iota. rewrite IH. apply orb_true_r.
Qed.

Lemma endswith_inv suffix s : endswith suffix s = true -> exists p, s = p ++ suffix.
Proof.
  induction s as [|c s IH]; rewrite endswith_unfold; cbv iota; intros H;
    apply orb_true_iff in H as [H|H].
  - apply String.eqb_eq in H as <-. exists "". reflexivity.
  - discriminate H.
  - apply String.eqb_eq in H as <-. exists "". reflexivity.
  - destruct (IH H) as (p & ->). exists (String c p). reflexivity.
Qed.

(** X19.  The dashboard finds what the scraper writes.  Whatever the clock
    says, the name of the Excel file of a run matches the pattern
    [satepsi_data_*.xlsx] of [get_latest_excel], and the names of the JSON
    file, of the Word report and of the history do not: with the Excel
    file of a run in the directory, [get_latest_excel] returns a file and
    shows no warning. *)
Theorem dashboard_finds_excel_of_run :
  forall w,
    (exists name, in_data_dir (excel_path w) name /\ glob_match name = true)
    /\ (forall path name,
          path ∈ [json_path w; word_path w; PREVIOUS_DATA_FILE] ->
          in_data_dir path name -> glob_match name = false)
    /\ (forall name t entries,
          in_data_dir (excel_path w) name -> (name, t) ∈ entries ->
          exists latest, get_latest_excel entries = ([], Some latest)).
Proof.
  intros w.
  assert (Hexcel : forall name, in_data_dir (excel_path w) name -> glob_match name = true).
  { intros name H. unfold in_data_dir, excel_path, get_timestamp_filename, DATA_DIR in H.
    apply String.app_inj in H. subst name. unfold glob_match. simpl without_prefix.
    apply (endswith_app ".xlsx"). }
  split; [|split].
  - eexists. split; [reflexivity|]. apply Hexcel. reflexivity.
  - intros path name Hpath H. unfold in_data_dir in H.
    repeat (apply elem_of_cons in Hpath as [->|Hpath]); [| | |inversion Hpath].
    + unfold json_path, get_timestamp_filename, DATA_DIR in H.
      apply String.app_inj in H. subst name. unfold glob_match. simpl without_prefix.
      destruct (endswith ".xlsx" (now_json w ++ ".json")) eqn:E; [|reflexivity].
      apply endswith_inv in E as (p & E).
      apply str_app_inj_len in E as [_ E]; [discriminate E|reflexivity].
    + unfold word_path, get_timestamp_filename, DATA_DIR in H.
      apply String.app_inj in H. subst name. reflexivity.
    + unfold PREVIOUS_DATA_FILE, DATA_DIR in H.
      apply String.app_inj in H. subst name. reflexivity.
  - intros name t entries Hname Hin. unfold get_latest_excel.
    pose proof (filter_elem (fun f => glob_match (fst f)) entries (name, t) Hin
                  (Hexcel name Hname)) as Hf.
    destruct (List.filter (fun f => glob_match (fst f)) entries) as [|f l];
      [inversion Hf|eauto].
Qed.

End LatestExcel.

(** ** The form of the dashboard *)

Section FormExtras.
Import Config Pipeline Spec Examples Dashboard AppSpec.

Lemma has_at_nonempty s : has_at s = true -> Bs4.nonempty s = true.
Proof. destruct s; [discriminate|reflexivity]. Qed.

Lemma form_email_valid w addr st :
  has_at addr = true ->
  form_email w addr true st
  = match update_email_to w addr ".env" st with
    | (st', Ok (shown, true)) => (st', Ok (shown ++ [subscribed addr])%list)
    | (st', Ok (shown, false)) => (st', Ok (shown ++ [not_updated])%list)
    | (st', Raise e) => (st', Raise e)
    end.
Proof.
  intros Hat. unfold form_email. rewrite Hat, (has_at_nonempty _ Hat).
  unfold andb. cbv iota. rewrite bind_run.
  destruct (update_email_to w addr ".env" st) as [st' [[shown [|]]|e]]; reflexivity.
Qed.

(** X20.  The form of the dashboard.  Nothing is written unless the button
    was pressed and the text typed has an [@]; an address without it gets
    the warning.  Without the settings file the page shows two errors and
    nothing is written.  With a settings file that is empty or ends with a
    line break, the page reports success, and the file then holds the line
    of the address typed in the place of every line that sets the
    recipient: as many times as the file had such lines, once if it had
    none, and no other line sets the recipient; no other file changes. *)
Theorem form_email_subscribes :
  (forall w addr st, form_email w addr false st = (st, Ok []))
  /\ (forall w addr st,
         has_at addr = false -> form_email w addr true st = (st, Ok [invalid_address]))
  /\ (forall w addr st,
         has_at addr = true -> files st !! ".env" = None ->
         form_email w addr true st
         = (st, Ok [StError ("Arquivo .env n" ++ Str.chr 227 ++ "o encontrado!");
                    not_updated]))
  /\ (forall w addr text st,
         has_at addr = true -> no_breaks addr = true ->
         files st !! ".env" = Some (TextFile (Utf8.encode text)) ->
         write_error w ".env" = None ->
         terminated text = true ->
         exists st' text',
           form_email w addr true st = (st', Ok [subscribed addr])
           /\ text_at st' ".env" = Some text'
           /\ email_to_line addr ∈ file_lines text'
           /\ (forall l, l ∈ file_lines text' -> is_email_to l = true ->
                 l = email_to_line addr)
           /\ recipient_lines text'
              = repeat (email_to_line addr) (Nat.max 1 (length (recipient_lines text)))
           /\ (forall other, other <> ".env" -> files st' !! other = files st !! other)).
Proof.
  split; [reflexivity|]. split; [|split].
  - intros w addr st Hat. unfold form_email. rewrite Hat, andb_false_r. reflexivity.
  - intros w addr st Hat Hnone. rewrite (form_email_valid w addr st Hat).
    unfold update_email_to. rewrite Hnone. reflexivity.
  - intros w addr text st Hat Hbreaks Hfile Hwrite Hterm.
    rewrite (form_email_valid w addr st Hat).
    rewrite (update_email_to_run w addr ".env" text st Hfile Hwrite).
    eexists. eexists. split; [reflexivity|]. split; [apply text_at_insert|].
    split; [|split; [|split]].
    + rewrite file_lines_concat
        by (apply update_lines_complete; [exact Hbreaks|apply file_lines_complete, Hterm]).
      apply update_lines_has_line.
    + rewrite file_lines_concat
        by (apply update_lines_complete; [exact Hbreaks|apply file_lines_complete, Hterm]).
      apply update_lines_only_line.
    + apply updated_recipient_lines; assumption.
    + intros other Hne. cbn [files]. apply lookup_insert_ne. congruence.
Qed.

(** The theorem at an address typed for the settings file with a line for
    the recipient, and at a text without an [@]. *)
Lemma form_email_subscribes_witness :
  form_email world_ok "sem arroba" true (state_dotenv dotenv_closed)
  = (state_dotenv dotenv_closed, Ok [invalid_address])
  /\ exists st' text',
       form_email world_ok "novo@example.org" true (state_dotenv dotenv_closed)
       = (st', Ok [subscribed "novo@example.org"])
       /\ text_at st' ".env" = Some text'
       /\ recipient_lines text' = [email_to_line "novo@example.org"].
Proof.
  destruct form_email_subscribes as (_ & Hinvalid & _ & Hvalid).
  split.
  - apply Hinvalid. reflexivity.
  - destruct (Hvalid world_ok "novo@example.org" dotenv_closed (state_dotenv dotenv_closed))
      as (st' & text' & Hrun & Htext & _ & _ & Hlines & _).
    + reflexivity.
    + vm_compute. reflexivity.
    + vm_compute. reflexivity.
    + reflexivity.
    + vm_compute. reflexivity.
    + exists st', text'. split; [exact Hrun|]. split; [exact Htext|].
      rewrite Hlines. vm_compute. reflexivity.
Defined.

End FormExtras.

(** ** Panels without a badge; the cells of a summary row *)

Section MoreExtractorExtras.
Import Bs4 Config Scraper Spec Examples ExtractorSpec.

Lemma intersperse_empty s : Str.intersperse "" s = s.
Proof. induction s as [|c s IH]; [reflexivity|]. simpl. rewrite IH. reflexivity. Qed.

(** X21.  A panel whose header has no status badge: the name of its
    record is the whole text of the header (removing the empty status
    removes nothing), and its status is empty unless a row of the panel is
    labelled with the status. *)
Theorem parse_item_without_badge :
  forall item header rec,
    find_child (named "a") item = Some header ->
    badge_of header = None ->
    parse_item item = Some rec ->
    dict_get "Nome" rec = Some (get_text "" header)
    /\ ((forall row, row ∈ item_rows item -> fst <$> row_field row <> Some "Status") ->
        dict_get "Status" rec = Some "").
Proof.
  intros item header rec Hheader Hbadge Hitem.
  assert (Hstatus : badge_text header = "")
    by (unfold badge_text; unfold badge_of in Hbadge; rewrite Hbadge; reflexivity).
  split.
  - rewrite (parse_item_Nome item header rec Hheader Hitem). f_equal.
    unfold title_of. rewrite Hstatus. unfold Str.replace.
    rewrite intersperse_empty. apply get_text_trimmed.
  - intros Hrows. unfold parse_item in Hitem. rewrite Hheader in Hitem.
    injection Hitem as <-. unfold panel_row.
    rewrite (dict_get_fold_set row_field) by exact Hrows.
    rewrite Hstatus. reflexivity.
Qed.

(** The theorem at a panel with a plain header and a row for the
    authors. *)
Lemma parse_item_without_badge_witness :
  exists rec,
    parse_item panel_with_row = Some rec
    /\ dict_get "Nome" rec = Some "Teste XYZ"
    /\ dict_get "Status" rec = Some "".
Proof.
  eexists. split; [vm_compute; reflexivity|].
  destruct (parse_item_without_badge panel_with_row
              (Tag "a" [] [] [NavigableString "Teste XYZ"])
              (match parse_item panel_with_row with Some rec => rec | None => [] end))
    as [Hname Hstatus].
  - reflexivity.
  - reflexivity.
  - vm_compute. reflexivity.
  - split; [exact Hname|]. apply Hstatus. intros row Hrow.
    vm_compute in Hrow. apply elem_of_cons in Hrow as [->|Hrow]; [|inversion Hrow].
    vm_compute. discriminate.
Defined.

Lemma rmap_Ok_output {A B : Type} (f : A -> result B) (l : list A) (ys : list B) (x : A) :
  rmap f l = Ok ys -> x ∈ l -> exists y, y ∈ ys /\ f x = Ok y.
Proof.
  revert ys. induction l as [|x0 l IH]; intros ys Hok Hx; [inversion Hx|].
  change (rmap f (x0 :: l)) with (y ← f x0; ys ← rmap f l; Ok (y :: ys)) in Hok.
  destruct (f x0) as [y0|e] eqn:E0; simpl in Hok; [|discriminate].
  destruct (rmap f l) as [ys0|e] eqn:El; simpl in Hok; [|discriminate].
  injection Hok as <-. apply elem_of_cons in Hx as [->|Hx].
  - exists y0. split; [apply list_elem_of_here|exact E0].
  - destruct (IH ys0 eq_refl Hx) as (y & Hy & Hfx).
    exists y. split; [apply list_elem_of_further, Hy|exact Hfx].
Qed.

Lemma summary_record_fields rows i c0 c1 c2 c3 rec :
  rfold detail_label (summary_record c0 c1 c2 c3) (detail_labels rows i) = Ok rec ->
  summary_fields rows i c0 c1 c2 c3 rec.
Proof.
  intros Hrec key c Hkey Hlabels.
  rewrite (rfold_detail_label_get _ _ _ key Hrec Hlabels).
  repeat (apply elem_of_cons in Hkey as [[= -> ->]|Hkey]; [reflexivity|]).
  inversion Hkey.
Qed.

(** A round of the loop of [parse_table] that gives a record. *)
Lemma table_rows_at_cells rows i rec :
  table_rows_at rows i = Ok (Some rec) ->
  exists summary c0 c1 c2 c3 rest,
    rows !! i = Some summary
    /\ find_all (named "td") summary = c0 :: c1 :: c2 :: c3 :: rest
    /\ summary_fields rows i c0 c1 c2 c3 rec.
Proof.
  intros H. unfold table_rows_at in H.
  destruct (rows !! i) as [summary|] eqn:Hrow; [|discriminate].
  destruct (find_all (named "td") summary) as [|c0 [|c1 [|c2 [|c3 rest]]]] eqn:Ecells;
    try discriminate.
  exists summary, c0, c1, c2, c3, rest. split; [reflexivity|]. split; [exact Ecells|].
  apply summary_record_fields.
  unfold detail_labels. fold (summary_record c0 c1 c2 c3) in H.
  destruct (i + 1 <? length rows)%nat eqn:Elt.
  - destruct (rows !! (i + 1)%nat) as [detail|]; [|injection H as <-; reflexivity].
    destruct (find _ detail) as [td|]; [|injection H as <-; reflexivity].
    destruct (rfold detail_label _ _) as [r|e]; simpl in H; [|discriminate].
    injection H as <-. reflexivity.
  - apply Nat.ltb_ge in Elt.
    rewrite (lookup_ge_None_2 rows (i + 1)) by lia. injection H as <-. reflexivity.
Qed.

(** With four cells in the summary row, a round that returns gives a
    record. *)
Lemma table_rows_at_some rows i summary c0 c1 c2 c3 rest o :
  rows !! i = Some summary ->
  find_all (named "td") summary = c0 :: c1 :: c2 :: c3 :: rest ->
  table_rows_at rows i = Ok o -> exists rec, o = Some rec.
Proof.
  intros Hrow Hcells. unfold table_rows_at. rewrite Hrow, Hcells.
  destruct (if (i + 1 <? length rows)%nat then rows !! (i + 1)%nat else None)
    as [detail|]; [|intros [= <-]; eauto].
  destruct (find _ detail) as [td|]; [|intros [= <-]; eauto].
  destruct (rfold detail_label _ _) as [r|e]; simpl; [|discriminate].
  intros [= <-]. eauto.
Qed.

(** X22.  What [parse_table] reads from the summary rows, when it returns.
    Every record comes from a row at an odd index that has at least four
    cells, and every such row gives a record.  The status, the authors,
    the publisher and the construct of the record are the stripped texts
    of the first four cells, each unless a label of the detail row below
    stands for the same field. *)
Theorem parse_table_summary_cells :
  forall table recs,
    parse_table table = Ok recs ->
    (forall rec,
        rec ∈ recs ->
        exists i summary c0 c1 c2 c3 rest,
          (exists k, i = 2 * k + 1)%nat
          /\ find_all (named "tr") table !! i = Some summary
          /\ find_all (named "td") summary = c0 :: c1 :: c2 :: c3 :: rest
          /\ summary_fields (find_all (named "tr") table) i c0 c1 c2 c3 rec)
    /\ (forall i summary c0 c1 c2 c3 rest,
          (exists k, i = 2 * k + 1)%nat ->
          find_all (named "tr") table !! i = Some summary ->
          find_all (named "td") summary = c0 :: c1 :: c2 :: c3 :: rest ->
          exists rec,
            rec ∈ recs
            /\ summary_fields (find_all (named "tr") table) i c0 c1 c2 c3 rec).
Proof.
  intros table recs. unfold parse_table.
  destruct (rmap _ _) as [found|e] eqn:E; simpl; [|discriminate].
  intros [= <-]. split.
  - intros rec Hin. apply list_elem_of_omap in Hin as (o & Ho & Hsome).
    simpl in Hsome. subst o.
    destruct (rmap_Ok_elem _ _ _ _ E Ho) as (i & Hi & Hrec).
    apply py_range_odd in Hi as (_ & Hodd).
    destruct (table_rows_at_cells _ _ _ Hrec)
      as (summary & c0 & c1 & c2 & c3 & rest & Hrow & Hcells & Hfields).
    exists i, summary, c0, c1, c2, c3, rest. auto.
  - intros i summary c0 c1 c2 c3 rest Hodd Hrow Hcells.
    assert (Hi : i ∈ py_range 1 (length (find_all (named "tr") table)) 2).
    { apply py_range_odd. split; [|exact Hodd].
      apply lookup_lt_is_Some. rewrite Hrow. eauto. }
    destruct (rmap_Ok_output _ _ _ _ E Hi) as (o & Ho & Hat).
    destruct (table_rows_at_some _ _ _ _ _ _ _ _ _ Hrow Hcells Hat) as (rec & ->).
    exists rec. split.
    + apply list_elem_of_omap. exists (Some rec). split; [exact Ho|reflexivity].
    + destruct (table_rows_at_cells _ _ _ Hat)
        as (summary' & d0 & d1 & d2 & d3 & rest' & Hrow' & Hcells' & Hfields).
      rewrite Hrow in Hrow'. injection Hrow' as <-.
      rewrite Hcells in Hcells'. injection Hcells' as <- <- <- <- _. exact Hfields.
Qed.

(** The theorem at the table with a summary row and a detail row. *)
Lemma parse_table_summary_cells_witness :
  exists recs rec,
    parse_table (Tag "table" [] [] rows_with_detail) = Ok recs
    /\ rec ∈ recs
    /\ dict_get "Construto" rec = Some (Text "Memoria").
Proof.
  eexists.
  assert (Hrun : parse_table (Tag "table" [] [] rows_with_detail)
                 = Ok (match parse_table (Tag "table" [] [] rows_with_detail) with
                       | Ok recs => recs
                       | Raise _ => []
                       end)) by (vm_compute; reflexivity).
  destruct (proj2 (parse_table_summary_cells _ _ Hrun) 1%nat
              (Tag "tr" [] [] (map text_cell ["Aprovado"; "Silva"; "Editora X"; "Memoria"]))
              (text_cell "Aprovado") (text_cell "Silva") (text_cell "Editora X")
              (text_cell "Memoria") [])
    as (rec & Hin & Hfields).
  - exists 0%nat. reflexivity.
  - reflexivity.
  - reflexivity.
  - exists rec. split; [exact Hrun|]. split; [exact Hin|].
    apply (Hfields "Construto" (text_cell "Memoria")).
    + repeat first [apply list_elem_of_here | apply list_elem_of_further].
    + intros s Hs. vm_compute in Hs.
      apply elem_of_cons in Hs as [->|Hs]; [|inversion Hs].
      vm_compute. discriminate.
Defined.

End MoreExtractorExtras.

